(** * pycord-paginator: a shallow embedding of [discord/ext/paginator/paginator.py]

    The [Paginator] class is embedded as a record of its attributes together
    with one Rocq function per method.  Methods that mutate the paginator or
    the button objects, or that talk to the host, run in a state-and-exception
    monad whose state survives a raised exception, as it does in Python.

    The modules [buttons.py] and [pages.py] and the host library [discord]
    are not part of the sources; the classes used from them are modelled
    from the specification and from the way [paginator.py] uses them.

    Embedded: [__init__], [update], [goto_page], [_prepare] and the
    [Mapping] protocol, [update_buttons], [add_button],
    [add_default_buttons], [remove_button], [add_menu],
    [update_custom_view], [get_page_content], [get_page_group_content],
    [page_action], [interaction_check], [send] and [respond]; and, in the
    module [Closing], [cancel], [disable] and [on_timeout], which write to
    host attributes that the other methods never read.  The method [edit]
    is left out: what it does depends on the kind of host object it is
    given and on what the edit of that object returns. *)

From Stdlib Require Import ZArith String List Floats Bool Lia.
From stdpp Require Import base decidable option strings list gmap pretty.

Open Scope Z_scope.

(** ** Enumerations *)

(** Modelled from the spec: the enum [PaginatorButtonType] of [buttons.py],
    "one of {first, prev, page_indicator, next, last, custom}". *)
Module PaginatorButtonType.
Inductive t : Type := first | prev | page_indicator | next | last | custom.

#[global] Instance eq_dec : EqDecision t.
Proof. solve_decision. Defined.
End PaginatorButtonType.

(** The button styles of the host library that [add_default_buttons] uses. *)
Module ButtonStyle.
Inductive t : Type := blurple | gray | green | red.

#[global] Instance eq_dec : EqDecision t.
Proof. solve_decision. Defined.
End ButtonStyle.

(** ** Python exceptions and results *)

Inductive exn : Type :=
| ValueError (msg : string)
| TypeError (msg : string)
| IndexError (msg : string)
| KeyError (key : PaginatorButtonType.t)
| AttributeError (msg : string).

Inductive result (A : Type) : Type :=
| Ok (a : A)
| Raise (e : exn).
Arguments Ok {A} a.
Arguments Raise {A} e.

Definition result_bind {A B} (r : result A) (f : A -> result B) : result B :=
  match r with
  | Ok a => f a
  | Raise e => Raise e
  end.

Notation "'try' x := r 'in' k" := (result_bind r (fun x => k))
  (at level 10, x pattern, r at level 100, k at level 200).

(** The exceptions [paginator.py] raises itself, under the names the
    specification gives them. *)
Definition ConfigurationError : exn :=
  ValueError "Only one PageGroup can be set as the default.".
Definition ValidationError : exn :=
  ValueError "paginator responses cannot be ephemeral if the paginator timeout is 15 minutes or greater".
Definition LookupError (button_type : PaginatorButtonType.t) : exn :=
  ValueError ("no button_type " +:+
              match button_type with
              | PaginatorButtonType.first => "PaginatorButtonType.first"
              | PaginatorButtonType.prev => "PaginatorButtonType.prev"
              | PaginatorButtonType.page_indicator => "PaginatorButtonType.page_indicator"
              | PaginatorButtonType.next => "PaginatorButtonType.next"
              | PaginatorButtonType.last => "PaginatorButtonType.last"
              | PaginatorButtonType.custom => "PaginatorButtonType.custom"
              end +:+ " was found in this paginator.").
Definition ContentTypeError : exn :=
  TypeError "All list items must be embeds or files.".
Definition UnsupportedContentError : exn :=
  TypeError "Page content must be a Page object, string, an embed, a list of embeds, a file, or a list of files.".

(** The exceptions the interpreter raises on the paginator's behalf. *)
Definition NotInList : exn := ValueError "x is not in list".
Definition OutOfRange : exn := IndexError "list index out of range".
Definition NoneNotIterable : exn :=
  TypeError "argument of type 'NoneType' is not iterable".
Definition NotReadyError : exn :=
  AttributeError "'NoneType' object has no attribute".

(** ** Python built-ins used by the paginator *)

(** [l[i]] on a list: a negative index counts from the end. *)
Definition py_getitem {A} (l : list A) (i : Z) : result A :=
  let n := Z.of_nat (length l) in
  let j := if i <? 0 then i + n else i in
  if (j <? 0) || (n <=? j) then Raise OutOfRange
  else match l !! Z.to_nat j with
       | Some x => Ok x
       | None => Raise OutOfRange
       end.

(** [l.index(x)]: the position of the first element equal to [x]. *)
Fixpoint list_find_index {A} (p : A -> bool) (l : list A) : option nat :=
  match l with
  | [] => None
  | y :: l' => if p y then Some O else S <$> list_find_index p l'
  end.

Definition py_index {A} (p : A -> bool) (l : list A) : result nat :=
  match list_find_index p l with
  | Some i => Ok i
  | None => Raise NotInList
  end.

(** [l.remove(x)] with its [ValueError] swallowed, as [View.remove_item] does:
    drop the first element equal to [x], if any. *)
Fixpoint remove_first {A} `{EqDecision A} (x : A) (l : list A) : list A :=
  match l with
  | [] => []
  | y :: l' => if decide (x = y) then l' else y :: remove_first x l'
  end.

(** A [dict] keeps its keys unique and in insertion order; [update_buttons]
    walks [self.buttons.items()] in that order. *)
Section Dict.
Context {K V : Type} `{EqDecision K}.

Definition dict : Type := list (K * V).

Fixpoint dict_get (k : K) (d : dict) : option V :=
  match d with
  | [] => None
  | (k', v) :: d' => if decide (k = k') then Some v else dict_get k d'
  end.

(** [d[k] = v] *)
Fixpoint dict_set (k : K) (v : V) (d : dict) : dict :=
  match d with
  | [] => [(k, v)]
  | (k', v') :: d' =>
      if decide (k = k') then (k, v) :: d' else (k', v') :: dict_set k v d'
  end.

(** the mapping left behind by [d.pop(k)] *)
Fixpoint dict_del (k : K) (d : dict) : dict :=
  match d with
  | [] => []
  | (k', v') :: d' =>
      if decide (k = k') then dict_del k d' else (k', v') :: dict_del k d'
  end.
End Dict.
Arguments dict : clear implicits.

(** Arguments whose default is the sentinel [discord.MISSING], which tells an
    omitted argument from an explicit [None]. *)
Inductive supplied (A : Type) : Type :=
| MISSING
| Supplied (a : A).
Arguments MISSING {A}.
Arguments Supplied {A} a.

(** ** Host objects

    Embeds, files, view items, users and messages belong to the host library
    and are opaque here: each is identified by a name or a number. *)

Definition Embed : Type := string.
Definition File : Type := string.
Definition User : Type := nat.
Definition Message : Type := nat.
Definition Callback : Type := nat.

(** A button object lives in the store and is shared by reference between
    [self.custom_buttons], [self.buttons] and [self.children]. *)
Definition ref : Type := nat.

(** A caller's [discord.ui.View]: only its items matter. *)
Module View.
Record t : Type := mk { children : list nat }.

#[global] Instance eq_dec : EqDecision t.
Proof. solve_decision. Defined.
End View.

Module Interaction.
Record t : Type := mk { id : nat; user : User }.
End Interaction.

(** ** Pages and page groups *)

(** Modelled from the spec: the class [Page] of [pages.py], "content: optional
    text; embeds; files; custom_view: optional set of extra UI elements;
    callback: optional async action". *)
Module Page.
Record t : Type := mk {
  content : option string;
  embeds : list Embed;
  files : list File;
  custom_view : option View.t;
  callback : option Callback
}.

#[global] Instance eq_dec : EqDecision t.
Proof. solve_decision. Defined.

(** [Page(content=c, embeds=e, files=f)] *)
Definition new (c : option string) (e : list Embed) (f : list File) : t :=
  {| content := c; embeds := e; files := f;
     custom_view := None; callback := None |}.

(** Modelled from the spec: [Page.update_files] re-resolves the attachments
    for the next render and returns them; the files themselves are the same. *)
Definition update_files (p : t) : list File := files p.
End Page.

(** What a list given as one page may hold. *)
Inductive ListItem : Type :=
| EmbedItem (e : Embed)
| FileItem (f : File)
| OtherItem.

#[global] Instance ListItem_eq_dec : EqDecision ListItem.
Proof. solve_decision. Defined.

(** What may stand for one page: the argument of [get_page_content].
    [ANone] is Python's [None], [Unsupported] any other object of no
    supported type. *)
Inductive PageLike : Type :=
| APage (p : Page.t)
| AStr (s : string)
| AnEmbed (e : Embed)
| AFile (f : File)
| AList (l : list ListItem)
| ANone
| Unsupported.

#[global] Instance PageLike_eq_dec : EqDecision PageLike.
Proof. solve_decision. Defined.

(** Modelled from the spec: the class [PageGroup] of [pages.py], "name;
    pages: ordered sequence of Page-like content; default: boolean; optional
    menu label/description/emoji". *)
Module PageGroup.
Record t : Type := mk {
  pages : list PageLike;
  label : string;
  description : option string;
  emoji : option string;
  default : bool
}.

#[global] Instance eq_dec : EqDecision t.
Proof. solve_decision. Defined.
End PageGroup.

(** An element of the [pages] argument: a group or something page-like. *)
Inductive PagesItem : Type :=
| Group (pg : PageGroup.t)
| Single (page : PageLike).

#[global] Instance PagesItem_eq_dec : EqDecision PagesItem.
Proof. solve_decision. Defined.

(** [isinstance(pg, PageGroup)] *)
Definition is_PageGroup (x : PagesItem) : bool :=
  match x with
  | Group _ => true
  | Single _ => false
  end.

(** ** Buttons and the menu *)

(** Modelled from the spec: the class [PaginatorButton] of [buttons.py],
    "button_type; label / loop_label: optional strings; style; row; hidden;
    disabled; emoji".  [_label] is the label the button was created with,
    which [update_buttons] restores. *)
Module PaginatorButton.
Record t : Type := mk {
  button_type : PaginatorButtonType.t;
  label : option string;
  _label : option string;
  loop_label : option string;
  emoji : option string;
  style : ButtonStyle.t;
  disabled : bool;
  hidden : bool;
  row : Z
}.

(** [PaginatorButton(button_type, label=.., emoji=.., style=.., disabled=..,
    row=.., loop_label=..)]: a new button is not hidden. *)
Definition new (button_type : PaginatorButtonType.t) (label : option string)
    (emoji : option string) (style : ButtonStyle.t) (disabled : bool) (row : Z)
    (loop_label : option string) : t :=
  {| button_type := button_type; label := label; _label := label;
     loop_label := loop_label; emoji := emoji; style := style;
     disabled := disabled; hidden := false; row := row |}.

Definition set_label (v : option string) (b : t) : t :=
  {| button_type := button_type b; label := v; _label := _label b;
     loop_label := loop_label b; emoji := emoji b; style := style b;
     disabled := disabled b; hidden := hidden b; row := row b |}.

Definition set_hidden (v : bool) (b : t) : t :=
  {| button_type := button_type b; label := label b; _label := _label b;
     loop_label := loop_label b; emoji := emoji b; style := style b;
     disabled := disabled b; hidden := v; row := row b |}.

Definition set_disabled (v : bool) (b : t) : t :=
  {| button_type := button_type b; label := label b; _label := _label b;
     loop_label := loop_label b; emoji := emoji b; style := style b;
     disabled := v; hidden := hidden b; row := row b |}.

#[global] Instance inhabited : Inhabited t :=
  populate (new PaginatorButtonType.custom None None ButtonStyle.green false 0 None).
End PaginatorButton.

(** Modelled from the spec: the class [PaginatorMenu] of [buttons.py], "a
    selection control bound to page groups".  [page_groups] is whatever
    [self.page_groups] held when the menu was made. *)
Module PaginatorMenu.
Record t : Type := mk {
  page_groups : option (list PagesItem);
  placeholder : string
}.

#[global] Instance eq_dec : EqDecision t.
Proof. solve_decision. Defined.
End PaginatorMenu.

(** The items of the paginator's own view, [self.children]. *)
Inductive Item : Type :=
| ButtonItem (r : ref)
| MenuItem (m : PaginatorMenu.t)
| CustomItem (i : nat).

#[global] Instance Item_eq_dec : EqDecision Item.
Proof. solve_decision. Defined.

(** ** What the host sees

    The keyword arguments of a send or an edit, and the calls made on host
    objects, in order.  The host is taken to answer every call. *)
Record Payload : Type := mkPayload {
  payload_content : option string;
  payload_embeds : list Embed;
  payload_files : list File;
  payload_view : list Item
}.

Inductive HostCall : Type :=
| ResponseDefer (interaction : Interaction.t)
| FollowupEditMessage (interaction : Interaction.t) (message_id : Message)
    (kwargs : Payload)
| MessageEdit (message : Message) (kwargs : Payload)
| DestinationSend (destination : nat) (kwargs : Payload)
| InteractionRespond (interaction : Interaction.t) (kwargs : Payload)
    (ephemeral : bool)
| OriginalResponse
| PageCallback (callback : Callback) (interaction : option Interaction.t).

(** What [interaction.respond] hands back. *)
Inductive RespondResult : Type :=
| RespondedMessage (msg : Message)
| RespondedInteraction (original_response : Message).

(** ** Arguments of the constructor and of [update]

    A record per signature, with the defaults of the signature. *)
Module InitArgs.
Record t : Type := mk {
  pages : list PagesItem;
  show_disabled : bool;
  show_indicator : bool;
  show_menu : bool;
  menu_placeholder : string;
  author_check : bool;
  disable_on_timeout : bool;
  use_default_buttons : bool;
  default_button_row : Z;
  loop_pages : bool;
  custom_view : option View.t;
  timeout : option float;
  custom_buttons : option (list ref);
  trigger_on_display : option bool;
  users : option (gset User)
}.

(** [Paginator(pages)] *)
Definition defaults (pages : list PagesItem) : t :=
  {| pages := pages; show_disabled := true; show_indicator := true;
     show_menu := false; menu_placeholder := "Select Page Group";
     author_check := false; disable_on_timeout := true;
     use_default_buttons := true; default_button_row := 0;
     loop_pages := false; custom_view := None; timeout := Some 180%float;
     custom_buttons := None; trigger_on_display := None; users := None |}.
End InitArgs.

Module UpdateArgs.
Record t : Type := mk {
  pages : option (list PagesItem);
  show_disabled : option bool;
  show_indicator : option bool;
  show_menu : option bool;
  author_check : option bool;
  menu_placeholder : option string;
  disable_on_timeout : option bool;
  use_default_buttons : option bool;
  default_button_row : option Z;
  loop_pages : option bool;
  custom_view : supplied (option View.t);
  timeout : supplied (option float);
  custom_buttons : supplied (option (list ref));
  trigger_on_display : option bool;
  interaction : option Interaction.t;
  current_page : Z;
  users : supplied (option (gset User))
}.

(** [paginator.update()] *)
Definition defaults : t :=
  {| pages := None; show_disabled := None; show_indicator := None;
     show_menu := None; author_check := None; menu_placeholder := None;
     disable_on_timeout := None; use_default_buttons := None;
     default_button_row := None; loop_pages := None; custom_view := MISSING;
     timeout := MISSING; custom_buttons := MISSING;
     trigger_on_display := None; interaction := None; current_page := 0;
     users := MISSING |}.
End UpdateArgs.

(** ** The paginator object

    One field per attribute that [__init__] assigns, in its order, after
    [children], which the base class [discord.ui.View] owns.  [custom_view]
    can hold the sentinel [discord.MISSING], because [update] can store it. *)
Module Paginator.
Record t : Type := mk {
  children : list Item;
  timeout : option float;
  pages : list PagesItem;
  current_page : Z;
  menu : option PaginatorMenu.t;
  show_menu : bool;
  menu_placeholder : string;
  page_groups : option (list PagesItem);
  default_page_group : nat;
  page_count : Z;
  buttons : dict PaginatorButtonType.t ref;
  custom_buttons : option (list ref);
  show_disabled : bool;
  show_indicator : bool;
  disable_on_timeout : bool;
  use_default_buttons : bool;
  default_button_row : Z;
  loop_pages : bool;
  custom_view : supplied (option View.t);
  trigger_on_display : option bool;
  message : option Message;
  usercheck : bool;
  users : option (gset User)
}.

Definition set_children (v : list Item) (self : t) : t :=
  mk v (timeout self) (pages self) (current_page self) (menu self)
    (show_menu self) (menu_placeholder self) (page_groups self)
    (default_page_group self) (page_count self) (buttons self)
    (custom_buttons self) (show_disabled self) (show_indicator self)
    (disable_on_timeout self) (use_default_buttons self)
    (default_button_row self) (loop_pages self) (custom_view self)
    (trigger_on_display self) (message self) (usercheck self) (users self).

Definition set_timeout (v : option float) (self : t) : t :=
  mk (children self) v (pages self) (current_page self) (menu self)
    (show_menu self) (menu_placeholder self) (page_groups self)
    (default_page_group self) (page_count self) (buttons self)
    (custom_buttons self) (show_disabled self) (show_indicator self)
    (disable_on_timeout self) (use_default_buttons self)
    (default_button_row self) (loop_pages self) (custom_view self)
    (trigger_on_display self) (message self) (usercheck self) (users self).

Definition set_pages (v : list PagesItem) (self : t) : t :=
  mk (children self) (timeout self) v (current_page self) (menu self)
    (show_menu self) (menu_placeholder self) (page_groups self)
    (default_page_group self) (page_count self) (buttons self)
    (custom_buttons self) (show_disabled self) (show_indicator self)
    (disable_on_timeout self) (use_default_buttons self)
    (default_button_row self) (loop_pages self) (custom_view self)
    (trigger_on_display self) (message self) (usercheck self) (users self).

Definition set_current_page (v : Z) (self : t) : t :=
  mk (children self) (timeout self) (pages self) v (menu self)
    (show_menu self) (menu_placeholder self) (page_groups self)
    (default_page_group self) (page_count self) (buttons self)
    (custom_buttons self) (show_disabled self) (show_indicator self)
    (disable_on_timeout self) (use_default_buttons self)
    (default_button_row self) (loop_pages self) (custom_view self)
    (trigger_on_display self) (message self) (usercheck self) (users self).

Definition set_menu (v : option PaginatorMenu.t) (self : t) : t :=
  mk (children self) (timeout self) (pages self) (current_page self) v
    (show_menu self) (menu_placeholder self) (page_groups self)
    (default_page_group self) (page_count self) (buttons self)
    (custom_buttons self) (show_disabled self) (show_indicator self)
    (disable_on_timeout self) (use_default_buttons self)
    (default_button_row self) (loop_pages self) (custom_view self)
    (trigger_on_display self) (message self) (usercheck self) (users self).

Definition set_show_menu (v : bool) (self : t) : t :=
  mk (children self) (timeout self) (pages self) (current_page self)
    (menu self) v (menu_placeholder self) (page_groups self)
    (default_page_group self) (page_count self) (buttons self)
    (custom_buttons self) (show_disabled self) (show_indicator self)
    (disable_on_timeout self) (use_default_buttons self)
    (default_button_row self) (loop_pages self) (custom_view self)
    (trigger_on_display self) (message self) (usercheck self) (users self).

Definition set_menu_placeholder (v : string) (self : t) : t :=
  mk (children self) (timeout self) (pages self) (current_page self)
    (menu self) (show_menu self) v (page_groups self)
    (default_page_group self) (page_count self) (buttons self)
    (custom_buttons self) (show_disabled self) (show_indicator self)
    (disable_on_timeout self) (use_default_buttons self)
    (default_button_row self) (loop_pages self) (custom_view self)
    (trigger_on_display self) (message self) (usercheck self) (users self).

Definition set_page_groups (v : option (list PagesItem)) (self : t) : t :=
  mk (children self) (timeout self) (pages self) (current_page self)
    (menu self) (show_menu self) (menu_placeholder self) v
    (default_page_group self) (page_count self) (buttons self)
    (custom_buttons self) (show_disabled self) (show_indicator self)
    (disable_on_timeout self) (use_default_buttons self)
    (default_button_row self) (loop_pages self) (custom_view self)
    (trigger_on_display self) (message self) (usercheck self) (users self).

Definition set_default_page_group (v : nat) (self : t) : t :=
  mk (children self) (timeout self) (pages self) (current_page self)
    (menu self) (show_menu self) (menu_placeholder self) (page_groups self) v
    (page_count self) (buttons self) (custom_buttons self)
    (show_disabled self) (show_indicator self) (disable_on_timeout self)
    (use_default_buttons self) (default_button_row self) (loop_pages self)
    (custom_view self) (trigger_on_display self) (message self)
    (usercheck self) (users self).

Definition set_page_count (v : Z) (self : t) : t :=
  mk (children self) (timeout self) (pages self) (current_page self)
    (menu self) (show_menu self) (menu_placeholder self) (page_groups self)
    (default_page_group self) v (buttons self) (custom_buttons self)
    (show_disabled self) (show_indicator self) (disable_on_timeout self)
    (use_default_buttons self) (default_button_row self) (loop_pages self)
    (custom_view self) (trigger_on_display self) (message self)
    (usercheck self) (users self).

Definition set_buttons (v : dict PaginatorButtonType.t ref) (self : t) : t :=
  mk (children self) (timeout self) (pages self) (current_page self)
    (menu self) (show_menu self) (menu_placeholder self) (page_groups self)
    (default_page_group self) (page_count self) v (custom_buttons self)
    (show_disabled self) (show_indicator self) (disable_on_timeout self)
    (use_default_buttons self) (default_button_row self) (loop_pages self)
    (custom_view self) (trigger_on_display self) (message self)
    (usercheck self) (users self).

Definition set_custom_buttons (v : option (list ref)) (self : t) : t :=
  mk (children self) (timeout self) (pages self) (current_page self)
    (menu self) (show_menu self) (menu_placeholder self) (page_groups self)
    (default_page_group self) (page_count self) (buttons self) v
    (show_disabled self) (show_indicator self) (disable_on_timeout self)
    (use_default_buttons self) (default_button_row self) (loop_pages self)
    (custom_view self) (trigger_on_display self) (message self)
    (usercheck self) (users self).

Definition set_show_disabled (v : bool) (self : t) : t :=
  mk (children self) (timeout self) (pages self) (current_page self)
    (menu self) (show_menu self) (menu_placeholder self) (page_groups self)
    (default_page_group self) (page_count self) (buttons self)
    (custom_buttons self) v (show_indicator self) (disable_on_timeout self)
    (use_default_buttons self) (default_button_row self) (loop_pages self)
    (custom_view self) (trigger_on_display self) (message self)
    (usercheck self) (users self).

Definition set_show_indicator (v : bool) (self : t) : t :=
  mk (children self) (timeout self) (pages self) (current_page self)
    (menu self) (show_menu self) (menu_placeholder self) (page_groups self)
    (default_page_group self) (page_count self) (buttons self)
    (custom_buttons self) (show_disabled self) v (disable_on_timeout self)
    (use_default_buttons self) (default_button_row self) (loop_pages self)
    (custom_view self) (trigger_on_display self) (message self)
    (usercheck self) (users self).

Definition set_disable_on_timeout (v : bool) (self : t) : t :=
  mk (children self) (timeout self) (pages self) (current_page self)
    (menu self) (show_menu self) (menu_placeholder self) (page_groups self)
    (default_page_group self) (page_count self) (buttons self)
    (custom_buttons self) (show_disabled self) (show_indicator self) v
    (use_default_buttons self) (default_button_row self) (loop_pages self)
    (custom_view self) (trigger_on_display self) (message self)
    (usercheck self) (users self).

Definition set_use_default_buttons (v : bool) (self : t) : t :=
  mk (children self) (timeout self) (pages self) (current_page self)
    (menu self) (show_menu self) (menu_placeholder self) (page_groups self)
    (default_page_group self) (page_count self) (buttons self)
    (custom_buttons self) (show_disabled self) (show_indicator self)
    (disable_on_timeout self) v (default_button_row self) (loop_pages self)
    (custom_view self) (trigger_on_display self) (message self)
    (usercheck self) (users self).

Definition set_default_button_row (v : Z) (self : t) : t :=
  mk (children self) (timeout self) (pages self) (current_page self)
    (menu self) (show_menu self) (menu_placeholder self) (page_groups self)
    (default_page_group self) (page_count self) (buttons self)
    (custom_buttons self) (show_disabled self) (show_indicator self)
    (disable_on_timeout self) (use_default_buttons self) v (loop_pages self)
    (custom_view self) (trigger_on_display self) (message self)
    (usercheck self) (users self).

Definition set_loop_pages (v : bool) (self : t) : t :=
  mk (children self) (timeout self) (pages self) (current_page self)
    (menu self) (show_menu self) (menu_placeholder self) (page_groups self)
    (default_page_group self) (page_count self) (buttons self)
    (custom_buttons self) (show_disabled self) (show_indicator self)
    (disable_on_timeout self) (use_default_buttons self)
    (default_button_row self) v (custom_view self) (trigger_on_display self)
    (message self) (usercheck self) (users self).

Definition set_custom_view (v : supplied (option View.t)) (self : t) : t :=
  mk (children self) (timeout self) (pages self) (current_page self)
    (menu self) (show_menu self) (menu_placeholder self) (page_groups self)
    (default_page_group self) (page_count self) (buttons self)
    (custom_buttons self) (show_disabled self) (show_indicator self)
    (disable_on_timeout self) (use_default_buttons self)
    (default_button_row self) (loop_pages self) v (trigger_on_display self)
    (message self) (usercheck self) (users self).

Definition set_trigger_on_display (v : option bool) (self : t) : t :=
  mk (children self) (timeout self) (pages self) (current_page self)
    (menu self) (show_menu self) (menu_placeholder self) (page_groups self)
    (default_page_group self) (page_count self) (buttons self)
    (custom_buttons self) (show_disabled self) (show_indicator self)
    (disable_on_timeout self) (use_default_buttons self)
    (default_button_row self) (loop_pages self) (custom_view self) v
    (message self) (usercheck self) (users self).

Definition set_message (v : option Message) (self : t) : t :=
  mk (children self) (timeout self) (pages self) (current_page self)
    (menu self) (show_menu self) (menu_placeholder self) (page_groups self)
    (default_page_group self) (page_count self) (buttons self)
    (custom_buttons self) (show_disabled self) (show_indicator self)
    (disable_on_timeout self) (use_default_buttons self)
    (default_button_row self) (loop_pages self) (custom_view self)
    (trigger_on_display self) v (usercheck self) (users self).

Definition set_usercheck (v : bool) (self : t) : t :=
  mk (children self) (timeout self) (pages self) (current_page self)
    (menu self) (show_menu self) (menu_placeholder self) (page_groups self)
    (default_page_group self) (page_count self) (buttons self)
    (custom_buttons self) (show_disabled self) (show_indicator self)
    (disable_on_timeout self) (use_default_buttons self)
    (default_button_row self) (loop_pages self) (custom_view self)
    (trigger_on_display self) (message self) v (users self).

Definition set_users (v : option (gset User)) (self : t) : t :=
  mk (children self) (timeout self) (pages self) (current_page self)
    (menu self) (show_menu self) (menu_placeholder self) (page_groups self)
    (default_page_group self) (page_count self) (buttons self)
    (custom_buttons self) (show_disabled self) (show_indicator self)
    (disable_on_timeout self) (use_default_buttons self)
    (default_button_row self) (loop_pages self) (custom_view self)
    (trigger_on_display self) (message self) (usercheck self) v.

(** *** State and exceptions

    The store holds the button objects; [obj] is the paginator; [log] is the
    trace of host calls. *)
Record World : Type := mkWorld {
  store : list PaginatorButton.t;
  obj : t;
  log : list HostCall
}.

Definition M (A : Type) : Type := World -> World * result A.

Definition ret {A} (a : A) : M A := fun w => (w, Ok a).

Definition raise {A} (e : exn) : M A := fun w => (w, Raise e).

Definition bind {A B} (m : M A) (f : A -> M B) : M B :=
  fun w =>
    match m w with
    | (w', Ok a) => f a w'
    | (w', Raise e) => (w', Raise e)
    end.

Definition lift {A} (r : result A) : M A := fun w => (w, r).

Declare Scope paginator_scope.
Delimit Scope paginator_scope with M.
Notation "'let*' x := m 'in' k" := (bind m (fun x => k))
  (at level 10, x pattern, m at level 100, k at level 200) : paginator_scope.
Notation "m ;; k" := (bind m (fun _ => k))
  (at level 100, k at level 200, right associativity) : paginator_scope.
Open Scope paginator_scope.

(** [self], read. *)
Definition get_self : M t := fun w => (w, Ok (obj w)).

(** [self.attr = v], through one of the setters. *)
Definition assign (f : t -> t) : M unit :=
  fun w => (mkWorld (store w) (f (obj w)) (log w), Ok tt).

(** A button object, read through its reference. *)
Definition get_button (r : ref) : M PaginatorButton.t :=
  fun w => (w, Ok (store w !!! r)).

(** [button.attr = v] on the shared object. *)
Definition set_button (r : ref) (f : PaginatorButton.t -> PaginatorButton.t) :
    M unit :=
  fun w => (mkWorld (alter f r (store w)) (obj w) (log w), Ok tt).

(** A new button object. *)
Definition new_button (b : PaginatorButton.t) : M ref :=
  fun w => (mkWorld (store w ++ [b]) (obj w) (log w), Ok (length (store w))).

(** [await] a call on a host object. *)
Definition host_call (c : HostCall) : M unit :=
  fun w => (mkWorld (store w) (obj w) (log w ++ [c]), Ok tt).

(** [for x in l: body(x)] *)
Fixpoint for_each {A} (l : list A) (body : A -> M unit) : M unit :=
  match l with
  | [] => ret tt
  | x :: l' => body x ;; for_each l' body
  end.

(** [if c: body] *)
Definition when (c : bool) (body : M unit) : M unit :=
  if c then body else ret tt.

(** *** Truth values *)

(** [bool(x)] of an optional flag: [None] is false. *)
Definition truthy (b : option bool) : bool := default false b.

(** [bool(x)] of an optional list: [None] and [[]] are false. *)
Definition nonempty {A} (l : option (list A)) : bool :=
  match l with
  | Some (_ :: _) => true
  | _ => false
  end.

(** [bool(self.custom_view)]: a view is true; [None] and [discord.MISSING]
    are false. *)
Definition the_view (v : supplied (option View.t)) : option View.t :=
  match v with
  | Supplied (Some view) => Some view
  | _ => None
  end.

(** *** Methods of the base class [discord.ui.View]

    The limits the host puts on the number and placement of items are not
    modelled. *)
Definition add_item (item : Item) : M unit :=
  assign (fun self => set_children (children self ++ [item]) self).

Definition remove_item (item : Item) : M unit :=
  assign (fun self => set_children (remove_first item (children self)) self).

Definition clear_items : M unit := assign (set_children []).

(** *** Page content *)

Definition is_Embed (x : ListItem) : bool :=
  match x with
  | EmbedItem _ => true
  | _ => false
  end.

Definition is_File (x : ListItem) : bool :=
  match x with
  | FileItem _ => true
  | _ => false
  end.

Definition the_embeds (l : list ListItem) : list Embed :=
  omap (fun x => match x with EmbedItem e => Some e | _ => None end) l.

Definition the_files (l : list ListItem) : list File :=
  omap (fun x => match x with FileItem f => Some f | _ => None end) l.

(** [Paginator.get_page_content(page)].  A [PageGroup] reaches the last
    [else], like every other unsupported type. *)
Definition get_page_content (page : PagesItem) : result Page.t :=
  match page with
  | Single (APage p) => Ok p
  | Single (AStr s) => Ok (Page.new (Some s) [] [])
  | Single (AnEmbed e) => Ok (Page.new None [e] [])
  | Single (AFile f) => Ok (Page.new None [] [f])
  | Single (AList l) =>
      if forallb is_Embed l then Ok (Page.new None (the_embeds l) [])
      else if forallb is_File l then Ok (Page.new None [] (the_files l))
      else Raise ContentTypeError
  | Single ANone | Single Unsupported | Group _ =>
      Raise UnsupportedContentError
  end.

(** [[f(x) for x in l]], stopping at the first exception. *)
Fixpoint map_result {A B} (f : A -> result B) (l : list A) : result (list B) :=
  match l with
  | [] => Ok []
  | x :: l' =>
      try y := f x in
      try ys := map_result f l' in
      Ok (y :: ys)
  end.

(** [self.get_page_group_content(page_group)] *)
Definition get_page_group_content (page_group : PagesItem) :
    result (list Page.t) :=
  match page_group with
  | Group pg => map_result (fun page => get_page_content (Single page))
                  (PageGroup.pages pg)
  | Single _ => Raise (AttributeError "object has no attribute 'pages'")
  end.

(** The loop that opens [__init__] and [update]: are all elements page
    groups, and which one is flagged default.  It stops at the first element
    that is not a group, and raises on a second default. *)
Fixpoint scan_page_groups (pages : list PagesItem)
    (default_group : option PageGroup.t) :
    result (bool * option PageGroup.t) :=
  match pages with
  | [] => Ok (true, default_group)
  | Single _ :: _ => Ok (false, default_group)
  | Group pg :: rest =>
      if PageGroup.default pg then
        match default_group with
        | Some _ => Raise ConfigurationError
        | None => scan_page_groups rest (Some pg)
        end
      else scan_page_groups rest default_group
  end.

(** [x == default_group], for [self.page_groups.index(default_group)].
    When no group is flagged, [default_group] is [None], and the only
    element that equals it is a [None] in the list.  Python compares the
    group objects by identity and the model compares their values; the scan
    has made sure that [default_group] is the only element flagged default,
    so both find it at the same index. *)
Definition is_default_group (default_group : option PageGroup.t)
    (x : PagesItem) : bool :=
  match default_group with
  | Some pg => bool_decide (x = Group pg)
  | None => bool_decide (x = Single ANone)
  end.

(** [max(len(self.pages) - 1, 0)] *)
Definition count_pages (pages : list PagesItem) : Z :=
  Z.max (Z.of_nat (length pages) - 1) 0.

(** The text of the page indicator,
    [f"{self.current_page + 1}/{self.page_count + 1}"]. *)
Definition indicator_label (current_page page_count : Z) : string :=
  pretty (current_page + 1) +:+ "/" +:+ pretty (page_count + 1).

(** *** Buttons *)

(** [self.add_button(button)] *)
Definition add_button (button : ref) : M unit :=
  let* b := get_button button in
  (if decide (PaginatorButton.button_type b = PaginatorButtonType.page_indicator)
   then
     let* self := get_self in
     set_button button (PaginatorButton.set_hidden (show_indicator self)) ;;
     match PaginatorButton.label b, PaginatorButton.emoji b with
     | None, None =>
         set_button button
           (PaginatorButton.set_label
              (Some (indicator_label (current_page self) (page_count self))))
     | _, _ => ret tt
     end
   else ret tt) ;;
  assign (fun self =>
    set_buttons (dict_set (PaginatorButton.button_type b) button (buttons self))
      self).

(** [self.add_default_buttons()]: the five objects are made first, then
    added in order. *)
Definition add_default_buttons : M unit :=
  let* self := get_self in
  let row := default_button_row self in
  let* b_first := new_button
    (PaginatorButton.new PaginatorButtonType.first (Some "<<") None
       ButtonStyle.blurple false row None) in
  let* b_prev := new_button
    (PaginatorButton.new PaginatorButtonType.prev (Some "<") None
       ButtonStyle.red false row (Some "↪")) in
  let* b_indicator := new_button
    (PaginatorButton.new PaginatorButtonType.page_indicator None None
       ButtonStyle.gray true row None) in
  let* b_next := new_button
    (PaginatorButton.new PaginatorButtonType.next (Some ">") None
       ButtonStyle.green false row (Some "↩")) in
  let* b_last := new_button
    (PaginatorButton.new PaginatorButtonType.last (Some ">>") None
       ButtonStyle.blurple false row None) in
  for_each [b_first; b_prev; b_indicator; b_next; b_last] add_button.

(** [self.remove_button(button_type)] *)
Definition remove_button (button_type : PaginatorButtonType.t) : M ref :=
  let* self := get_self in
  match dict_get button_type (buttons self) with
  | None => raise (LookupError button_type)
  | Some button =>
      assign (set_buttons (dict_del button_type (buttons self))) ;;
      ret button
  end.

(** [self.add_menu()] *)
Definition add_menu : M unit :=
  let* self := get_self in
  let new_menu := PaginatorMenu.mk (page_groups self) (menu_placeholder self) in
  assign (set_menu (Some new_menu)) ;;
  add_item (MenuItem new_menu).

(** [self.update_custom_view(custom_view)] *)
Definition update_custom_view (view : View.t) : M unit :=
  let* self := get_self in
  match custom_view self with
  | Supplied (Some old) =>
      for_each (View.children old) (fun item => remove_item (CustomItem item))
  | _ => ret tt
  end ;;
  for_each (View.children view) (fun item => add_item (CustomItem item)).

(** [self.buttons[key]] *)
Definition the_button (key : PaginatorButtonType.t) : M ref :=
  let* self := get_self in
  match dict_get key (buttons self) with
  | Some button => ret button
  | None => raise (KeyError key)
  end.

(** [button.label = button._label] *)
Definition reset_label (button : ref) : M unit :=
  let* b := get_button button in
  set_button button (PaginatorButton.set_label (PaginatorButton._label b)).

(** [button.label = button.loop_label] *)
Definition use_loop_label (button : ref) : M unit :=
  let* b := get_button button in
  set_button button (PaginatorButton.set_label (PaginatorButton.loop_label b)).

(** The body of the loop over [self.buttons.items()] in [update_buttons]. *)
Definition render_button (entry : PaginatorButtonType.t * ref) : M unit :=
  let '(key, button) := entry in
  let* self := get_self in
  if decide (key <> PaginatorButtonType.page_indicator) then
    let* b := get_button button in
    if PaginatorButton.hidden b then
      set_button button (PaginatorButton.set_disabled true) ;;
      when (show_disabled self) (add_item (ButtonItem button))
    else
      set_button button (PaginatorButton.set_disabled false) ;;
      add_item (ButtonItem button)
  else when (show_indicator self) (add_item (ButtonItem button)).

(** [self.update_buttons()]; the dictionary it returns is [self.buttons]. *)
Definition update_buttons : M unit :=
  let* self := get_self in
  let* first_button := the_button PaginatorButtonType.first in
  set_button first_button
    (PaginatorButton.set_hidden (current_page self <=? 1)) ;;
  let* last_button := the_button PaginatorButtonType.last in
  set_button last_button
    (PaginatorButton.set_hidden (page_count self - 1 <=? current_page self)) ;;
  let* next_button := the_button PaginatorButtonType.next in
  (if current_page self =? page_count self then
     if negb (loop_pages self) then
       set_button next_button (PaginatorButton.set_hidden true) ;;
       reset_label next_button
     else use_loop_label next_button
   else if current_page self <? page_count self then
     set_button next_button (PaginatorButton.set_hidden false) ;;
     reset_label next_button
   else ret tt) ;;
  let* prev_button := the_button PaginatorButtonType.prev in
  (if current_page self <=? 0 then
     if negb (loop_pages self) then
       set_button prev_button (PaginatorButton.set_hidden true) ;;
       reset_label prev_button
     else use_loop_label prev_button
   else if 0 <=? current_page self then
     set_button prev_button (PaginatorButton.set_hidden false) ;;
     reset_label prev_button
   else ret tt) ;;
  clear_items ;;
  (if show_indicator self then
     let* indicator := the_button PaginatorButtonType.page_indicator in
     set_button indicator
       (PaginatorButton.set_label
          (Some (indicator_label (current_page self) (page_count self))))
   else ret tt) ;;
  for_each (buttons self) render_button ;;
  when (show_menu self) add_menu ;;
  match the_view (custom_view self) with
  | Some view => update_custom_view view
  | None => ret tt
  end.

(** *** Rendering *)

(** [self._prepare(update_files)]; the ["view"] of the result is the
    paginator itself, shown by its items. *)
Definition _prepare (update_files : bool) : M Payload :=
  update_buttons ;;
  let* self := get_self in
  let* page := lift (py_getitem (pages self) (current_page self)) in
  let* page_content := lift (get_page_content page) in
  match Page.custom_view page_content with
  | Some view => update_custom_view view
  | None => ret tt
  end ;;
  let files := if update_files then Page.update_files page_content
               else Page.files page_content in
  let* self := get_self in
  ret (mkPayload (Page.content page_content) (Page.embeds page_content)
         files (children self)).

(** The [Mapping] protocol: [__iter__] and [__getitem__] each call
    [_prepare]; [**self] iterates once and then reads the four keys. *)
Definition __iter__ : M unit := _prepare false ;; ret tt.

Definition __getitem__ {A} (key : Payload -> A) : M A :=
  let* kwargs := _prepare false in
  ret (key kwargs).

Definition unpack_self : M Payload :=
  __iter__ ;;
  let* content := __getitem__ payload_content in
  let* embeds := __getitem__ payload_embeds in
  let* files := __getitem__ payload_files in
  let* view := __getitem__ payload_view in
  ret (mkPayload content embeds files view).

(** [self.page_action(interaction)] *)
Definition page_action (interaction : option Interaction.t) : M unit :=
  let* self := get_self in
  let* page := lift (py_getitem (pages self) (current_page self)) in
  let* page_content := lift (get_page_content page) in
  match Page.callback page_content with
  | Some callback => host_call (PageCallback callback interaction)
  | None => ret tt
  end.

(** [self.goto_page(page_number, interaction=interaction)] *)
Definition goto_page (page_number : Z) (interaction : option Interaction.t) :
    M unit :=
  assign (set_current_page page_number) ;;
  _prepare true ;;
  match interaction with
  | Some i =>
      host_call (ResponseDefer i) ;;
      let* self := get_self in
      match message self with
      | None => raise NotReadyError
      | Some msg =>
          let* kwargs := unpack_self in
          host_call (FollowupEditMessage i msg kwargs)
      end
  | None =>
      let* self := get_self in
      match message self with
      | None => raise NotReadyError
      | Some msg =>
          let* kwargs := unpack_self in
          host_call (MessageEdit msg kwargs)
      end
  end ;;
  let* self := get_self in
  when (truthy (trigger_on_display self)) (page_action interaction).

(** [self.interaction_check(interaction)] *)
Definition interaction_check (interaction : Interaction.t) : M bool :=
  let* self := get_self in
  if usercheck self then
    match users self with
    | Some allowed => ret (bool_decide (Interaction.user interaction ∈ allowed))
    | None => raise NoneNotIterable
    end
  else ret true.

(** [self.send(destination)], where the host answers with [sent]. *)
Definition send (destination : nat) (sent : Message) : M Message :=
  let* page := _prepare false in
  host_call (DestinationSend destination page) ;;
  assign (set_message (Some sent)) ;;
  ret sent.

(** [self.timeout is None or self.timeout >= 900] *)
Definition too_long_for_ephemeral (timeout : option float) : bool :=
  match timeout with
  | None => true
  | Some seconds => PrimFloat.leb 900%float seconds
  end.

(** [respond] after its check of [ephemeral]. *)
Definition respond_unchecked (interaction : Interaction.t) (ephemeral : bool)
    (answer : RespondResult) : M (option Message) :=
  let* page := _prepare false in
  host_call (InteractionRespond interaction page ephemeral) ;;
  match answer with
  | RespondedMessage msg => assign (set_message (Some msg))
  | RespondedInteraction original =>
      host_call OriginalResponse ;;
      assign (set_message (Some original))
  end ;;
  let* self := get_self in
  ret (message self).

(** [self.respond(interaction, ephemeral)], where the host answers with
    [answer]. *)
Definition respond (interaction : Interaction.t) (ephemeral : bool)
    (answer : RespondResult) : M (option Message) :=
  let* self := get_self in
  if ephemeral && too_long_for_ephemeral (timeout self) then
    raise ValidationError
  else respond_unchecked interaction ephemeral answer.


(** *** Construction and reconfiguration *)

(** The pages a page group yields, as stored in [self.pages]. *)
Definition as_pages (content : list Page.t) : list PagesItem :=
  map (fun p => Single (APage p)) content.

(** [Paginator(...)], given the button objects that exist already (those of
    [custom_buttons]).  An exception leaves no paginator behind.  The
    attributes that are plain copies of arguments are set at once; the
    buttons and the menu are then added to that object as [__init__] does. *)
Definition __init__ (a : InitArgs.t) (objects : list PaginatorButton.t) :
    result World :=
  try (all_groups, default_group) :=
    scan_page_groups (InitArgs.pages a) None in
  try (the_groups, the_default, the_pages) :=
    (if all_groups : bool then
       let page_groups := if InitArgs.show_menu a then InitArgs.pages a else [] in
       try i := py_index (is_default_group default_group) page_groups in
       try page_group := py_getitem page_groups (Z.of_nat i) in
       try content := get_page_group_content page_group in
       Ok (Some page_groups, i, as_pages content)
     else Ok (None, 0%nat, InitArgs.pages a)) in
  let self :=
    {| children := [];
       timeout := InitArgs.timeout a;
       pages := the_pages;
       current_page := 0;
       menu := None;
       show_menu := InitArgs.show_menu a;
       menu_placeholder := InitArgs.menu_placeholder a;
       page_groups := the_groups;
       default_page_group := the_default;
       page_count := count_pages the_pages;
       buttons := [];
       custom_buttons := InitArgs.custom_buttons a;
       show_disabled := InitArgs.show_disabled a;
       show_indicator := InitArgs.show_indicator a;
       disable_on_timeout := InitArgs.disable_on_timeout a;
       use_default_buttons := InitArgs.use_default_buttons a;
       default_button_row := InitArgs.default_button_row a;
       loop_pages := InitArgs.loop_pages a;
       custom_view := Supplied (InitArgs.custom_view a);
       trigger_on_display := InitArgs.trigger_on_display a;
       message := None;
       usercheck := InitArgs.author_check a;
       users := InitArgs.users a |} in
  let install : M unit :=
    (match InitArgs.custom_buttons a with
     | Some custom =>
         if negb (InitArgs.use_default_buttons a) then
           for_each custom add_button
         else if negb (nonempty (Some custom)) then add_default_buttons
         else ret tt
     | None =>
         if InitArgs.use_default_buttons a then add_default_buttons
         else ret tt
     end) ;;
    when (InitArgs.show_menu a) add_menu in
  match install (mkWorld objects self []) with
  | (w, Ok _) => Ok w
  | (_, Raise e) => Raise e
  end.

(** [if v is not None: self.attr = v] *)
Definition assign_given {A} (v : option A) (set : A -> t -> t) : M unit :=
  match v with
  | Some x => assign (set x)
  | None => ret tt
  end.

(** [if v is not discord.MISSING: self.attr = v] *)
Definition assign_supplied {A} (v : supplied A) (set : A -> t -> t) : M unit :=
  match v with
  | Supplied x => assign (set x)
  | MISSING => ret tt
  end.

(** [self.update(...)] *)
Definition update (a : UpdateArgs.t) : M unit :=
  (* self.pages = pages or self.pages *)
  assign (fun self =>
    set_pages (if nonempty (UpdateArgs.pages a)
               then default [] (UpdateArgs.pages a) else pages self) self) ;;
  assign (fun self =>
    set_show_menu (default (show_menu self) (UpdateArgs.show_menu a)) self) ;;
  match UpdateArgs.pages a with
  | Some new_pages =>
      let* (all_groups, default_group) :=
        lift (scan_page_groups new_pages None) in
      if all_groups : bool then
        let* self := get_self in
        let the_groups :=
          if truthy (UpdateArgs.show_menu a) then pages self else [] in
        assign (set_page_groups (Some the_groups)) ;;
        let* i := lift (py_index (is_default_group default_group) the_groups) in
        assign (set_default_page_group i) ;;
        let* page_group := lift (py_getitem the_groups (Z.of_nat i)) in
        let* content := lift (get_page_group_content page_group) in
        assign (set_pages (as_pages content))
      else ret tt
  | None => ret tt
  end ;;
  assign (fun self => set_page_count (count_pages (pages self)) self) ;;
  assign (fun self =>
    set_current_page (if UpdateArgs.current_page a <=? page_count self
                      then UpdateArgs.current_page a else 0) self) ;;
  (* Apply config changes, if specified *)
  assign_given (UpdateArgs.show_disabled a) set_show_disabled ;;
  assign_given (UpdateArgs.show_indicator a) set_show_indicator ;;
  assign_given (UpdateArgs.author_check a) set_usercheck ;;
  assign_given (UpdateArgs.menu_placeholder a) set_menu_placeholder ;;
  assign_given (UpdateArgs.disable_on_timeout a) set_disable_on_timeout ;;
  assign_given (UpdateArgs.use_default_buttons a) set_use_default_buttons ;;
  assign_given (UpdateArgs.default_button_row a) set_default_button_row ;;
  assign_given (UpdateArgs.loop_pages a) set_loop_pages ;;
  (* if custom_view is not None: the sentinel is not None either *)
  match UpdateArgs.custom_view a with
  | Supplied None => ret tt
  | given => assign (set_custom_view given)
  end ;;
  assign_supplied (UpdateArgs.timeout a) set_timeout ;;
  assign_given (UpdateArgs.trigger_on_display a)
    (fun v => set_trigger_on_display (Some v)) ;;
  assign_supplied (UpdateArgs.users a) set_users ;;
  assign_supplied (UpdateArgs.custom_buttons a) set_custom_buttons ;;
  let* self := get_self in
  (if use_default_buttons self then
     assign (set_buttons []) ;;
     add_default_buttons
   else
     match custom_buttons self with
     | Some custom =>
         assign (set_buttons []) ;;
         for_each custom add_button
     | None => ret tt
     end) ;;
  let* self := get_self in
  goto_page (current_page self) (UpdateArgs.interaction a).

End Paginator.

(** ** Sample inputs *)

Module Sample.
Import Paginator.

Definition three_pages : list PagesItem :=
  [Single (AStr "one"); Single (AStr "two"); Single (AStr "three")].

Definition five_pages : list PagesItem :=
  [Single (AStr "1"); Single (AStr "2"); Single (AStr "3");
   Single (AStr "4"); Single (AStr "5")].

(** [PageGroup(pages=[..], label=.., default=..)] *)
Definition group (label : string) (pages : list string) (default : bool) :
    PagesItem :=
  Group (PageGroup.mk (map AStr pages) label None None default).

Definition alice : Interaction.t := Interaction.mk 1%nat 10%nat.

Definition channel : nat := 7%nat.
Definition first_message : Message := 42%nat.

(** [Paginator(pages, timeout=.., author_check=.., loop_pages=..)] *)
Definition args (pages : list PagesItem) (timeout : option float)
    (author_check loop_pages : bool) : InitArgs.t :=
  InitArgs.mk pages true true false "Select Page Group" author_check true
    true 0 loop_pages None timeout None None None.

(** The state a run ends in, and the paginator a construction returns (for
    a construction that raises there is none: the store alone is left). *)
Definition after {A} (m : M A) (w : World) : World := (m w).1.

Definition constructed (a : InitArgs.t) : World :=
  match __init__ a [] with
  | Ok w => w
  | Raise _ =>
      mkWorld []
        (mk [] None [] 0 None false "" None 0 0 [] None false false false
           false 0 false MISSING None None false None) []
  end.

(** Three pages, default buttons, not sent yet. *)
Definition fresh : World :=
  Eval vm_compute in constructed (InitArgs.defaults three_pages).

(** The same paginator once sent to a channel. *)
Definition sent : World :=
  Eval vm_compute in after (send channel first_message) fresh.

(** Paginators with a timeout of 600 seconds, of 900 seconds and without
    one. *)
Definition timeout_600 : World :=
  Eval vm_compute in constructed (args three_pages (Some 600%float) false false).

Definition timeout_900 : World :=
  Eval vm_compute in constructed (args three_pages (Some 900%float) false false).

Definition timeout_None : World :=
  Eval vm_compute in constructed (args three_pages None false false).

(** A paginator with the author check on and no users given. *)
Definition checked : World :=
  Eval vm_compute in
    constructed (args three_pages (Some 180%float) true false).

(** [paginator.update(current_page=n)] *)
Definition show_page (n : Z) : UpdateArgs.t :=
  UpdateArgs.mk None None None None None None None None None None MISSING
    MISSING MISSING None None n MISSING.

(** [paginator.update(pages=new_pages)] *)
Definition new_pages (new_pages : list PagesItem) : UpdateArgs.t :=
  UpdateArgs.mk (Some new_pages) None None None None None None None None None
    MISSING MISSING MISSING None None 0 MISSING.

(** [paginator.update(custom_view=None)] *)
Definition clear_view : UpdateArgs.t :=
  UpdateArgs.mk None None None None None None None None None None
    (Supplied None) MISSING MISSING None None 0 MISSING.

(** [paginator.update(loop_pages=True, use_default_buttons=False,
    current_page=n)] *)
Definition loop_at (n : Z) : UpdateArgs.t :=
  UpdateArgs.mk None None None None None None None (Some false) None
    (Some true) MISSING MISSING MISSING None None n MISSING.

(** A sent paginator with a custom view of two items. *)
Definition view : View.t := View.mk [100%nat; 101%nat].

Definition with_view : World :=
  Eval vm_compute in
    after (send channel first_message)
      (constructed
         (InitArgs.mk three_pages true true false "Select Page Group" false
            true true 0 false (Some view) (Some 180%float) None None None)).

(** Five pages, default buttons, no looping: as constructed, as sent, and
    moved to the last page. *)
Definition five : World :=
  Eval vm_compute in constructed (InitArgs.defaults five_pages).

Definition five_sent : World :=
  Eval vm_compute in after (send channel first_message) five.

Definition five_last : World :=
  Eval vm_compute in after (goto_page 4 None) five_sent.

(** Looping switched on while on the last page, and while on the first. *)
Definition five_looped : World :=
  Eval vm_compute in after (update (loop_at 4)) five_last.

Definition five_looped_first : World :=
  Eval vm_compute in after (update (loop_at 0)) five_sent.
End Sample.

(** ** Closing the paginator: [cancel], [disable] and [on_timeout]

    These methods write to attributes of host objects that the methods
    above never read — the [disabled] flag of the menu and of the items of
    a custom view, the stopped state of the view — and they edit the message
    with keyword arguments of their own.  A session is the world of the
    paginator together with these. *)
Module Closing.
Import Paginator.

(** The edits of the stored message that the three methods make:
    [edit(content=.., embeds=.., view=self)], [edit(view=self)] and
    [edit(view=self, files=.., attachments=[])].  The view is shown by its
    items. *)
Inductive Edit : Type :=
| EditPage (msg : Message) (content : option string) (embeds : list Embed)
    (view : list Item)
| EditView (msg : Message) (view : list Item)
| EditFiles (msg : Message) (view : list Item) (files : list File).

(** How the host answers the edit that [on_timeout] makes: it edits the
    message, or raises [discord.NotFound], [discord.Forbidden] or something
    else. *)
Inductive Outcome : Type :=
| Edited
| NotFound
| Forbidden
| Failed (e : exn).

(** [disabled_items]: the menus and custom items whose [disabled] is [True]
    (a button has the flag in its object); [edits]: the edits made, in
    order; [stopped]: whether [View.stop()] was called. *)
Record Session : Type := mkSession {
  world : World;
  disabled_items : list Item;
  edits : list Edit;
  stopped : bool
}.

Definition set_world (w : World) (s : Session) : Session :=
  mkSession w (disabled_items s) (edits s) (stopped s).

(** [item.disabled = True] *)
Definition disable_item (item : Item) (s : Session) : Session :=
  match item with
  | ButtonItem r =>
      set_world
        (mkWorld (alter (PaginatorButton.set_disabled true) (r : nat)
                    (store (world s)))
           (obj (world s)) (log (world s))) s
  | _ => mkSession (world s) (item :: disabled_items s) (edits s) (stopped s)
  end.

(** [self.stop()] *)
Definition stop (s : Session) : Session :=
  mkSession (world s) (disabled_items s) (edits s) true.

(** [await self.message.edit(...)]: reading [self.message.edit] fails on a
    paginator without a message. *)
Definition edit_message (edit : Message -> list Item -> Edit) (s : Session) :
    Session * result unit :=
  match message (obj (world s)) with
  | None => (s, Raise NotReadyError)
  | Some msg =>
      (mkSession (world s) (disabled_items s)
         (edits s ++ [edit msg (children (obj (world s)))]) (stopped s),
       Ok tt)
  end.

(** The argument [page] of [cancel] and [disable]: when it is omitted it is
    [None], which is of no supported type. *)
Definition page_argument (page : option PagesItem) : PagesItem :=
  default (Single ANone) page.

(** [include_custom or not self.custom_view
     or item not in self.custom_view.children] *)
Definition targeted (include_custom : bool) (self : t) (item : Item) : bool :=
  include_custom
  || match the_view (custom_view self) with
     | None => true
     | Some view =>
         negb (bool_decide (item ∈ CustomItem <$> View.children view))
     end.

Section Methods.
(** [bool(page)] of a [Page] object.  The class is defined in [pages.py];
    the methods are modelled for any truth value it may give. *)
Variable page_truth : Page.t -> bool.

(** The edit that ends [cancel] and [disable]. *)
Definition closing_edit (content : Page.t) (msg : Message) (view : list Item) :
    Edit :=
  if page_truth content
  then EditPage msg (Page.content content) (Page.embeds content) view
  else EditView msg view.

(** [self.cancel(include_custom, page)] *)
Definition cancel (include_custom : bool) (page : option PagesItem)
    (s : Session) : Session * result unit :=
  let items := children (obj (world s)) in
  match get_page_content (page_argument page) with
  | Raise e => (s, Raise e)
  | Ok content =>
      let removal :=
        for_each items (fun item =>
          let* self := get_self in
          when (targeted include_custom self item) (remove_item item)) in
      edit_message (closing_edit content) (set_world (removal (world s)).1 s)
  end.

(** [self.disable(include_custom, page)] *)
Definition disable (include_custom : bool) (page : option PagesItem)
    (s : Session) : Session * result unit :=
  match get_page_content (page_argument page) with
  | Raise e => (s, Raise e)
  | Ok content =>
      let disabling :=
        fold_left
          (fun s item =>
             if targeted include_custom (obj (world s)) item
             then disable_item item s else s)
          (children (obj (world s))) in
      edit_message (closing_edit content) (disabling s)
  end.
End Methods.

(** [self.on_timeout()], where the host answers the edit with [outcome]. *)
Definition on_timeout (outcome : Outcome) (s : Session) :
    Session * result unit :=
  if disable_on_timeout (obj (world s)) then
    let s1 :=
      fold_left (fun s item => disable_item item s)
        (children (obj (world s))) s in
    let self := obj (world s1) in
    match py_getitem (pages self) (current_page self) with
    | Raise e => (s1, Raise e)
    | Ok page =>
        match get_page_content page with
        | Raise e => (s1, Raise e)
        | Ok content =>
            let files := Page.update_files content in
            match
              edit_message
                (fun msg view =>
                   EditFiles msg view
                     (match files with [] => [] | _ => files end)) s1
            with
            | (s2, Raise e) => (s2, Raise e)
            | (s2, Ok _) =>
                match outcome with
                | Edited | NotFound | Forbidden => (stop s2, Ok tt)
                | Failed e => (s2, Raise e)
                end
            end
        end
    end
  else (stop s, Ok tt).

(** A session around a world: nothing disabled yet, no edit, not stopped. *)
Definition of_world (w : World) : Session := mkSession w [] [] false.

(** The items of the view that [cancel] leaves and [disable] passes over. *)
Definition spared (include_custom : bool) (self : t) : list Item :=
  List.filter (fun item => negb (targeted include_custom self item))
    (children self).

(** Whether a loop that disables the items of [l] that satisfy [p] writes
    to the button object [r]. *)
Definition disables (p : Item -> bool) (l : list Item) (r : nat) : bool :=
  existsb (fun item => p item && bool_decide (item = ButtonItem r)) l.

Definition is_button (item : Item) : bool :=
  match item with
  | ButtonItem _ => true
  | _ => false
  end.

(** A session around the sent paginator with a custom view, and a last
    page to show. *)
Definition sample : Session := of_world Sample.with_view.

Definition goodbye : option PagesItem := Some (Single (AStr "Goodbye")).
End Closing.

(** ** Stating the properties *)

(** [keeps g m]: running [m] does not change the observation [g] of the
    paginator, whether [m] returns or raises. *)
Definition keeps {A X} (g : Paginator.t -> X) (m : Paginator.M A) : Prop :=
  forall w, g (Paginator.obj (m w).1) = g (Paginator.obj w).

(** [sets g v m]: however [m] ends, the observation [g] is [v] afterwards. *)
Definition sets {A X} (g : Paginator.t -> X) (v : X) (m : Paginator.M A) :
    Prop :=
  forall w, g (Paginator.obj (m w).1) = v.

(** [raises E m]: every exception that [m] can raise satisfies [E]. *)
Definition raises {A} (E : exn -> Prop) (m : Paginator.M A) : Prop :=
  forall w e, (m w).2 = Raise e -> E e.

(** Not a [ValueError]: what the rendering methods raise is an [IndexError],
    a [KeyError], a [TypeError] or an [AttributeError]. *)
Definition not_ValueError (e : exn) : Prop :=
  match e with
  | ValueError _ => False
  | _ => True
  end.

(** How a button shows: its [hidden] flag and its [label]. *)
Definition appearance (r : ref) (w : Paginator.World) : bool * option string :=
  (PaginatorButton.hidden (Paginator.store w !!! r),
   PaginatorButton.label (Paginator.store w !!! r)).

(** [keeps_appearance r m]: running [m] does not change how the button [r]
    shows. *)
Definition keeps_appearance {A} (r : ref) (m : Paginator.M A) : Prop :=
  forall w, appearance r (m w).1 = appearance r w.

(** What [update_buttons] makes of the button [next], branch by branch:
    hidden with its own label at the last page, or left as it was with its
    loop label when looping; shown with its own label before the last page;
    left alone beyond it. *)
Definition next_shows (self : Paginator.t) (b : PaginatorButton.t) :
    bool * option string :=
  if Paginator.current_page self =? Paginator.page_count self then
    if Paginator.loop_pages self
    then (PaginatorButton.hidden b, PaginatorButton.loop_label b)
    else (true, PaginatorButton._label b)
  else if Paginator.current_page self <? Paginator.page_count self
  then (false, PaginatorButton._label b)
  else (PaginatorButton.hidden b, PaginatorButton.label b).

(** The same for the button [prev] at the first page and after it. *)
Definition prev_shows (self : Paginator.t) (b : PaginatorButton.t) :
    bool * option string :=
  if Paginator.current_page self <=? 0 then
    if Paginator.loop_pages self
    then (PaginatorButton.hidden b, PaginatorButton.loop_label b)
    else (true, PaginatorButton._label b)
  else (false, PaginatorButton._label b).

(** The pages, their count and the current page. *)
Definition navigation (self : Paginator.t) : list PagesItem * Z * Z :=
  (Paginator.pages self, Paginator.page_count self,
   Paginator.current_page self).

(** [0 <= current_page <= page_count] *)
Definition in_range (self : Paginator.t) : Prop :=
  0 <= Paginator.current_page self <= Paginator.page_count self.


(** ** More to state properties with *)

(** The page groups that a page list starts with, up to its first element
    that is not a page group. *)
Fixpoint leading_groups (pages : list PagesItem) : list PageGroup.t :=
  match pages with
  | Group pg :: rest => pg :: leading_groups rest
  | _ => []
  end.

(** The number of those that are flagged default. *)
Definition leading_defaults (pages : list PagesItem) : nat :=
  length (List.filter PageGroup.default (leading_groups pages)).

(** [update] is passed page groups only, with [show_menu] true, one of them
    is flagged default, and normalising the content of that group raises
    [e]. *)
Definition default_group_fails (a : UpdateArgs.t) (e : exn) : Prop :=
  exists l pg,
    UpdateArgs.pages a = Some l /\
    forallb is_PageGroup l = true /\
    Paginator.truthy (UpdateArgs.show_menu a) = true /\
    List.filter PageGroup.default (leading_groups l) = [pg] /\
    Paginator.get_page_group_content (Group pg) = Raise e.

(** What the constructor copies from its arguments, and where it starts. *)
Definition constructed_from (a : InitArgs.t)
    (the_groups : option (list PagesItem)) (the_default : nat)
    (the_pages : list PagesItem) (self : Paginator.t) : Prop :=
  Paginator.pages self = the_pages /\
  Paginator.page_groups self = the_groups /\
  Paginator.default_page_group self = the_default /\
  Paginator.current_page self = 0 /\
  Paginator.page_count self = Paginator.count_pages the_pages /\
  Paginator.message self = None /\
  Paginator.timeout self = InitArgs.timeout a /\
  Paginator.show_menu self = InitArgs.show_menu a /\
  Paginator.menu_placeholder self = InitArgs.menu_placeholder a /\
  Paginator.custom_buttons self = InitArgs.custom_buttons a /\
  Paginator.show_disabled self = InitArgs.show_disabled a /\
  Paginator.show_indicator self = InitArgs.show_indicator a /\
  Paginator.disable_on_timeout self = InitArgs.disable_on_timeout a /\
  Paginator.use_default_buttons self = InitArgs.use_default_buttons a /\
  Paginator.default_button_row self = InitArgs.default_button_row a /\
  Paginator.loop_pages self = InitArgs.loop_pages a /\
  Paginator.custom_view self = Supplied (InitArgs.custom_view a) /\
  Paginator.trigger_on_display self = InitArgs.trigger_on_display a /\
  Paginator.usercheck self = InitArgs.author_check a /\
  Paginator.users self = InitArgs.users a.

(** The attributes that the constructor's last steps (the buttons and the
    menu) leave alone. *)
Definition settings (self : Paginator.t) :=
  (Paginator.pages self, Paginator.page_groups self,
   Paginator.default_page_group self, Paginator.current_page self,
   Paginator.page_count self, Paginator.message self,
   Paginator.timeout self, Paginator.show_menu self,
   Paginator.menu_placeholder self, Paginator.custom_buttons self,
   (Paginator.show_disabled self, Paginator.show_indicator self,
    Paginator.disable_on_timeout self, Paginator.use_default_buttons self,
    Paginator.default_button_row self, Paginator.loop_pages self,
    Paginator.custom_view self, Paginator.trigger_on_display self,
    Paginator.usercheck self, Paginator.users self)).

(** The button object as [add_button] leaves it: a page indicator gets its
    [hidden] flag from [show_indicator] and, if it has neither label nor
    emoji, the indicator text as its label; other buttons are not touched. *)
Definition registered (self : Paginator.t) (b : PaginatorButton.t) :
    PaginatorButton.t :=
  if decide (PaginatorButton.button_type b = PaginatorButtonType.page_indicator)
  then
    let shown := PaginatorButton.set_hidden (Paginator.show_indicator self) b in
    match PaginatorButton.label b, PaginatorButton.emoji b with
    | None, None =>
        PaginatorButton.set_label
          (Some (Paginator.indicator_label (Paginator.current_page self)
                   (Paginator.page_count self))) shown
    | _, _ => shown
    end
  else b.

(** The four buttons that [update_buttons] looks up whatever the settings. *)
Definition navigation_buttons : list PaginatorButtonType.t :=
  [PaginatorButtonType.first; PaginatorButtonType.last;
   PaginatorButtonType.next; PaginatorButtonType.prev].

(** The first of them, in the order of the lookups, that the registry
    lacks. *)
Definition first_missing (self : Paginator.t) :
    option PaginatorButtonType.t :=
  List.find
    (fun key => bool_decide (dict_get key (Paginator.buttons self) = None))
    navigation_buttons.

Module Example.
Import Paginator.

(** [Paginator(pages, use_default_buttons=False)]: no buttons at all. *)
Definition bare_args : InitArgs.t :=
  InitArgs.mk Sample.three_pages true true false "Select Page Group" false
    true false 0 false None (Some 180%float) None None None.

Definition bare : World := Eval vm_compute in Sample.constructed bare_args.

(** Two custom buttons, [first] and [last]. *)
Definition custom_objects : list PaginatorButton.t :=
  [PaginatorButton.new PaginatorButtonType.first (Some "|<") None
     ButtonStyle.gray false 0 None;
   PaginatorButton.new PaginatorButtonType.last (Some ">|") None
     ButtonStyle.gray false 0 None].

(** [Paginator(pages, custom_buttons=[..])], with [use_default_buttons]
    left at its default [True]. *)
Definition unusable_args : InitArgs.t :=
  InitArgs.mk Sample.three_pages true true false "Select Page Group" false
    true true 0 false None (Some 180%float) (Some [0%nat; 1%nat]) None None.

Definition unusable : World :=
  Eval vm_compute in
    match __init__ unusable_args custom_objects with
    | Ok w => w
    | Raise _ => bare
    end.

(** [Paginator(pages, use_default_buttons=False, custom_buttons=[..])]:
    the registry holds [first] and [last] only. *)
Definition two_buttons : World :=
  Eval vm_compute in
    match
      __init__
        (InitArgs.mk Sample.three_pages true true false "Select Page Group"
           false true false 0 false None (Some 180%float)
           (Some [0%nat; 1%nat]) None None)
        custom_objects
    with
    | Ok w => w
    | Raise _ => bare
    end.

(** The sent paginator with a custom view, rendered once more. *)
Definition rendered : World :=
  Eval vm_compute in Sample.after update_buttons Sample.with_view.

(** The paginator of five pages on its last page, rendered once more. *)
Definition five_rendered : World :=
  Eval vm_compute in Sample.after update_buttons Sample.five_last.

(** [paginator.update(current_page=1)] on the sent paginator. *)
Definition updated : World :=
  Eval vm_compute in Sample.after (update (Sample.show_page 1)) Sample.sent.

(** [Paginator(["one", None])]: a flat page list that holds a [None]. *)
Definition with_None : World :=
  Eval vm_compute in
    Sample.constructed (InitArgs.defaults [Single (AStr "one"); Single ANone]).

(** [paginator.update(pages=[], show_menu=True)] *)
Definition empty_menu : UpdateArgs.t :=
  UpdateArgs.mk (Some []) None None (Some true) None None None None None None
    MISSING MISSING MISSING None None 0 MISSING.

(** A page group flagged default whose one page is a list that mixes an
    embed with a file. *)
Definition mixed_group : PageGroup.t :=
  PageGroup.mk [AList [EmbedItem "embed"; FileItem "file"]] "mixed" None None
    true.

(** [paginator.update(pages=[mixed_group], show_menu=True)] *)
Definition mixed_menu : UpdateArgs.t :=
  UpdateArgs.mk (Some [Group mixed_group]) None None (Some true) None None
    None None None None MISSING MISSING MISSING None None 0 MISSING.

(** [paginator.update(pages=[object()])]: a flat list of one page of no
    supported type. *)
Definition unsupported_page : UpdateArgs.t :=
  Sample.new_pages [Single Unsupported].

(** [paginator.update(pages=[a, b], show_menu=True)], where both groups are
    flagged default. *)
Definition two_defaults_menu : UpdateArgs.t :=
  UpdateArgs.mk
    (Some [Sample.group "a" ["x"] true; Sample.group "b" ["y"] true])
    None None (Some true) None None None None None None
    MISSING MISSING MISSING None None 0 MISSING.
End Example.

(** The five button objects that [add_default_buttons] leaves in the store:
    as constructed, the page indicator then prepared by [add_button]. *)
Definition default_buttons (self : Paginator.t) : list PaginatorButton.t :=
  let row := Paginator.default_button_row self in
  [PaginatorButton.new PaginatorButtonType.first (Some "<<") None
     ButtonStyle.blurple false row None;
   PaginatorButton.new PaginatorButtonType.prev (Some "<") None
     ButtonStyle.red false row (Some "↪");
   registered self
     (PaginatorButton.new PaginatorButtonType.page_indicator None None
        ButtonStyle.gray true row None);
   PaginatorButton.new PaginatorButtonType.next (Some ">") None
     ButtonStyle.green false row (Some "↩");
   PaginatorButton.new PaginatorButtonType.last (Some ">>") None
     ButtonStyle.blurple false row None].

(** Whether the loop of [update_buttons] puts a registry entry in the view:
    the page indicator if [show_indicator] is on, another button unless it
    is hidden and [show_disabled] is off. *)
Definition shown (self : Paginator.t) (objects : list PaginatorButton.t)
    (entry : PaginatorButtonType.t * ref) : bool :=
  if decide (entry.1 = PaginatorButtonType.page_indicator)
  then Paginator.show_indicator self
  else negb (PaginatorButton.hidden (objects !!! entry.2))
       || Paginator.show_disabled self.

(** [button.disabled = button.hidden], as the loop leaves a button that is
    not the page indicator. *)
Definition disable_hidden (b : PaginatorButton.t) : PaginatorButton.t :=
  PaginatorButton.set_disabled (PaginatorButton.hidden b) b.

(** The button objects after the loop over the registry. *)
Definition render_store (entries : dict PaginatorButtonType.t ref)
    (objects : list PaginatorButton.t) : list PaginatorButton.t :=
  fold_left
    (fun objects entry =>
       if decide (entry.1 = PaginatorButtonType.page_indicator) then objects
       else alter disable_hidden (entry.2 : nat) objects)
    entries objects.

(** Whether the loop writes to the object [r]. *)
Definition touched (entries : dict PaginatorButtonType.t ref) (r : nat) : bool :=
  existsb
    (fun entry =>
       bool_decide (entry.1 <> PaginatorButtonType.page_indicator)
       && bool_decide (entry.2 = r))
    entries.

(** The items that [update_buttons] leaves in the view: the buttons of the
    registry that are shown, in the order of the registry, then the menu,
    then the items of the custom view. *)
Definition rendered_items (self : Paginator.t)
    (objects : list PaginatorButton.t) : list Item :=
  ((fun entry => ButtonItem entry.2)
     <$> List.filter (shown self objects) (Paginator.buttons self))
  ++ (if Paginator.show_menu self
      then [MenuItem (PaginatorMenu.mk (Paginator.page_groups self)
                        (Paginator.menu_placeholder self))]
      else [])
  ++ match Paginator.the_view (Paginator.custom_view self) with
     | Some view => CustomItem <$> View.children view
     | None => []
     end.

(** [store_only m]: running [m] writes to button objects at most; the
    paginator and the trace of host calls are as before, however [m] ends. *)
Definition store_only {A} (m : Paginator.M A) : Prop :=
  forall w, Paginator.obj (m w).1 = Paginator.obj w
            /\ Paginator.log (m w).1 = Paginator.log w.

(** [silent m]: running [m] makes no call on a host object, however it
    ends. *)
Definition silent {A} (m : Paginator.M A) : Prop :=
  forall w, Paginator.log (m w).1 = Paginator.log w.

(** [fails_unsent m]: on a paginator without a message, [m] raises. *)
Definition fails_unsent {A} (m : Paginator.M A) : Prop :=
  forall w, Paginator.message (Paginator.obj w) = None ->
            exists e, (m w).2 = Raise e.

(** What [update_buttons] looks up: the four navigation buttons, and the
    page indicator if [show_indicator] is on. *)
Definition has_buttons (self : Paginator.t) : Prop :=
  (forall key, key ∈ navigation_buttons ->
               is_Some (dict_get key (Paginator.buttons self))) /\
  (Paginator.show_indicator self = true ->
   is_Some (dict_get PaginatorButtonType.page_indicator
              (Paginator.buttons self))).

(** [self.get_page_content(self.pages[self.current_page])] *)
Definition current_content (self : Paginator.t) : result Page.t :=
  try page := py_getitem (Paginator.pages self) (Paginator.current_page self) in
  Paginator.get_page_content page.

(** The message that [respond] stores: the one the host hands back, or the
    original response of the interaction it hands back. *)
Definition answered (answer : RespondResult) : Message :=
  match answer with
  | RespondedMessage msg => msg
  | RespondedInteraction original => original
  end.

(** [obj_only m]: running [m] writes to the paginator's own attributes at
    most; the button objects and the trace of host calls are as before,
    however [m] ends. *)
Definition obj_only {A} (m : Paginator.M A) : Prop :=
  forall w, Paginator.store (m w).1 = Paginator.store w
            /\ Paginator.log (m w).1 = Paginator.log w.

(** The registry after [for button in l: self.add_button(button)]. *)
Definition registry_of (objects : list PaginatorButton.t) (l : list ref)
    (registry : dict PaginatorButtonType.t ref) :
    dict PaginatorButtonType.t ref :=
  fold_left
    (fun registry (r : ref) =>
       dict_set (PaginatorButton.button_type (objects !!! (r : nat))) r registry)
    l registry.

(** * Properties *)

Import Paginator.

(** ** Dictionaries *)

Section DictFacts.
Context {K V : Type} `{EqDecision K}.
Implicit Types (k : K) (v : V) (d : dict K V).

Lemma dict_get_del_eq k d : dict_get k (dict_del k d) = None.
Proof.
  induction d as [|[k' v'] d IH]; simpl; [done|].
  destruct (decide (k = k')) as [->|Hne]; [done|].
  simpl. by rewrite decide_False.
Qed.

Lemma dict_get_del_ne k k' d :
  k ≠ k' -> dict_get k' (dict_del k d) = dict_get k' d.
Proof.
  intros Hne. induction d as [|[k0 v0] d IH]; simpl; [done|].
  destruct (decide (k = k0)) as [->|Hk].
  - by rewrite IH, decide_False.
  - simpl. by rewrite IH.
Qed.

Lemma dict_get_set_eq k v d : dict_get k (dict_set k v d) = Some v.
Proof.
  induction d as [|[k' v'] d IH]; simpl.
  - by rewrite decide_True.
  - destruct (decide (k = k')) as [->|Hne]; simpl.
    + by rewrite decide_True.
    + by rewrite decide_False.
Qed.

Lemma dict_get_set_ne k k' v d :
  k ≠ k' -> dict_get k' (dict_set k v d) = dict_get k' d.
Proof.
  intros Hne. induction d as [|[k0 v0] d IH]; simpl.
  - rewrite decide_False; [done|congruence].
  - destruct (decide (k = k0)) as [->|Hk]; simpl.
    + rewrite !decide_False; [done|congruence..].
    + by rewrite IH.
Qed.
End DictFacts.

(** ** The monad: running a sequence step by step *)

Lemma bind_ok {A B} (m : M A) (f : A -> M B) w w1 a :
  m w = (w1, Ok a) -> bind m f w = f a w1.
Proof. intros H. unfold bind. by rewrite H. Qed.

Lemma bind_raise {A B} (m : M A) (f : A -> M B) w w1 e :
  m w = (w1, Raise e) -> bind m f w = (w1, Raise e).
Proof. intros H. unfold bind. by rewrite H. Qed.

Lemma bind_cases {A B} (m : M A) (f : A -> M B) w w' r :
  bind m f w = (w', r) ->
  (exists w1 a, m w = (w1, Ok a) /\ f a w1 = (w', r)) \/
  (exists e, m w = (w', Raise e) /\ r = Raise e).
Proof.
  unfold bind. destruct (m w) as [w1 [a|e]]; intros H.
  - left. eauto.
  - right. exists e. by inversion H.
Qed.

(** ** Frame conditions: what a method leaves alone *)

Section Frames.
Context {X : Type} (g : t -> X).

Lemma keeps_ret {A} (a : A) : keeps g (ret a).
Proof. by intros w. Qed.

Lemma keeps_raise {A} e : keeps g (@raise A e).
Proof. by intros w. Qed.

Lemma keeps_lift {A} (r : result A) : keeps g (lift r).
Proof. by intros w. Qed.

Lemma keeps_bind {A B} (m : M A) (f : A -> M B) :
  keeps g m -> (forall a, keeps g (f a)) -> keeps g (bind m f).
Proof.
  intros Hm Hf w. unfold bind. specialize (Hm w).
  destruct (m w) as [w1 [a|e]]; simpl in *; [|done].
  by rewrite Hf.
Qed.

Lemma keeps_get_self : keeps g get_self.
Proof. by intros w. Qed.

Lemma keeps_get_button r : keeps g (get_button r).
Proof. by intros w. Qed.

Lemma keeps_set_button r f : keeps g (set_button r f).
Proof. by intros w. Qed.

Lemma keeps_new_button b : keeps g (new_button b).
Proof. by intros w. Qed.

Lemma keeps_host_call c : keeps g (host_call c).
Proof. by intros w. Qed.

Lemma keeps_assign f : (forall self, g (f self) = g self) -> keeps g (assign f).
Proof. intros Hf w. apply Hf. Qed.

Lemma keeps_for_each {A} (l : list A) (body : A -> M unit) :
  (forall x, keeps g (body x)) -> keeps g (for_each l body).
Proof.
  intros Hbody. induction l as [|x l IH]; simpl.
  - apply keeps_ret.
  - apply keeps_bind; [apply Hbody|done].
Qed.

Lemma keeps_when c (body : M unit) : keeps g body -> keeps g (when c body).
Proof. intros H. destruct c; [done|apply keeps_ret]. Qed.
End Frames.

Section Raises.
Context (E : exn -> Prop).

Lemma raises_ret {A} (a : A) : raises E (ret a).
Proof. by intros w e. Qed.

Lemma raises_raise {A} e : E e -> raises E (@raise A e).
Proof. intros He w e' [= <-]. done. Qed.

Lemma raises_lift {A} (r : result A) :
  (forall e, r = Raise e -> E e) -> raises E (lift r).
Proof. intros Hr w e. apply Hr. Qed.

Lemma raises_bind {A B} (m : M A) (f : A -> M B) :
  raises E m -> (forall a, raises E (f a)) -> raises E (bind m f).
Proof.
  intros Hm Hf w e. unfold bind. specialize (Hm w).
  destruct (m w) as [w1 [a|e1]]; simpl in *.
  - apply Hf.
  - intros [= <-]. by apply Hm.
Qed.

Lemma raises_get_self : raises E get_self.
Proof. by intros w e. Qed.

Lemma raises_get_button r : raises E (get_button r).
Proof. by intros w e. Qed.

Lemma raises_set_button r f : raises E (set_button r f).
Proof. by intros w e. Qed.

Lemma raises_new_button b : raises E (new_button b).
Proof. by intros w e. Qed.

Lemma raises_host_call c : raises E (host_call c).
Proof. by intros w e. Qed.

Lemma raises_assign f : raises E (assign f).
Proof. by intros w e. Qed.

Lemma raises_for_each {A} (l : list A) (body : A -> M unit) :
  (forall x, raises E (body x)) -> raises E (for_each l body).
Proof.
  intros Hbody. induction l as [|x l IH]; simpl.
  - apply raises_ret.
  - apply raises_bind; [apply Hbody|done].
Qed.

Lemma raises_when c (body : M unit) : raises E body -> raises E (when c body).
Proof. intros H. destruct c; [done|apply raises_ret]. Qed.
End Raises.

(** One step of a frame or exception argument, following the shape of the
    method. *)
Ltac method_step :=
  lazymatch goal with
  | |- keeps _ (bind _ _) => apply keeps_bind; [|intros]
  | |- keeps _ (ret _) => apply keeps_ret
  | |- keeps _ (raise _) => apply keeps_raise
  | |- keeps _ (lift _) => apply keeps_lift
  | |- keeps _ get_self => apply keeps_get_self
  | |- keeps _ (get_button _) => apply keeps_get_button
  | |- keeps _ (set_button _ _) => apply keeps_set_button
  | |- keeps _ (new_button _) => apply keeps_new_button
  | |- keeps _ (host_call _) => apply keeps_host_call
  | |- keeps _ (for_each _ _) => apply keeps_for_each; intros
  | |- keeps _ (when _ _) => apply keeps_when
  | |- keeps _ (assign _) => apply keeps_assign; intros
  | |- raises _ (bind _ _) => apply raises_bind; [|intros]
  | |- raises _ (ret _) => apply raises_ret
  | |- raises _ (raise _) => apply raises_raise
  | |- raises _ get_self => apply raises_get_self
  | |- raises _ (get_button _) => apply raises_get_button
  | |- raises _ (set_button _ _) => apply raises_set_button
  | |- raises _ (new_button _) => apply raises_new_button
  | |- raises _ (host_call _) => apply raises_host_call
  | |- raises _ (for_each _ _) => apply raises_for_each; intros
  | |- raises _ (when _ _) => apply raises_when
  | |- raises _ (assign _) => apply raises_assign
  | |- keeps _ (match ?x with _ => _ end) => destruct x
  | |- raises _ (match ?x with _ => _ end) => destruct x
  end.

(** Side conditions are closed at once; goals about methods are left for
    the lemmas on those methods. *)
Ltac side_condition :=
  lazymatch goal with
  | |- keeps _ _ => idtac
  | |- raises _ _ => idtac
  | |- _ => try done
  end.

Ltac method_steps := repeat (method_step; side_condition).

Lemma py_getitem_raises {A} (l : list A) i e :
  py_getitem l i = Raise e -> e = OutOfRange.
Proof.
  unfold py_getitem. repeat case_match; congruence.
Qed.

Lemma get_page_content_raises page e :
  get_page_content page = Raise e ->
  e = ContentTypeError \/ e = UnsupportedContentError.
Proof.
  unfold get_page_content. repeat case_match; intros [= <-]; auto.
Qed.

Lemma map_result_raises {A B} (f : A -> result B) (E : exn -> Prop) l e :
  (forall x e, f x = Raise e -> E e) -> map_result f l = Raise e -> E e.
Proof.
  intros Hf. induction l as [|x l IH]; simpl; [done|].
  destruct (f x) as [y|e1] eqn:Hx; simpl.
  - destruct (map_result f l); simpl; [done|]. intros [= <-]. by apply IH.
  - intros [= <-]. eauto.
Qed.

Lemma get_page_group_content_raises page_group e :
  get_page_group_content page_group = Raise e -> not_ValueError e.
Proof.
  destruct page_group as [pg|page]; unfold get_page_group_content.
  - apply map_result_raises.
    intros x e' [->| ->]%get_page_content_raises; done.
  - by intros [= <-].
Qed.

Lemma py_index_raises {A} (p : A -> bool) l e :
  py_index p l = Raise e -> e = NotInList.
Proof. unfold py_index. case_match; congruence. Qed.

Lemma scan_page_groups_raises pages default_group e :
  scan_page_groups pages default_group = Raise e -> e = ConfigurationError.
Proof.
  revert default_group.
  induction pages as [|[pg|page] pages IH]; intros dg; simpl; [done| |done].
  destruct (PageGroup.default pg); [|apply IH].
  destruct dg; [congruence|apply IH].
Qed.

(** *** Methods that only touch the view items and the menu *)

Section RenderFrame.
Context {X : Type} (g : t -> X).
Hypothesis g_children : forall v self, g (set_children v self) = g self.
Hypothesis g_menu : forall v self, g (set_menu v self) = g self.

Lemma keeps_add_item item : keeps g (add_item item).
Proof. unfold add_item. method_steps. Qed.

Lemma keeps_remove_item item : keeps g (remove_item item).
Proof. unfold remove_item. method_steps. Qed.

Lemma keeps_clear_items : keeps g clear_items.
Proof. unfold clear_items. method_steps. Qed.

Lemma keeps_add_menu : keeps g add_menu.
Proof. unfold add_menu. method_steps; auto using keeps_add_item. Qed.

Lemma keeps_update_custom_view view : keeps g (update_custom_view view).
Proof.
  unfold update_custom_view. method_steps;
    auto using keeps_add_item, keeps_remove_item.
Qed.

Lemma keeps_the_button key : keeps g (the_button key).
Proof. unfold the_button. method_steps. Qed.

Lemma keeps_reset_label r : keeps g (reset_label r).
Proof. unfold reset_label. method_steps. Qed.

Lemma keeps_use_loop_label r : keeps g (use_loop_label r).
Proof. unfold use_loop_label. method_steps. Qed.

Lemma keeps_render_button entry : keeps g (render_button entry).
Proof.
  unfold render_button. destruct entry as [key r].
  method_steps; auto using keeps_add_item.
Qed.

Lemma keeps_update_buttons : keeps g update_buttons.
Proof.
  unfold update_buttons.
  method_steps;
    auto using keeps_the_button, keeps_reset_label, keeps_use_loop_label,
      keeps_clear_items, keeps_render_button, keeps_add_menu,
      keeps_update_custom_view.
Qed.

Lemma keeps__prepare update_files : keeps g (_prepare update_files).
Proof.
  unfold _prepare.
  method_steps; auto using keeps_update_buttons, keeps_update_custom_view.
Qed.

Lemma keeps_unpack_self : keeps g unpack_self.
Proof.
  unfold unpack_self, __iter__, __getitem__.
  method_steps; auto using keeps__prepare.
Qed.

Lemma keeps_page_action interaction : keeps g (page_action interaction).
Proof. unfold page_action. method_steps. Qed.

(** [goto_page] besides assigns [current_page]. *)
Lemma keeps_goto_page page_number interaction :
  (forall v self, g (set_current_page v self) = g self) ->
  keeps g (goto_page page_number interaction).
Proof.
  intros g_current. unfold goto_page.
  method_steps; auto using keeps__prepare, keeps_unpack_self, keeps_page_action.
Qed.
End RenderFrame.

(** *** Methods that only touch the button registry *)

Section ButtonFrame.
Context {X : Type} (g : t -> X).
Hypothesis g_buttons : forall v self, g (set_buttons v self) = g self.

Lemma keeps_add_button button : keeps g (add_button button).
Proof. unfold add_button. method_steps. Qed.

Lemma keeps_add_default_buttons : keeps g add_default_buttons.
Proof.
  unfold add_default_buttons. method_steps; auto using keeps_add_button.
Qed.
End ButtonFrame.

(** *** Exceptions of the rendering methods: never a [ValueError] *)

Lemma lift_getitem_raises {A} (l : list A) i :
  raises not_ValueError (lift (py_getitem l i)).
Proof. apply raises_lift. by intros e ->%py_getitem_raises. Qed.

Lemma lift_page_content_raises page :
  raises not_ValueError (lift (get_page_content page)).
Proof.
  apply raises_lift. by intros e [->| ->]%get_page_content_raises.
Qed.

Lemma add_item_raises item : raises not_ValueError (add_item item).
Proof. unfold add_item. method_steps. Qed.

Lemma remove_item_raises item : raises not_ValueError (remove_item item).
Proof. unfold remove_item. method_steps. Qed.

Lemma add_menu_raises : raises not_ValueError add_menu.
Proof. unfold add_menu. method_steps; auto using add_item_raises. Qed.

Lemma update_custom_view_raises view :
  raises not_ValueError (update_custom_view view).
Proof.
  unfold update_custom_view.
  method_steps; auto using add_item_raises, remove_item_raises.
Qed.

Lemma the_button_raises key : raises not_ValueError (the_button key).
Proof. unfold the_button. method_steps. Qed.

Lemma reset_label_raises r : raises not_ValueError (reset_label r).
Proof. unfold reset_label. method_steps. Qed.

Lemma use_loop_label_raises r : raises not_ValueError (use_loop_label r).
Proof. unfold use_loop_label. method_steps. Qed.

Lemma render_button_raises entry : raises not_ValueError (render_button entry).
Proof.
  unfold render_button. destruct entry as [key r].
  method_steps; auto using add_item_raises.
Qed.

Lemma update_buttons_raises : raises not_ValueError update_buttons.
Proof.
  unfold update_buttons, clear_items.
  method_steps;
    auto using the_button_raises, reset_label_raises, use_loop_label_raises,
      render_button_raises, add_menu_raises, update_custom_view_raises.
Qed.

Lemma _prepare_raises update_files :
  raises not_ValueError (_prepare update_files).
Proof.
  unfold _prepare.
  method_steps;
    auto using update_buttons_raises, update_custom_view_raises,
      lift_getitem_raises, lift_page_content_raises.
Qed.

Lemma unpack_self_raises : raises not_ValueError unpack_self.
Proof.
  unfold unpack_self, __iter__, __getitem__.
  method_steps; auto using _prepare_raises.
Qed.

Lemma page_action_raises interaction :
  raises not_ValueError (page_action interaction).
Proof.
  unfold page_action.
  method_steps; auto using lift_getitem_raises, lift_page_content_raises.
Qed.

Lemma goto_page_raises page_number interaction :
  raises not_ValueError (goto_page page_number interaction).
Proof.
  unfold goto_page.
  method_steps;
    auto using _prepare_raises, unpack_self_raises, page_action_raises.
Qed.

Lemma add_button_raises button : raises not_ValueError (add_button button).
Proof. unfold add_button. method_steps. Qed.

Lemma add_default_buttons_raises : raises not_ValueError add_default_buttons.
Proof.
  unfold add_default_buttons. method_steps; auto using add_button_raises.
Qed.

Lemma respond_unchecked_raises interaction ephemeral answer :
  raises not_ValueError (respond_unchecked interaction ephemeral answer).
Proof.
  unfold respond_unchecked. method_steps; auto using _prepare_raises.
Qed.

(** ** Running [update] and [goto_page] *)

Lemma bind_assign {B} f (k : unit -> M B) w :
  bind (assign f) k w = k tt (mkWorld (store w) (f (obj w)) (log w)).
Proof. reflexivity. Qed.

Lemma bind_get_self {B} (k : t -> M B) w : bind get_self k w = k (obj w) w.
Proof. reflexivity. Qed.

Lemma bind_assoc {A B C} (m : M A) (f : A -> M B) (k : B -> M C) w :
  bind (bind m f) k w = bind m (fun a => bind (f a) k) w.
Proof. unfold bind. by destruct (m w) as [w1 [a|e]]. Qed.

Lemma bind_host_call {B} c (k : unit -> M B) w :
  bind (host_call c) k w = k tt (mkWorld (store w) (obj w) (log w ++ [c])).
Proof. reflexivity. Qed.

Lemma bind_lift {A B} (r : result A) (k : A -> M B) w :
  bind (lift r) k w
  = match r with
    | Ok a => k a w
    | Raise e => (w, Raise e)
    end.
Proof. by destruct r. Qed.

Lemma keeps_run {A X} (g : t -> X) (m : M A) w w' r :
  keeps g m -> m w = (w', r) -> g (obj w') = g (obj w).
Proof. intros Hm Hrun. specialize (Hm w). by rewrite Hrun in Hm. Qed.

Lemma raises_run {A} (E : exn -> Prop) (m : M A) w w' e :
  raises E m -> m w = (w', Raise e) -> E e.
Proof. intros Hm Hrun. apply (Hm w). by rewrite Hrun. Qed.

Lemma keeps_assign_given {A X} (g : t -> X) (v : option A) set :
  (forall x self, g (set x self) = g self) -> keeps g (assign_given v set).
Proof. intros Hset. destruct v; simpl; method_steps. Qed.

Lemma keeps_assign_supplied {A X} (g : t -> X) (v : supplied A) set :
  (forall x self, g (set x self) = g self) -> keeps g (assign_supplied v set).
Proof. intros Hset. destruct v; simpl; method_steps. Qed.

Lemma assign_given_raises {A} E (v : option A) set :
  raises E (assign_given v set).
Proof. destruct v; simpl; method_steps. Qed.

Lemma assign_supplied_raises {A} E (v : supplied A) set :
  raises E (assign_supplied v set).
Proof. destruct v; simpl; method_steps. Qed.

(** What [goto_page] leaves of the paginator: [current_page] is the
    argument, the items and the menu are rebuilt, the rest is as before. *)
Lemma goto_page_frame {X} (g : t -> X) page_number interaction w :
  (forall v self, g (set_children v self) = g self) ->
  (forall v self, g (set_menu v self) = g self) ->
  g (obj (goto_page page_number interaction w).1)
    = g (set_current_page page_number (obj w)).
Proof.
  intros g_children g_menu. unfold goto_page. rewrite bind_assign.
  match goal with
  | |- g (obj (?m ?w0).1) = _ => assert (Hkeeps : keeps g m)
  end.
  { method_steps;
      auto using keeps__prepare, keeps_unpack_self, keeps_page_action. }
  by rewrite Hkeeps.
Qed.

(** The last statement of [update] shows the page that was just selected. *)
Lemma keeps_goto_current {X} (g : t -> X) interaction :
  (forall v self, g (set_children v self) = g self) ->
  (forall v self, g (set_menu v self) = g self) ->
  keeps g (let* self := get_self in goto_page (current_page self) interaction).
Proof.
  intros g_children g_menu w. rewrite bind_get_self.
  rewrite goto_page_frame by done. by destruct w as [? [] ?].
Qed.

(** One step through the body of [update]. *)
Ltac update_step :=
  lazymatch goal with
  | |- keeps _ (bind get_self _) =>
      first [apply keeps_goto_current; done | method_step; side_condition]
  | |- _ => method_step; side_condition
  end.

Ltac update_steps := repeat update_step.

Lemma count_pages_nonneg pages : 0 <= count_pages pages.
Proof. unfold count_pages. lia. Qed.

Lemma init_navigation a objects w :
  __init__ a objects = Ok w ->
  current_page (obj w) = 0 /\ page_count (obj w) = count_pages (pages (obj w)).
Proof.
  unfold __init__.
  destruct (scan_page_groups _ _) as [[all_groups default_group]|]; [|done].
  simpl.
  match goal with
  | |- context [result_bind ?r _] =>
      destruct r as [[[the_groups the_default] the_pages]|]; [|done]
  end.
  simpl.
  match goal with
  | |- context [bind ?m ?k ?w0] =>
      assert (Hkeeps : keeps navigation (bind m k));
      [|specialize (Hkeeps w0); destruct (bind m k w0) as [w1 [[]|e]]; [|done]]
  end.
  { method_steps;
      auto using keeps_add_button, keeps_add_default_buttons, keeps_add_menu. }
  intros [= <-]. simpl in Hkeeps. by injection Hkeeps as -> -> ->.
Qed.

Lemma update_navigation a w w' :
  update a w = (w', Ok tt) ->
  page_count (obj w') = count_pages (pages (obj w')) /\
  current_page (obj w')
    = if UpdateArgs.current_page a <=? page_count (obj w')
      then UpdateArgs.current_page a else 0.
Proof.
  unfold update. rewrite !bind_assign. intros Hrun.
  apply bind_cases in Hrun as [(w1 & [] & _ & Hrun)|(e & _ & [=])].
  rewrite !bind_assign in Hrun.
  match type of Hrun with
  | ?m ?w0 = _ =>
      assert (Hkeeps : keeps navigation m);
      [|apply (keeps_run _ _ _ _ _ Hkeeps) in Hrun]
  end.
  { update_steps;
      auto using keeps_assign_given, keeps_assign_supplied, keeps_add_button,
        keeps_add_default_buttons. }
  simpl in Hrun. unfold navigation in Hrun.
  injection Hrun as -> -> ->. done.
Qed.

(** However [update] ends, a current page that was in range and a page
    number that is not negative leave the current page in range. *)
Lemma update_keeps_range a w :
  in_range (obj w) -> 0 <= UpdateArgs.current_page a ->
  in_range (obj (update a w).1).
Proof.
  intros Hrange Hpage. unfold update. rewrite !bind_assign.
  match goal with
  | |- in_range (obj (bind ?m ?k ?w0).1) =>
      assert (Hprefix :
        keeps (fun self => (page_count self, current_page self)) m);
      [|specialize (Hprefix w0); destruct (m w0) as [w1 [[]|e]] eqn:Hrun]
  end.
  { destruct (UpdateArgs.pages a); method_steps. }
  - rewrite (bind_ok _ _ _ _ _ Hrun), !bind_assign.
    match goal with
    | |- in_range (obj (?m ?w0).1) =>
        assert (Hkeeps : keeps navigation m);
        [|specialize (Hkeeps w0); destruct (m w0) as [w2 r]]
    end.
    { update_steps;
        auto using keeps_assign_given, keeps_assign_supplied, keeps_add_button,
          keeps_add_default_buttons. }
    simpl in Hkeeps. unfold navigation in Hkeeps.
    injection Hkeeps as _ Hcount Hcurrent. simpl.
    unfold in_range. rewrite Hcurrent, Hcount.
    pose proof (count_pages_nonneg (pages (obj w1))).
    destruct (Z.leb_spec (UpdateArgs.current_page a)
                (count_pages (pages (obj w1)))); lia.
  - rewrite (bind_raise _ _ _ _ _ Hrun). simpl in *.
    injection Hprefix as Hcount Hcurrent.
    unfold in_range. by rewrite Hcurrent, Hcount.
Qed.

(** [sets g v m]: however [m] ends, the observation [g] of the paginator is
    [v] afterwards. *)
Lemma sets_bind_total {A B X} (g : t -> X) v (m : M A) (f : A -> M B) :
  raises (fun _ => False) m ->
  (forall a, sets g v (f a)) ->
  sets g v (bind m f).
Proof.
  intros Hm Hf w. unfold bind. specialize (Hm w).
  destruct (m w) as [w1 [a|e]]; simpl in *; [apply Hf|].
  by destruct (Hm e).
Qed.

Lemma sets_bind_assign {B X} (g : t -> X) v f (k : unit -> M B) :
  (forall self, g (f self) = v) ->
  keeps g (k tt) ->
  sets g v (bind (assign f) k).
Proof. intros Hf Hk w. rewrite bind_assign, Hk. apply Hf. Qed.

(** The arguments tested against [discord.MISSING] are left alone when
    omitted, whatever else the call does. *)
Lemma update_keeps_omitted (a : UpdateArgs.t) (w : World) :
  (UpdateArgs.timeout a = MISSING ->
   timeout (obj (update a w).1) = timeout (obj w)) /\
  (UpdateArgs.users a = MISSING ->
   users (obj (update a w).1) = users (obj w)) /\
  (UpdateArgs.custom_buttons a = MISSING ->
   custom_buttons (obj (update a w).1) = custom_buttons (obj w)).
Proof.
  split; [|split]; intros Homitted;
    match goal with
    | |- ?g (obj (?m ?w0).1) = _ => enough (keeps g m) as Hkeeps by apply Hkeeps
    end;
    unfold update; rewrite Homitted; cbn [assign_supplied];
    update_steps;
    auto using keeps_assign_given, keeps_assign_supplied, keeps_add_button,
      keeps_add_default_buttons.
Qed.


(** ** Scanning page groups *)

(** [page_groups.index(None)] finds nothing exactly when the list holds no
    [None]; a list of page groups holds none. *)
Lemma py_index_no_default (page_groups : list PagesItem) :
  py_index (is_default_group None) page_groups = Raise NotInList <->
  Single ANone ∉ page_groups.
Proof.
  unfold py_index.
  assert (list_find_index (is_default_group None) page_groups = None <->
          Single ANone ∉ page_groups) as Hfind.
  { induction page_groups as [|x l IH]; simpl.
    - split; [intros _; apply not_elem_of_nil|done].
    - rewrite not_elem_of_cons. case_bool_decide as Hx.
      + split; [done|]. by intros [Hne _].
      + destruct (list_find_index _ l); simpl.
        * split; [done|]. intros [_ Hl]. by apply IH in Hl.
        * split; [|done]. intros _. split; [congruence|]. by apply IH. }
  destruct (list_find_index _ page_groups).
  - split; [done|]. by intros [=]%Hfind.
  - split; [intros _; by apply Hfind|done].
Qed.

(** A position found by a search is one that indexing accepts. *)
Lemma py_getitem_nat {A} (l : list A) (i : nat) (x : A) :
  l !! i = Some x -> py_getitem l (Z.of_nat i) = Ok x.
Proof.
  intros Hi. pose proof (lookup_lt_Some _ _ _ Hi) as Hlt.
  unfold py_getitem.
  destruct (Z.ltb_spec (Z.of_nat i) 0) as [|_]; [lia|].
  destruct (Z.ltb_spec (Z.of_nat i) 0) as [|_]; [lia|].
  destruct (Z.leb_spec (Z.of_nat (length l)) (Z.of_nat i)) as [|_]; [lia|].
  simpl. by rewrite Nat2Z.id, Hi.
Qed.

(** What the scan of the page list returns. *)
Lemma scan_page_groups_spec (pages : list PagesItem)
    (default_group : option PageGroup.t) :
  scan_page_groups pages default_group
  = if decide (2 <= leading_defaults pages
                    + match default_group with Some _ => 1 | None => 0 end)%nat
    then Raise ConfigurationError
    else Ok (forallb is_PageGroup pages,
             match default_group with
             | Some pg => Some pg
             | None => head (List.filter PageGroup.default
                               (leading_groups pages))
             end).
Proof.
  unfold leading_defaults. revert default_group.
  induction pages as [|[pg|page] pages IH]; intros dg; simpl.
  - destruct dg; by rewrite decide_False by lia.
  - destruct (PageGroup.default pg) eqn:Hpg; simpl.
    + destruct dg as [pg0|].
      * rewrite decide_True by lia. done.
      * rewrite IH. repeat case_decide; try lia; done.
    + rewrite IH. destruct dg; repeat case_decide; try lia; done.
  - destruct dg; by rewrite decide_False by lia.
Qed.

(** The groups a page list starts with are elements of it. *)
Lemma leading_groups_elem (pages : list PagesItem) (pg : PageGroup.t) :
  pg ∈ leading_groups pages -> Group pg ∈ pages.
Proof.
  induction pages as [|[pg'|page] pages IH]; simpl.
  - by intros ?%elem_of_nil.
  - intros [->|Hin]%elem_of_cons.
    + apply list_elem_of_here.
    + by apply list_elem_of_further, IH.
  - by intros ?%elem_of_nil.
Qed.

(** [l.index(x)] returns the position of an element equal to [x] as soon as
    the list holds one. *)
Lemma list_find_index_Some {A} (p : A -> bool) (l : list A) (x : A) :
  x ∈ l -> p x = true ->
  exists i y, list_find_index p l = Some i /\ l !! i = Some y /\ p y = true.
Proof.
  intros Hin Hx. induction Hin as [x l|x y l _ IH]; simpl.
  - rewrite Hx. by exists 0%nat, x.
  - destruct (p y) eqn:Hy; [by exists 0%nat, y|].
    destruct (IH Hx) as (i & z & -> & Hlookup & Hz).
    by exists (S i), z.
Qed.

Lemma groups_hold_no_None (page_groups : list PagesItem) :
  forallb is_PageGroup page_groups = true -> Single ANone ∉ page_groups.
Proof.
  intros Hall Hin. rewrite forallb_forall in Hall.
  by apply list_elem_of_In, Hall in Hin.
Qed.

Lemma scan_without_default pages :
  Forall (fun x => exists pg, x = Group pg /\ PageGroup.default pg = false)
    pages ->
  scan_page_groups pages None = Ok (true, None).
Proof.
  induction 1 as [|x l (pg & -> & Hdefault) _ IH]; simpl; [done|].
  by rewrite Hdefault.
Qed.

Lemma scan_all_groups pages default_group all_groups found :
  forallb is_PageGroup pages = true ->
  scan_page_groups pages default_group = Ok (all_groups, found) ->
  all_groups = true.
Proof.
  revert default_group.
  induction pages as [|[pg|page] l IH]; intros dg; simpl; [congruence| |done].
  intros Hall. destruct (PageGroup.default pg); [destruct dg; [done|]|]; eauto.
Qed.



(** ** The recomputation of the button states

    How a button shows is its [hidden] flag and its [label].  The render
    loop of [update_buttons], the menu and the custom view change neither. *)

Section Appearance.
Context (r : ref).

Lemma shows_ret {A} (a : A) : keeps_appearance r (ret a).
Proof. by intros w. Qed.

Lemma shows_bind {A B} (m : M A) (f : A -> M B) :
  keeps_appearance r m -> (forall a, keeps_appearance r (f a)) ->
  keeps_appearance r (bind m f).
Proof.
  intros Hm Hf w. unfold bind. specialize (Hm w).
  destruct (m w) as [w1 [a|e]]; simpl in *; [|done].
  by rewrite Hf.
Qed.

Lemma shows_get_self : keeps_appearance r get_self.
Proof. by intros w. Qed.

Lemma shows_get_button r' : keeps_appearance r (get_button r').
Proof. by intros w. Qed.

Lemma shows_assign f : keeps_appearance r (assign f).
Proof. by intros w. Qed.

Lemma shows_set_disabled r' v :
  keeps_appearance r (set_button r' (PaginatorButton.set_disabled v)).
Proof.
  intros w. unfold appearance, set_button. simpl.
  rewrite list_lookup_total_alter.
  case_decide as Hr; [destruct Hr as [-> _]|]; done.
Qed.

Lemma shows_for_each {A} (l : list A) (body : A -> M unit) :
  (forall x, keeps_appearance r (body x)) -> keeps_appearance r (for_each l body).
Proof.
  intros Hbody. induction l as [|x l IH]; simpl.
  - apply shows_ret.
  - apply shows_bind; [apply Hbody|done].
Qed.

Lemma shows_when c (body : M unit) :
  keeps_appearance r body -> keeps_appearance r (when c body).
Proof. intros H. destruct c; [done|apply shows_ret]. Qed.
End Appearance.

Ltac appearance_step :=
  lazymatch goal with
  | |- keeps_appearance _ (bind _ _) => apply shows_bind; [|intros]
  | |- keeps_appearance _ (ret _) => apply shows_ret
  | |- keeps_appearance _ get_self => apply shows_get_self
  | |- keeps_appearance _ (get_button _) => apply shows_get_button
  | |- keeps_appearance _ (assign _) => apply shows_assign
  | |- keeps_appearance _ (set_button _ (PaginatorButton.set_disabled _)) =>
      apply shows_set_disabled
  | |- keeps_appearance _ (for_each _ _) => apply shows_for_each; intros
  | |- keeps_appearance _ (when _ _) => apply shows_when
  | |- keeps_appearance _ (match ?x with _ => _ end) => destruct x
  end.

Ltac appearance_steps := repeat appearance_step.

Lemma shows_add_item r item : keeps_appearance r (add_item item).
Proof. unfold add_item. appearance_steps. Qed.

Lemma shows_remove_item r item : keeps_appearance r (remove_item item).
Proof. unfold remove_item. appearance_steps. Qed.

Lemma shows_add_menu r : keeps_appearance r add_menu.
Proof. unfold add_menu. appearance_steps; auto using shows_add_item. Qed.

Lemma shows_update_custom_view r view :
  keeps_appearance r (update_custom_view view).
Proof.
  unfold update_custom_view.
  appearance_steps; auto using shows_add_item, shows_remove_item.
Qed.

Lemma shows_render_button r entry : keeps_appearance r (render_button entry).
Proof.
  unfold render_button. destruct entry as [key r'].
  appearance_steps; auto using shows_add_item.
Qed.

(** Running the statements of [update_buttons] that set a button. *)

Lemma the_button_run key r w :
  dict_get key (buttons (obj w)) = Some r -> the_button key w = (w, Ok r).
Proof. intros Hkey. unfold the_button, bind, get_self. by rewrite Hkey. Qed.

Lemma the_button_cases key w w' res :
  the_button key w = (w', res) ->
  w' = w /\
  (res = Raise (KeyError key) \/
   exists r, res = Ok r /\ dict_get key (buttons (obj w)) = Some r).
Proof.
  unfold the_button, bind, get_self.
  destruct (dict_get key (buttons (obj w))) as [r|]; intros [= <- <-]; eauto.
Qed.

Lemma bind_return {A B} (a : A) (k : A -> M B) w : bind (ret a) k w = k a w.
Proof. reflexivity. Qed.

Lemma bind_set_button {B} r f (k : unit -> M B) w :
  bind (set_button r f) k w = k tt (mkWorld (alter f r (store w)) (obj w) (log w)).
Proof. reflexivity. Qed.

Lemma alter_read (f : PaginatorButton.t -> PaginatorButton.t -> PaginatorButton.t)
    (r : nat) (l : list PaginatorButton.t) :
  alter (f (l !!! r)) r l = alter (fun b => f b b) r l.
Proof.
  apply list_eq. intros i. destruct (decide (r = i)) as [<-|Hne].
  - rewrite !list_lookup_alter_eq.
    destruct (l !! r) as [b|] eqn:Hb; [|done].
    by rewrite (list_lookup_total_correct _ _ _ Hb).
  - by rewrite !list_lookup_alter_ne.
Qed.

Lemma bind_reset_label {B} (r : nat) (k : unit -> M B) w :
  bind (reset_label r) k w
    = k tt (mkWorld
              (alter (fun b => PaginatorButton.set_label
                                 (PaginatorButton._label b) b) r (store w))
              (obj w) (log w)).
Proof.
  rewrite <- (alter_read (fun b0 b => PaginatorButton.set_label
                                        (PaginatorButton._label b0) b)).
  reflexivity.
Qed.

Lemma bind_use_loop_label {B} (r : nat) (k : unit -> M B) w :
  bind (use_loop_label r) k w
    = k tt (mkWorld
              (alter (fun b => PaginatorButton.set_label
                                 (PaginatorButton.loop_label b) b) r (store w))
              (obj w) (log w)).
Proof.
  rewrite <- (alter_read (fun b0 b => PaginatorButton.set_label
                                        (PaginatorButton.loop_label b0) b)).
  reflexivity.
Qed.

Lemma bind_hide_reset {B} (r : nat) v (k : unit -> M B) w :
  bind (set_button r (PaginatorButton.set_hidden v);; reset_label r) k w
    = k tt (mkWorld
              (alter (fun b => PaginatorButton.set_label
                                 (PaginatorButton._label b) b) r
                 (alter (PaginatorButton.set_hidden v) r (store w)))
              (obj w) (log w)).
Proof.
  change (bind (set_button r (PaginatorButton.set_hidden v);; reset_label r)
            k w)
    with (bind (reset_label r) k
            (mkWorld (alter (PaginatorButton.set_hidden v) r (store w))
               (obj w) (log w))).
  by rewrite bind_reset_label.
Qed.

(** Two keys of a registry that holds each object once lead to two objects. *)
Lemma dict_get_In {K V} `{EqDecision K} (k : K) (v : V) (d : dict K V) :
  dict_get k d = Some v -> (k, v) ∈ d.
Proof.
  induction d as [|[k' v'] d IH]; simpl; [done|].
  case_decide as Hk; [intros [= ->]; subst; left|right; auto].
Qed.

Lemma registry_distinct (d : dict PaginatorButtonType.t ref) k1 k2 r1 r2 :
  NoDup d.*2 -> dict_get k1 d = Some r1 -> dict_get k2 d = Some r2 ->
  k1 <> k2 -> r1 <> r2.
Proof.
  intros Hnodup H1%dict_get_In H2%dict_get_In Hk ->.
  apply list_elem_of_lookup in H1 as [i Hi], H2 as [j Hj].
  assert (i = j) as ->.
  { eapply NoDup_lookup; [exact Hnodup| |];
      rewrite list_lookup_fmap; [by rewrite Hi|by rewrite Hj]. }
  congruence.
Qed.

Lemma the_button_set_appearance key f (r : nat) w w' res :
  bind (the_button key) (fun x => set_button x f) w = (w', res) ->
  (forall ri, dict_get key (buttons (obj w)) = Some ri -> ri <> r) ->
  appearance r w' = appearance r w.
Proof.
  intros Hrun Hother.
  apply bind_cases in Hrun as [(w1 & ri & Hkey & Hset)|(e & Hkey & _)];
    apply the_button_cases in Hkey as [-> Hkey]; [|done].
  destruct Hkey as [[=]|(? & [= <-] & Hri)].
  injection Hset as <- _. unfold appearance. simpl.
  rewrite list_lookup_total_alter_ne; [done|]. by apply Hother.
Qed.

(** The table of [next] and [prev]: when the registry holds each button
    object once and has the four navigation buttons, [update_buttons]
    leaves [next] and [prev] showing as [next_shows] and [prev_shows] say,
    whether it returns or raises at the page indicator. *)
Lemma update_buttons_table (w w' : World) (res : result unit) (rn rp : nat)
    (b_next b_prev : PaginatorButton.t) :
  NoDup (buttons (obj w)).*2 ->
  is_Some (dict_get PaginatorButtonType.first (buttons (obj w))) ->
  is_Some (dict_get PaginatorButtonType.last (buttons (obj w))) ->
  dict_get PaginatorButtonType.next (buttons (obj w)) = Some rn ->
  dict_get PaginatorButtonType.prev (buttons (obj w)) = Some rp ->
  store w !! rn = Some b_next ->
  store w !! rp = Some b_prev ->
  update_buttons w = (w', res) ->
  appearance rn w' = next_shows (obj w) b_next /\
  appearance rp w' = prev_shows (obj w) b_prev.
Proof.
  intros Hnodup [rf Hfirst] [rl Hlast] Hnext Hprev Hbn Hbp Hrun.
  assert (rf <> rn /\ rl <> rn /\ rp <> rn /\ rf <> rp /\ rl <> rp /\ rn <> rp)
    as (Hfn & Hln & Hpn & Hfp & Hlp & Hnp)
    by (repeat split; eapply registry_distinct; eauto; discriminate).
  assert (forall ri,
            dict_get PaginatorButtonType.page_indicator (buttons (obj w))
              = Some ri -> ri <> rn /\ ri <> rp) as Hindicator
    by (intros ri Hri; split; eapply registry_distinct; eauto; discriminate).
  pose proof (lookup_lt_Some _ _ _ Hbn) as Hrn.
  pose proof (lookup_lt_Some _ _ _ Hbp) as Hrp.
  pose proof (list_lookup_total_correct _ _ _ Hbn) as Hbn'.
  pose proof (list_lookup_total_correct _ _ _ Hbp) as Hbp'.
  unfold update_buttons in Hrun. rewrite bind_get_self in Hrun.
  erewrite bind_ok in Hrun; [|by apply the_button_run].
  rewrite bind_set_button in Hrun.
  erewrite bind_ok in Hrun; [|by apply the_button_run].
  rewrite bind_set_button in Hrun.
  erewrite bind_ok in Hrun; [|by apply the_button_run].
  (* the frame of what follows the four buttons *)
  assert (Hrest : forall (r : nat) w0 (rest : M unit),
            (forall ri,
               dict_get PaginatorButtonType.page_indicator (buttons (obj w0))
                 = Some ri -> ri <> r) ->
            keeps_appearance r rest ->
            forall f,
            (clear_items;;
             (if show_indicator (obj w)
              then let* indicator := the_button PaginatorButtonType.page_indicator
                   in set_button indicator f
              else ret tt);; rest) w0 = (w', res) ->
            appearance r w' = appearance r w0).
  { intros r w0 rest Hri Hkeeps f Hrest. unfold clear_items in Hrest.
    rewrite bind_assign in Hrest.
    apply bind_cases in Hrest as [(w1 & [] & Hind & Hrest)|(e & Hind & _)].
    - specialize (Hkeeps w1). rewrite Hrest in Hkeeps. simpl in Hkeeps.
      rewrite Hkeeps.
      destruct (show_indicator (obj w)).
      + apply (the_button_set_appearance _ _ r) in Hind; [done|exact Hri].
      + by injection Hind as <-.
    - destruct (show_indicator (obj w)); [|done].
      apply (the_button_set_appearance _ _ r) in Hind; [done|exact Hri]. }
  unfold next_shows, prev_shows.
  destruct (current_page (obj w) =? page_count (obj w)),
    (loop_pages (obj w)), (current_page (obj w) <? page_count (obj w)),
    (current_page (obj w) <=? 0) eqn:Hfirst_page,
    (0 <=? current_page (obj w)) eqn:Hlater_page;
    simpl in Hrun;
    rewrite ?bind_hide_reset, ?bind_use_loop_label, ?bind_return in Hrun;
    (erewrite bind_ok in Hrun; [|by apply the_button_run]);
    rewrite ?bind_hide_reset, ?bind_use_loop_label, ?bind_return in Hrun;
    (split;
     (erewrite Hrest; [|..|exact Hrun];
      [|intros ri Hri; by destruct (Hindicator ri Hri)
       |appearance_steps;
          auto using shows_render_button, shows_add_menu,
            shows_update_custom_view])).
  all: unfold appearance; simpl.
  all: repeat first
         [ rewrite list_lookup_total_alter_ne by done
         | rewrite list_lookup_total_alter_eq
             by (rewrite ?length_alter; done) ].
  all: rewrite ?Hbn', ?Hbp'; try done.
  all: exfalso; apply Z.leb_gt in Hfirst_page, Hlater_page; lia.
Qed.

(** The table in the words of the specification, for a current page that is
    not beyond the last one.  Without looping, [next] is hidden exactly on
    the last page and [prev] exactly on the first, both with their own
    labels; on an interior page both are shown with their own labels; with
    looping, at either end the button gets its loop label and keeps the
    [hidden] flag it had. *)
Lemma update_buttons_branches (w w' : World) (res : result unit) (rn rp : nat)
    (b_next b_prev : PaginatorButton.t) :
  NoDup (buttons (obj w)).*2 ->
  is_Some (dict_get PaginatorButtonType.first (buttons (obj w))) ->
  is_Some (dict_get PaginatorButtonType.last (buttons (obj w))) ->
  dict_get PaginatorButtonType.next (buttons (obj w)) = Some rn ->
  dict_get PaginatorButtonType.prev (buttons (obj w)) = Some rp ->
  store w !! rn = Some b_next ->
  store w !! rp = Some b_prev ->
  update_buttons w = (w', res) ->
  current_page (obj w) <= page_count (obj w) ->
  (loop_pages (obj w) = false ->
   ((appearance rn w').1 = true <-> current_page (obj w) = page_count (obj w)) /\
   ((appearance rp w').1 = true <-> current_page (obj w) <= 0) /\
   (appearance rn w').2 = PaginatorButton._label b_next /\
   (appearance rp w').2 = PaginatorButton._label b_prev) /\
  (loop_pages (obj w) = true ->
   (current_page (obj w) <= 0 ->
    appearance rp w'
      = (PaginatorButton.hidden b_prev, PaginatorButton.loop_label b_prev)) /\
   (current_page (obj w) = page_count (obj w) ->
    appearance rn w'
      = (PaginatorButton.hidden b_next, PaginatorButton.loop_label b_next))) /\
  (0 < current_page (obj w) < page_count (obj w) ->
   appearance rn w' = (false, PaginatorButton._label b_next) /\
   appearance rp w' = (false, PaginatorButton._label b_prev)).
Proof.
  intros Hnodup Hfirst Hlast Hnext Hprev Hbn Hbp Hrun Hrange.
  destruct (update_buttons_table w w' res rn rp b_next b_prev)
    as [-> ->]; try done.
  unfold next_shows, prev_shows.
  destruct (Z.eqb_spec (current_page (obj w)) (page_count (obj w))),
    (Z.ltb_spec (current_page (obj w)) (page_count (obj w))),
    (Z.leb_spec (current_page (obj w)) 0);
    try lia;
    (split; [intros Hloop|split; [intros Hloop|intros ?]];
     rewrite ?Hloop; simpl; repeat split; try done; try lia).
Qed.

(** * The claims *)

(** ** The range of [current_page] *)

(** C1, as amended: a paginator that the constructor returns has
    [current_page = 0] and [page_count = max(len(pages) - 1, 0)], so its
    current page is in range; after an [update] that returns normally,
    [page_count = max(len(pages) - 1, 0)] and [current_page] is the page
    number asked for if that is at most [page_count], else 0, so the current
    page is in range exactly when the page number asked for is not negative;
    however [update] ends, a current page that was in range before and a page
    number that is not negative leave the current page in range;
    [goto_page n] sets [current_page] to [n] as given and keeps
    [page_count], so the current page is in range afterwards exactly when
    [0 <= n <= page_count]. *)
Theorem current_page_range :
  (forall a objects w,
     __init__ a objects = Ok w ->
     current_page (obj w) = 0 /\
     page_count (obj w) = count_pages (pages (obj w)) /\
     in_range (obj w)) /\
  (forall a w w',
     update a w = (w', Ok tt) ->
     page_count (obj w') = count_pages (pages (obj w')) /\
     current_page (obj w')
       = (if UpdateArgs.current_page a <=? page_count (obj w')
          then UpdateArgs.current_page a else 0) /\
     (in_range (obj w') <-> 0 <= UpdateArgs.current_page a)) /\
  (forall a w,
     in_range (obj w) ->
     0 <= UpdateArgs.current_page a ->
     in_range (obj (update a w).1)) /\
  (forall page_number interaction w,
     current_page (obj (goto_page page_number interaction w).1) = page_number /\
     page_count (obj (goto_page page_number interaction w).1)
       = page_count (obj w) /\
     (in_range (obj (goto_page page_number interaction w).1) <->
      0 <= page_number <= page_count (obj w))).
Proof.
  split; [|split; [|split]].
  - intros a objects w [Hcurrent Hcount]%init_navigation.
    unfold in_range. rewrite Hcurrent, Hcount.
    pose proof (count_pages_nonneg (pages (obj w))). auto with lia.
  - intros a w w' [Hcount Hcurrent]%update_navigation.
    split; [done|]. split; [done|]. unfold in_range. rewrite Hcurrent.
    pose proof (count_pages_nonneg (pages (obj w'))).
    destruct (Z.leb_spec (UpdateArgs.current_page a) (page_count (obj w')));
      lia.
  - apply update_keeps_range.
  - intros n i w.
    pose proof (goto_page_frame current_page n i w) as Hcurrent.
    pose proof (goto_page_frame page_count n i w) as Hcount.
    unfold in_range. rewrite Hcurrent, Hcount by done.
    by destruct w as [? [] ?].
Qed.

Lemma current_page_range_witness :
  in_range (obj Sample.fresh) /\
  in_range (obj (Sample.after (update (Sample.show_page 1)) Sample.sent)) /\
  in_range (obj (update (Sample.show_page 1) Sample.fresh).1) /\
  (in_range (obj (goto_page 2 None Sample.sent).1) <->
   0 <= 2 <= page_count (obj Sample.sent)).
Proof.
  destruct current_page_range as (Hinit & Hupdate & Hraise & Hgoto).
  split; [|split; [|split]].
  - apply (Hinit (InitArgs.defaults Sample.three_pages) []).
    vm_compute; reflexivity.
  - apply (Hupdate (Sample.show_page 1) Sample.sent).
    + vm_compute; reflexivity.
    + unfold Sample.show_page; simpl; lia.
  - apply (Hraise (Sample.show_page 1) Sample.fresh).
    + apply (Hinit (InitArgs.defaults Sample.three_pages) []).
      vm_compute; reflexivity.
    + unfold Sample.show_page; simpl; lia.
  - apply Hgoto.
Defined.

(** C1 as stated fails.  On a sent paginator of three pages [goto_page(-1)]
    returns normally (the index [-1] is the last page) and leaves
    [current_page = -1]; [goto_page(5)] leaves [current_page = 5] above
    [page_count = 2]; [update(current_page=-1)] returns normally and leaves
    [current_page = -1].  Moved to its last page and then updated with two
    page groups that are both flagged default, the paginator is left by the
    [ValueError] with [current_page = 2] and [page_count = 2] over a page
    list of two elements, where [max(len(pages) - 1, 0)] is 1. *)
Lemma current_page_leaves_range :
  __init__ (InitArgs.defaults Sample.three_pages) [] = Ok Sample.fresh /\
  send Sample.channel Sample.first_message Sample.fresh
    = (Sample.sent, Ok Sample.first_message) /\
  (goto_page (-1) None Sample.sent).2 = Ok tt /\
  ~ in_range (obj (goto_page (-1) None Sample.sent).1) /\
  ~ in_range (obj (goto_page 5 None Sample.sent).1) /\
  (update (Sample.show_page (-1)) Sample.sent).2 = Ok tt /\
  current_page (obj (update (Sample.show_page (-1)) Sample.sent).1) = -1 /\
  ~ in_range (obj (update (Sample.show_page (-1)) Sample.sent).1) /\
  (let last := (goto_page 2 None Sample.sent).1 in
   let two_defaults :=
     Sample.new_pages
       [Sample.group "a" ["x"] true; Sample.group "b" ["y"] true] in
   (goto_page 2 None Sample.sent).2 = Ok tt /\
   in_range (obj last) /\
   page_count (obj last) = count_pages (pages (obj last)) /\
   (update two_defaults last).2 = Raise ConfigurationError /\
   current_page (obj (update two_defaults last).1) = 2 /\
   page_count (obj (update two_defaults last).1) = 2 /\
   count_pages (pages (obj (update two_defaults last).1)) = 1).
Proof.
  split; [vm_compute; reflexivity|].
  split; [vm_compute; reflexivity|].
  split; [vm_compute; reflexivity|].
  split; [|split; [|split; [|split; [|split]]]].
  - assert (current_page (obj (goto_page (-1) None Sample.sent).1) = -1)
      as Hcurrent by (vm_compute; reflexivity).
    unfold in_range. rewrite Hcurrent. lia.
  - assert (current_page (obj (goto_page 5 None Sample.sent).1) = 5
            /\ page_count (obj (goto_page 5 None Sample.sent).1) = 2)
      as [Hcurrent Hcount] by (vm_compute; split; reflexivity).
    unfold in_range. rewrite Hcurrent, Hcount. lia.
  - vm_compute; reflexivity.
  - vm_compute; reflexivity.
  - assert (current_page
              (obj (update (Sample.show_page (-1)) Sample.sent).1) = -1)
      as Hcurrent by (vm_compute; reflexivity).
    unfold in_range. rewrite Hcurrent. lia.
  - cbv zeta. split; [vm_compute; reflexivity|]. split.
    + assert (current_page (obj (goto_page 2 None Sample.sent).1) = 2
              /\ page_count (obj (goto_page 2 None Sample.sent).1) = 2)
        as [Hcurrent Hcount] by (vm_compute; split; reflexivity).
      unfold in_range. rewrite Hcurrent, Hcount. lia.
    + repeat split; vm_compute; reflexivity.
Qed.


(** ** Page groups without a default *)

(** C2, what the code does: when every element of the page list is a page
    group and none is flagged default, the constructor raises the
    [ValueError] of [self.page_groups.index(None)] and returns no paginator;
    with [show_menu] false (its default) it returns no paginator for any
    list of page groups, flagged or not, because the lookup is then made in
    the empty list. *)
Theorem init_page_groups_raise (a : InitArgs.t)
    (objects : list PaginatorButton.t) :
  (Forall (fun x => exists pg, x = Group pg /\ PageGroup.default pg = false)
     (InitArgs.pages a) ->
   __init__ a objects = Raise NotInList) /\
  (forallb is_PageGroup (InitArgs.pages a) = true ->
   InitArgs.show_menu a = false ->
   __init__ a objects = Raise NotInList \/
   __init__ a objects = Raise ConfigurationError).
Proof.
  unfold __init__. split.
  - intros Hgroups. pose proof Hgroups as ->%scan_without_default. simpl.
    rewrite (proj2 (py_index_no_default _)); [done|].
    destruct (InitArgs.show_menu a); [|apply not_elem_of_nil].
    intros Hin. rewrite Forall_forall in Hgroups.
    by destruct (Hgroups _ Hin) as (pg & [=] & _).
  - intros Hall ->.
    destruct (scan_page_groups _ _) as [[all_groups found]|e] eqn:Hscan.
    + apply scan_all_groups in Hscan as ->; [|done]. by left.
    + apply scan_page_groups_raises in Hscan as ->. by right.
Qed.

Lemma init_page_groups_raise_witness :
  __init__ (InitArgs.defaults [Sample.group "a" ["x"; "y"] false;
                               Sample.group "b" ["z"] false]) []
    = Raise NotInList /\
  (__init__ (InitArgs.defaults [Sample.group "a" ["x"; "y"] true;
                                Sample.group "b" ["z"] false]) []
     = Raise NotInList \/
   __init__ (InitArgs.defaults [Sample.group "a" ["x"; "y"] true;
                                Sample.group "b" ["z"] false]) []
     = Raise ConfigurationError).
Proof.
  split.
  - apply init_page_groups_raise.
    repeat constructor; eexists; split; reflexivity.
  - apply init_page_groups_raise; vm_compute; reflexivity.
Defined.

(** ** A failed [update] *)

(** C3, as amended: when [update] raises a [ValueError] (its validation
    error about a second page group flagged default, or the error that
    escapes from the lookup of the default group), or raises because the
    content of the default group it was passed cannot be normalised,
    [page_count], [current_page], the configuration other than [show_menu],
    the button registry and the button objects are as they were before the
    call; [pages] however already holds the list that was passed (if it was
    not empty) and [show_menu] the value that was passed.  After the error
    about a second default group [page_groups] and [default_page_group] are
    unchanged as well; after any other of these errors the list passed held
    page groups only and [page_groups] has been replaced. *)
Theorem update_validation_error_frame (a : UpdateArgs.t) (w w' : World)
    (e : exn) :
  update a w = (w', Raise e) ->
  (exists msg, e = ValueError msg) \/ default_group_fails a e ->
  page_count (obj w') = page_count (obj w) /\
  current_page (obj w') = current_page (obj w) /\
  buttons (obj w') = buttons (obj w) /\
  store w' = store w /\
  custom_buttons (obj w') = custom_buttons (obj w) /\
  (show_disabled (obj w'), show_indicator (obj w'), usercheck (obj w'),
   menu_placeholder (obj w'), disable_on_timeout (obj w'),
   use_default_buttons (obj w'), default_button_row (obj w'),
   loop_pages (obj w'))
  = (show_disabled (obj w), show_indicator (obj w), usercheck (obj w),
     menu_placeholder (obj w), disable_on_timeout (obj w),
     use_default_buttons (obj w), default_button_row (obj w),
     loop_pages (obj w)) /\
  (custom_view (obj w'), timeout (obj w'), trigger_on_display (obj w'),
   users (obj w'))
  = (custom_view (obj w), timeout (obj w), trigger_on_display (obj w),
     users (obj w)) /\
  pages (obj w') = (if nonempty (UpdateArgs.pages a)
                    then default [] (UpdateArgs.pages a)
                    else pages (obj w)) /\
  show_menu (obj w') = default (show_menu (obj w)) (UpdateArgs.show_menu a) /\
  (e = ConfigurationError ->
   page_groups (obj w') = page_groups (obj w) /\
   default_page_group (obj w') = default_page_group (obj w)) /\
  (e <> ConfigurationError ->
   (exists l, UpdateArgs.pages a = Some l /\ forallb is_PageGroup l = true) /\
   page_groups (obj w')
   = Some (if truthy (UpdateArgs.show_menu a) then pages (obj w') else [])).
Proof.
  intros Hrun [[msg ->]|(l & pg & Hpages & Hall & Hmenu & Hflagged & Hcontent)].
  - revert Hrun. unfold update. rewrite !bind_assign. intros Hrun.
    apply bind_cases in Hrun as [(w1 & [] & _ & Hrun)|(e & Hscan & [= <-])].
    { (* the error would come from what follows the scan *)
      exfalso. apply (raises_run not_ValueError) in Hrun; [done|].
      method_steps;
        auto using assign_given_raises, assign_supplied_raises,
          add_button_raises, add_default_buttons_raises, goto_page_raises. }
    destruct (UpdateArgs.pages a) as [new_pages|] eqn:Hpages; [|done].
    apply bind_cases in Hscan
      as [(w1 & [all_groups default_group] & Hw1 & Hrun)
         |(e' & Hscan & [= <-])].
    + (* the scan passed: only the lookup of the default group is left *)
      injection Hw1 as <- Hscan.
      rewrite scan_page_groups_spec in Hscan. case_decide; [done|].
      injection Hscan as <- _.
      destruct (forallb is_PageGroup new_pages) eqn:Hall; [|done].
      rewrite bind_get_self, bind_assign in Hrun.
      apply bind_cases in Hrun as [(w1 & i & _ & Hrun)|(e' & Hindex & [= <-])].
      { exfalso. apply (raises_run not_ValueError) in Hrun; [done|].
        method_steps; apply raises_lift; intros e1 He1.
        - by apply py_getitem_raises in He1 as ->.
        - by apply get_page_group_content_raises in He1. }
      injection Hindex as <- Hindex%py_index_raises.
      rewrite Hindex. simpl. repeat split; eauto; discriminate.
    + (* the scan found a second default group *)
      injection Hscan as <- Hscan%scan_page_groups_raises.
      rewrite Hscan. simpl. repeat split; auto; done.
  - (* the scan passed and the default group was found *)
    assert (Group pg ∈ l) as Hin.
    { apply leading_groups_elem.
      assert (pg ∈ List.filter PageGroup.default (leading_groups l)) as Hpg
        by (rewrite Hflagged; apply list_elem_of_here).
      by apply list_elem_of_In, filter_In, proj1, list_elem_of_In in Hpg. }
    destruct (list_find_index_Some (is_default_group (Some pg)) l (Group pg))
      as (i & y & Hi & Hlookup & Hy); [done|by apply bool_decide_eq_true|].
    apply bool_decide_eq_true in Hy. subst y.
    assert (nonempty (Some l) = true) as Hnonempty by (by destruct Hin).
    revert Hrun. unfold update. rewrite !bind_assign, Hpages, Hnonempty.
    rewrite bind_assoc, bind_lift, scan_page_groups_spec.
    unfold leading_defaults. rewrite Hflagged, decide_False by (simpl; lia).
    cbn [result_bind head]. rewrite Hall.
    rewrite !bind_assoc, bind_get_self, bind_assoc, bind_assign.
    rewrite bind_assoc, bind_lift, Hmenu. cbn [obj pages set_show_menu set_pages default].
    unfold id, py_index. rewrite Hi. cbn [result_bind].
    rewrite bind_assoc, bind_assign, bind_assoc, bind_lift.
    rewrite (py_getitem_nat _ _ _ Hlookup). cbn [result_bind].
    rewrite bind_assoc, bind_lift, Hcontent. cbn [result_bind].
    intros [= <-]. simpl.
    apply get_page_group_content_raises in Hcontent.
    repeat split; eauto; subst e; destruct Hcontent.
Qed.

Lemma update_validation_error_frame_witness :
  (let a := Sample.new_pages [Sample.group "a" ["x"] true;
                              Sample.group "b" ["y"] true] in
   let w' := Sample.after (update a) Sample.sent in
   page_count (obj w') = page_count (obj Sample.sent) /\
   current_page (obj w') = current_page (obj Sample.sent) /\
   buttons (obj w') = buttons (obj Sample.sent) /\
   store w' = store Sample.sent) /\
  (let w' := Sample.after (update Example.mixed_menu) Sample.sent in
   page_count (obj w') = page_count (obj Sample.sent) /\
   current_page (obj w') = current_page (obj Sample.sent) /\
   buttons (obj w') = buttons (obj Sample.sent) /\
   store w' = store Sample.sent).
Proof.
  split.
  - intros a w'.
    destruct (update_validation_error_frame a Sample.sent w'
                ConfigurationError)
      as (Hcount & Hcurrent & Hbuttons & Hstore & _).
    + vm_compute; reflexivity.
    + left. by exists "Only one PageGroup can be set as the default."%string.
    + done.
  - intros w'.
    destruct (update_validation_error_frame Example.mixed_menu Sample.sent w'
                ContentTypeError)
      as (Hcount & Hcurrent & Hbuttons & Hstore & _).
    + vm_compute; reflexivity.
    + right. exists [Group Example.mixed_group], Example.mixed_group.
      repeat split; reflexivity.
    + done.
Defined.

(** C3 as stated fails.  An [update] with two default groups raises, and
    [pages] then holds the two groups instead of the three pages it held;
    passed [show_menu=True] as well, it leaves [show_menu] true where it was
    false.  An [update] with a flat list whose one page has no supported
    type raises its [TypeError] only when [goto_page] renders the page: by
    then [page_count] is 0 where it was 2, and the registry holds five new
    buttons. *)
Lemma update_failure_replaces_pages :
  ((update Example.two_defaults_menu Sample.sent).2
     = Raise ConfigurationError /\
   show_menu (obj Sample.sent) = false /\
   show_menu (obj (update Example.two_defaults_menu Sample.sent).1) = true) /\
  (let a := Sample.new_pages [Sample.group "a" ["x"] true;
                              Sample.group "b" ["y"] true] in
   (update a Sample.sent).2 = Raise ConfigurationError /\
   pages (obj Sample.sent) = Sample.three_pages /\
   pages (obj (update a Sample.sent).1)
     = [Sample.group "a" ["x"] true; Sample.group "b" ["y"] true] /\
   pages (obj (update a Sample.sent).1) <> pages (obj Sample.sent)) /\
  (let w' := (update Example.unsupported_page Sample.sent).1 in
   (update Example.unsupported_page Sample.sent).2
     = Raise UnsupportedContentError /\
   pages (obj w') = [Single Unsupported] /\
   page_count (obj Sample.sent) = 2 /\
   page_count (obj w') = 0 /\
   length (store Sample.sent) = 5%nat /\
   length (store w') = 10%nat /\
   buttons (obj w') <> buttons (obj Sample.sent)).
Proof.
  split; [repeat split; vm_compute; reflexivity|].
  split.
  - intros a.
    assert (pages (obj (update a Sample.sent).1)
            = [Sample.group "a" ["x"] true; Sample.group "b" ["y"] true])
      as Hpages by (vm_compute; reflexivity).
    split; [vm_compute; reflexivity|].
    split; [vm_compute; reflexivity|].
    split; [exact Hpages|].
    rewrite Hpages. discriminate.
  - intros w'.
    assert (buttons (obj w') =
            [(PaginatorButtonType.first, 5%nat);
             (PaginatorButtonType.prev, 6%nat);
             (PaginatorButtonType.page_indicator, 7%nat);
             (PaginatorButtonType.next, 8%nat);
             (PaginatorButtonType.last, 9%nat)])
      as Hbuttons by (vm_compute; reflexivity).
    do 6 (split; [vm_compute; reflexivity|]).
    rewrite Hbuttons. discriminate.
Qed.

(** ** Omitted arguments of [update] *)

(** C4, what the code does with [custom_view]: the parameter defaults to
    [discord.MISSING] but is tested against [None], so an [update] that
    omits it (and passes no pages) stores the sentinel over the view the
    paginator had, while an explicit [None] changes nothing. *)
Theorem update_omitted_custom_view (a : UpdateArgs.t) (w : World) :
  UpdateArgs.pages a = None ->
  (UpdateArgs.custom_view a = MISSING ->
   custom_view (obj (update a w).1) = MISSING) /\
  (UpdateArgs.custom_view a = Supplied None ->
   custom_view (obj (update a w).1) = custom_view (obj w)).
Proof.
  intros Hpages. split; intros Hview.
  - enough (sets custom_view MISSING (update a)) as Hsets by apply Hsets.
    unfold update. rewrite Hpages, Hview. cbv iota.
    repeat lazymatch goal with
    | |- sets _ _ (bind (assign (set_custom_view _)) _) =>
        apply sets_bind_assign; [done|]
    | |- sets _ _ (bind _ _) =>
        apply sets_bind_total;
          [method_steps; auto using assign_given_raises|intros]
    end.
    update_steps;
      auto using keeps_assign_given, keeps_assign_supplied, keeps_add_button,
        keeps_add_default_buttons.
  - enough (keeps custom_view (update a)) as Hkeeps by apply Hkeeps.
    unfold update. rewrite Hpages, Hview. cbv iota.
    update_steps;
      auto using keeps_assign_given, keeps_assign_supplied, keeps_add_button,
        keeps_add_default_buttons.
Qed.

Lemma update_omitted_custom_view_witness :
  custom_view (obj Sample.with_view) = Supplied (Some Sample.view) /\
  custom_view (obj (update UpdateArgs.defaults Sample.with_view).1) = MISSING /\
  custom_view (obj (update Sample.clear_view Sample.with_view).1)
    = custom_view (obj Sample.with_view).
Proof.
  split; [vm_compute; reflexivity|]. split.
  - apply update_omitted_custom_view; reflexivity.
  - apply update_omitted_custom_view; reflexivity.
Defined.

(** ** Removing a button *)

(** C5: [remove_button] raises the lookup error (a [ValueError]) for a button
    type that is not a key of the registry and leaves the paginator as it
    was; for a type that is a key it returns the button stored under it and
    removes that entry, leaving the other entries and the button objects
    alone. *)
Theorem remove_button_spec (w : World) (button_type : PaginatorButtonType.t) :
  (dict_get button_type (buttons (obj w)) = None ->
   remove_button button_type w = (w, Raise (LookupError button_type))) /\
  (forall button,
   dict_get button_type (buttons (obj w)) = Some button ->
   exists w',
     remove_button button_type w = (w', Ok button) /\
     dict_get button_type (buttons (obj w')) = None /\
     (forall other, other <> button_type ->
        dict_get other (buttons (obj w')) = dict_get other (buttons (obj w))) /\
     store w' = store w).
Proof.
  unfold remove_button, bind, get_self. split.
  - intros ->. done.
  - intros button ->. eexists. split; [reflexivity|]. simpl.
    split; [apply dict_get_del_eq|].
    split; [|done]. intros other Hne. by apply dict_get_del_ne.
Qed.

Lemma remove_button_spec_witness :
  __init__ (InitArgs.defaults Sample.three_pages) [] = Ok Sample.fresh /\
  remove_button PaginatorButtonType.custom Sample.fresh
    = (Sample.fresh, Raise (LookupError PaginatorButtonType.custom)) /\
  exists w',
    remove_button PaginatorButtonType.next Sample.fresh = (w', Ok 3%nat) /\
    dict_get PaginatorButtonType.next (buttons (obj w')) = None.
Proof.
  split; [vm_compute; reflexivity|]. split.
  - destruct (remove_button_spec Sample.fresh PaginatorButtonType.custom)
      as [Habsent _].
    apply Habsent. vm_compute; reflexivity.
  - destruct (remove_button_spec Sample.fresh PaginatorButtonType.next)
      as [_ Hpresent].
    destruct (Hpresent 3%nat) as (w' & Hrun & Hgone & _);
      [vm_compute; reflexivity|].
    exists w'. split; [exact Hrun|exact Hgone].
Defined.

(** ** Loop labels and hidden buttons *)

(** C6, what the code does when looping is switched on at the last page: a
    paginator of five pages with the default buttons is sent, moved to the
    last page (which hides [next]) and then updated with [loop_pages=True],
    keeping its buttons.  The recomputation gives [next] its loop label but
    leaves it hidden, and the render disables it.  The same happens to
    [prev] on the first page. *)
Theorem loop_label_on_hidden_button :
  __init__ (InitArgs.defaults Sample.five_pages) [] = Ok Sample.five /\
  send Sample.channel Sample.first_message Sample.five
    = (Sample.five_sent, Ok Sample.first_message) /\
  goto_page 4 None Sample.five_sent = (Sample.five_last, Ok tt) /\
  update (Sample.loop_at 4) Sample.five_last = (Sample.five_looped, Ok tt) /\
  page_count (obj Sample.five_looped) = 4 /\
  current_page (obj Sample.five_looped) = 4 /\
  loop_pages (obj Sample.five_looped) = true /\
  dict_get PaginatorButtonType.next (buttons (obj Sample.five_looped))
    = Some 3%nat /\
  PaginatorButton.hidden (store Sample.five_looped !!! 3%nat) = true /\
  PaginatorButton.disabled (store Sample.five_looped !!! 3%nat) = true /\
  PaginatorButton.label (store Sample.five_looped !!! 3%nat)
    = PaginatorButton.loop_label (store Sample.five_looped !!! 3%nat) /\
  update (Sample.loop_at 0) Sample.five_sent = (Sample.five_looped_first, Ok tt) /\
  current_page (obj Sample.five_looped_first) = 0 /\
  loop_pages (obj Sample.five_looped_first) = true /\
  dict_get PaginatorButtonType.prev (buttons (obj Sample.five_looped_first))
    = Some 1%nat /\
  PaginatorButton.hidden (store Sample.five_looped_first !!! 1%nat) = true /\
  PaginatorButton.label (store Sample.five_looped_first !!! 1%nat)
    = PaginatorButton.loop_label (store Sample.five_looped_first !!! 1%nat).
Proof. repeat split; vm_compute; reflexivity. Qed.

(** ** The ephemeral check of [respond] *)

(** C7: [respond] raises the validation error exactly when [ephemeral] is
    true and the timeout is [None] or at least 900 seconds; otherwise it goes
    on to render.  With [ephemeral] true, a timeout of 600 passes the check,
    and a timeout of [None] or of 900 raises. *)
Theorem respond_validation (w : World) (interaction : Interaction.t)
    (ephemeral : bool) (answer : RespondResult) :
  ((respond interaction ephemeral answer w).2 = Raise ValidationError <->
   ephemeral = true /\
   (timeout (obj w) = None \/
    exists seconds,
      timeout (obj w) = Some seconds /\ PrimFloat.leb 900 seconds = true)) /\
  (timeout (obj w) = Some 600%float ->
   respond interaction true answer w
     = respond_unchecked interaction true answer w) /\
  (timeout (obj w) = None ->
   respond interaction true answer w = (w, Raise ValidationError)) /\
  (timeout (obj w) = Some 900%float ->
   respond interaction true answer w = (w, Raise ValidationError)).
Proof.
  unfold respond, bind, get_self. simpl.
  split; [split|split; [|split]].
  - destruct ephemeral; simpl.
    + destruct (timeout (obj w)) as [seconds|] eqn:Ht; simpl.
      * destruct (PrimFloat.leb 900 seconds) eqn:Hle; simpl; [by eauto 6|].
        intros Hraise. by apply respond_unchecked_raises in Hraise.
      * by eauto.
    + intros Hraise. by apply respond_unchecked_raises in Hraise.
  - intros [-> [->|(seconds & -> & Hle)]]; simpl; [done|]. by rewrite Hle.
  - by intros ->.
  - by intros ->.
  - by intros ->.
Qed.

Lemma respond_validation_witness :
  let answer := RespondedMessage Sample.first_message in
  __init__ (Sample.args Sample.three_pages (Some 600%float) false false) []
    = Ok Sample.timeout_600 /\
  __init__ (Sample.args Sample.three_pages (Some 900%float) false false) []
    = Ok Sample.timeout_900 /\
  __init__ (Sample.args Sample.three_pages None false false) []
    = Ok Sample.timeout_None /\
  respond Sample.alice true answer Sample.timeout_600
    = respond_unchecked Sample.alice true answer Sample.timeout_600 /\
  respond Sample.alice true answer Sample.timeout_None
    = (Sample.timeout_None, Raise ValidationError) /\
  respond Sample.alice true answer Sample.timeout_900
    = (Sample.timeout_900, Raise ValidationError).
Proof.
  intros answer. do 3 (split; [vm_compute; reflexivity|]).
  split; [|split].
  - destruct (respond_validation Sample.timeout_600 Sample.alice true answer)
      as (_ & H600 & _ & _).
    apply H600. vm_compute; reflexivity.
  - destruct (respond_validation Sample.timeout_None Sample.alice true answer)
      as (_ & _ & HNone & _).
    apply HNone. vm_compute; reflexivity.
  - destruct (respond_validation Sample.timeout_900 Sample.alice true answer)
      as (_ & _ & _ & H900).
    apply H900. vm_compute; reflexivity.
Defined.

(** ** Constructing with no pages *)

(** C8: the constructor raises on an empty page list: the scan of the empty
    list reports that all elements are groups and finds no default group, and
    the lookup of that missing default in the group list raises, as
    [index(None)] does on every list that holds no [None]; the group list is
    empty here, whatever [show_menu] says. *)
Theorem init_empty_pages_raises (a : InitArgs.t)
    (objects : list PaginatorButton.t) :
  InitArgs.pages a = [] ->
  scan_page_groups (InitArgs.pages a) None = Ok (true, None) /\
  (forall page_groups,
     py_index (is_default_group None) page_groups = Raise NotInList <->
     Single ANone ∉ page_groups) /\
  __init__ a objects = Raise NotInList.
Proof.
  intros Hpages. unfold __init__. rewrite Hpages. simpl.
  split; [done|]. split; [apply py_index_no_default|].
  by destruct (InitArgs.show_menu a).
Qed.

Lemma init_empty_pages_raises_witness :
  __init__ (InitArgs.defaults []) [] = Raise NotInList.
Proof.
  destruct (init_empty_pages_raises (InitArgs.defaults []) []) as (_ & _ & H);
    [vm_compute; reflexivity|exact H].
Defined.

(** ** The author check without a user set *)

(** C9: with the author check on and [users] left at [None],
    [interaction_check] raises (the membership test on [None] is a
    [TypeError]); it does not return [False]. *)
Theorem interaction_check_without_users (w : World)
    (interaction : Interaction.t) :
  usercheck (obj w) = true ->
  users (obj w) = None ->
  interaction_check interaction w = (w, Raise NoneNotIterable) /\
  (interaction_check interaction w).2 <> Ok false.
Proof.
  intros Hcheck Husers. unfold interaction_check, bind, get_self.
  rewrite Hcheck, Husers. done.
Qed.

Lemma interaction_check_without_users_witness :
  __init__ (Sample.args Sample.three_pages (Some 180%float) true false) []
    = Ok Sample.checked /\
  interaction_check Sample.alice Sample.checked
    = (Sample.checked, Raise NoneNotIterable) /\
  (interaction_check Sample.alice Sample.checked).2 <> Ok false.
Proof.
  split; [vm_compute; reflexivity|].
  apply interaction_check_without_users; vm_compute; reflexivity.
Defined.

(** ** Normalizing an empty list *)

(** C10: [get_page_content([])] returns a page with no content, no embeds
    and no files: "all items are embeds" holds of the empty list, so the
    mixed-content error is not reached. *)
Theorem get_page_content_empty_list :
  forallb is_Embed [] = true /\
  get_page_content (Single (AList [])) = Ok (Page.new None [] []) /\
  Page.content (Page.new None [] []) = None /\
  Page.embeds (Page.new None [] []) = [] /\
  Page.files (Page.new None [] []) = [].
Proof. repeat split. Qed.

(** * Further properties *)

(** ** Page content *)

Lemma forallb_false {A} (p : A -> bool) (l : list A) :
  forallb p l = false <-> exists x, x ∈ l /\ p x = false.
Proof.
  induction l as [|y l IH]; simpl.
  - split; [done|]. by intros (x & ?%elem_of_nil & _).
  - destruct (p y) eqn:Hy; simpl.
    + rewrite IH. split.
      * intros (x & Hx & Hpx). exists x. split; [by right|done].
      * intros (x & [->|Hx]%elem_of_cons & Hpx); [congruence|eauto].
    + split; [|done]. intros _. exists y. split; [by left|done].
Qed.

(** X1: a list given as one page is rejected with "All list items must be
    embeds or files." exactly when it holds an item that is not an embed
    and an item that is not a file; every other list is accepted. *)
Theorem get_page_content_mixed_list (l : list ListItem) :
  (get_page_content (Single (AList l)) = Raise ContentTypeError <->
   (exists x, x ∈ l /\ is_Embed x = false) /\
   (exists y, y ∈ l /\ is_File y = false)) /\
  (forall e, get_page_content (Single (AList l)) = Raise e ->
             e = ContentTypeError).
Proof.
  unfold get_page_content. rewrite <- !forallb_false.
  destruct (forallb is_Embed l), (forallb is_File l); split;
    first [by intros e [= <-] | done | split; [done|by intros [? ?]] | idtac].
Qed.

Lemma the_embeds_embeds (es : list Embed) : the_embeds (EmbedItem <$> es) = es.
Proof.
  unfold the_embeds. induction es as [|e es IH]; simpl; [done|].
  f_equal. exact IH.
Qed.

Lemma the_files_files (fs : list File) : the_files (FileItem <$> fs) = fs.
Proof.
  unfold the_files. induction fs as [|f fs IH]; simpl; [done|].
  f_equal. exact IH.
Qed.

Lemma forallb_fmap {A B} (p : B -> bool) (f : A -> B) (l : list A) :
  (forall x, p (f x) = true) -> forallb p (f <$> l) = true.
Proof.
  intros Hp. induction l as [|x l IH]; simpl; [done|].
  rewrite Hp. exact IH.
Qed.

(** X2: a list of embeds becomes a page with exactly those embeds, in
    order, and nothing else; a non-empty list of files becomes a page with
    exactly those files, in order, and nothing else. *)
Theorem get_page_content_homogeneous_list (es : list Embed) (f : File)
    (fs : list File) :
  get_page_content (Single (AList (EmbedItem <$> es)))
    = Ok (Page.new None es []) /\
  get_page_content (Single (AList (FileItem <$> (f :: fs))))
    = Ok (Page.new None [] (f :: fs)).
Proof.
  unfold get_page_content. split.
  - by rewrite forallb_fmap, the_embeds_embeds.
  - change (forallb is_Embed (FileItem <$> f :: fs)) with false. cbv iota.
    by rewrite forallb_fmap, the_files_files.
Qed.

Lemma map_result_Ok {A B} (f : A -> result B) (l : list A) (ys : list B) :
  map_result f l = Ok ys <-> Forall2 (fun x y => f x = Ok y) l ys.
Proof.
  revert ys. induction l as [|x l IH]; intros ys; simpl.
  - split; [by intros [= <-]; constructor|by inversion 1].
  - destruct (f x) as [y|e] eqn:Hx; simpl.
    + destruct (map_result f l) as [ys'|e] eqn:Hl; simpl.
      * split.
        -- intros [= <-]. constructor; [done|]. by apply IH.
        -- inversion 1 as [|? y' ? ys'' Hy Hys]; subst.
           apply IH in Hys. congruence.
      * split; [done|]. inversion 1 as [|? y' ? ys'' Hy Hys]; subst.
        by apply IH in Hys.
    + split; [done|]. inversion 1; congruence.
Qed.

Lemma map_result_Raise {A B} (f : A -> result B) (l : list A) (e : exn) :
  map_result f l = Raise e <->
  exists before x after ys,
    l = before ++ x :: after /\
    Forall2 (fun x y => f x = Ok y) before ys /\
    f x = Raise e.
Proof.
  induction l as [|x l IH]; simpl.
  - split; [done|]. intros (before & ? & ? & ? & Hl & _). by destruct before.
  - split.
    + destruct (f x) as [y|e'] eqn:Hx; simpl.
      * destruct (map_result f l) as [ys'|e'] eqn:Hl; simpl; [done|].
        intros [= ->].
        destruct IH as [(before & x0 & after & ys & -> & Hbefore & Hx0) _];
          [done|].
        exists (x :: before), x0, after, (y :: ys).
        split; [done|]. split; [by constructor|done].
      * intros [= ->]. exists [], x, l, [].
        split; [done|]. split; [constructor|done].
    + intros ([|x' before] & x0 & after & ys & [= ] & Hbefore & Hx0); subst.
      * by rewrite Hx0.
      * inversion Hbefore as [|? y ? ys' Hy Hys]; subst. rewrite Hy. simpl.
        destruct IH as [_ IH]. rewrite IH; [done|]. eauto 10.
Qed.

(** X3: the content of a page group is the normalisation of its pages, one
    for one and in order; it is obtained exactly when every page of the group
    can be normalised, and otherwise the call raises what the first page
    that cannot be normalised raises. *)
Theorem get_page_group_content_spec (pg : PageGroup.t) :
  (forall content,
     get_page_group_content (Group pg) = Ok content <->
     Forall2 (fun page normal => get_page_content (Single page) = Ok normal)
       (PageGroup.pages pg) content) /\
  (forall e,
     get_page_group_content (Group pg) = Raise e <->
     exists before page after content,
       PageGroup.pages pg = before ++ page :: after /\
       Forall2 (fun page normal => get_page_content (Single page) = Ok normal)
         before content /\
       get_page_content (Single page) = Raise e).
Proof.
  unfold get_page_group_content. split.
  - intros content. apply map_result_Ok.
  - intros e. apply map_result_Raise.
Qed.

(** ** Construction *)

(** The buttons and the menu are installed without an exception. *)
Lemma raises_nothing_run {A} (m : M A) w :
  raises (fun _ => False) m -> exists w' a, m w = (w', Ok a).
Proof.
  intros Hm. specialize (Hm w). destruct (m w) as [w' [a|e]]; [eauto|].
  by destruct (Hm e).
Qed.

Lemma add_item_total item : raises (fun _ => False) (add_item item).
Proof. unfold add_item. method_steps. Qed.

Lemma add_menu_total : raises (fun _ => False) add_menu.
Proof. unfold add_menu. method_steps; auto using add_item_total. Qed.

Lemma add_button_total button : raises (fun _ => False) (add_button button).
Proof. unfold add_button. method_steps. Qed.

Lemma add_default_buttons_total : raises (fun _ => False) add_default_buttons.
Proof.
  unfold add_default_buttons. method_steps; auto using add_button_total.
Qed.

(** The constructor, case by case: it raises what the scan of the page list
    raises; for a list with an element that is not a page group it returns a
    paginator over the list as given; for a list of page groups it raises
    what the lookup of the default group or the normalisation of its pages
    raises, and otherwise returns a paginator over the pages of that
    group. *)
Lemma init_spec (a : InitArgs.t) (objects : list PaginatorButton.t) :
  match scan_page_groups (InitArgs.pages a) None with
  | Raise e => __init__ a objects = Raise e
  | Ok (false, _) =>
      exists w, __init__ a objects = Ok w /\
                constructed_from a None 0%nat (InitArgs.pages a) (obj w)
  | Ok (true, default_group) =>
      let page_groups :=
        if InitArgs.show_menu a then InitArgs.pages a else [] in
      match py_index (is_default_group default_group) page_groups with
      | Raise e => __init__ a objects = Raise e
      | Ok i =>
          match py_getitem page_groups (Z.of_nat i) with
          | Raise e => __init__ a objects = Raise e
          | Ok page_group =>
              match get_page_group_content page_group with
              | Raise e => __init__ a objects = Raise e
              | Ok content =>
                  exists w, __init__ a objects = Ok w /\
                            constructed_from a (Some page_groups) i
                              (as_pages content) (obj w)
              end
          end
      end
  end.
Proof.
  unfold __init__.
  destruct (scan_page_groups _ _) as [[all_groups default_group]|e]; [|done].
  simpl.
  assert (Hinstall : forall self : t,
    exists w,
      match
        ((match InitArgs.custom_buttons a with
          | Some custom =>
              if negb (InitArgs.use_default_buttons a)
              then for_each custom add_button
              else if negb (nonempty (Some custom)) then add_default_buttons
                   else ret tt
          | None =>
              if InitArgs.use_default_buttons a then add_default_buttons
              else ret tt
          end;; when (InitArgs.show_menu a) add_menu)
           (mkWorld objects self []))
      with
      | (w, Ok _) => Ok w
      | (_, Raise e) => Raise e
      end = Ok w /\ settings (obj w) = settings self).
  { intros self.
    match goal with
    | |- context [bind ?m ?k ?w0] =>
        assert (Htotal : raises (fun _ => False) (bind m k));
        [|assert (Hkeeps : keeps settings (bind m k));
          [|specialize (Hkeeps w0);
            destruct (raises_nothing_run (bind m k) w0 Htotal)
              as (w1 & [] & Hrun); rewrite Hrun in *; eauto]]
    end.
    - method_steps;
        auto using add_button_total, add_default_buttons_total, add_menu_total.
    - method_steps;
        auto using keeps_add_button, keeps_add_default_buttons, keeps_add_menu. }
  destruct all_groups; simpl.
  - destruct (py_index _ _) as [i|e]; simpl; [|done].
    destruct (py_getitem _ _) as [page_group|e]; simpl; [|done].
    destruct (get_page_group_content _) as [content|e]; simpl; [|done].
    edestruct Hinstall as (w & Hw & Hsettings).
    exists w. split; [exact Hw|].
    unfold settings in Hsettings. simpl in Hsettings.
    injection Hsettings as ?. unfold constructed_from. by repeat split.
  - edestruct Hinstall as (w & Hw & Hsettings).
    exists w. split; [exact Hw|].
    unfold settings in Hsettings. simpl in Hsettings.
    injection Hsettings as ?. unfold constructed_from. by repeat split.
Qed.

Lemma leading_groups_app (before : list PageGroup.t) (rest : list PagesItem) :
  leading_groups ((Group <$> before) ++ rest) = before ++ leading_groups rest.
Proof. induction before as [|pg l IH]; simpl; [done|]. f_equal. exact IH. Qed.

Lemma all_groups_app (before : list PageGroup.t) (rest : list PagesItem) :
  forallb is_PageGroup ((Group <$> before) ++ rest) = forallb is_PageGroup rest.
Proof. induction before as [|pg l IH]; simpl; [done|exact IH]. Qed.

Lemma filter_none_flagged (groups : list PageGroup.t) :
  Forall (fun pg => PageGroup.default pg = false) groups ->
  List.filter PageGroup.default groups = [].
Proof. induction 1 as [|pg l Hpg _ IH]; simpl; [done|]. by rewrite Hpg. Qed.

Lemma list_find_index_app {A} (p : A -> bool) (before : list A) (x : A)
    (after : list A) :
  Forall (fun y => p y = false) before -> p x = true ->
  list_find_index p (before ++ x :: after) = Some (length before).
Proof.
  intros Hbefore Hx. induction Hbefore as [|y l Hy _ IH]; simpl.
  - by rewrite Hx.
  - by rewrite Hy, IH.
Qed.

(** X4: the constructor raises "Only one PageGroup can be set as the
    default." exactly when, among the page groups that the page list starts
    with, two or more are flagged default; a flagged group that comes after
    an element that is not a page group is never looked at. *)
Theorem init_configuration_error (a : InitArgs.t)
    (objects : list PaginatorButton.t) :
  __init__ a objects = Raise ConfigurationError <->
  (2 <= leading_defaults (InitArgs.pages a))%nat.
Proof.
  pose proof (init_spec a objects) as Hinit.
  rewrite scan_page_groups_spec in Hinit.
  case_decide as Htwo; [split; [lia|done]|].
  split; [|lia]. intros Hraise. rewrite Hraise in Hinit.
  destruct (forallb is_PageGroup _).
  - simpl in Hinit.
    destruct (py_index _ _) as [i|e] eqn:Hindex.
    + destruct (py_getitem _ _) as [page_group|e] eqn:Hitem.
      * destruct (get_page_group_content _) as [content|e] eqn:Hcontent.
        -- by destruct Hinit as (w & [=] & _).
        -- injection Hinit as <-.
           by apply get_page_group_content_raises in Hcontent.
      * injection Hinit as <-. by apply py_getitem_raises in Hitem.
    + injection Hinit as <-. by apply py_index_raises in Hindex.
  - by destruct Hinit as (w & [=] & _).
Qed.

(** X5: with [show_menu] false, a page list with an element that is not a
    page group, and with at most one flagged page group before it, is taken
    as a flat list of pages: the constructor returns a paginator over the
    list exactly as given, on page 0, not yet sent.  Nothing is normalised
    at this point, so the constructor accepts page content of any kind,
    supported or not. *)
Theorem init_flat_list (a : InitArgs.t) (objects : list PaginatorButton.t)
    (before : list PageGroup.t) (page : PageLike) (after : list PagesItem) :
  InitArgs.show_menu a = false ->
  InitArgs.pages a = (Group <$> before) ++ Single page :: after ->
  (length (List.filter PageGroup.default before) <= 1)%nat ->
  exists w,
    __init__ a objects = Ok w /\
    pages (obj w) = InitArgs.pages a /\
    page_groups (obj w) = None /\
    current_page (obj w) = 0 /\
    page_count (obj w) = Z.of_nat (length (InitArgs.pages a)) - 1 /\
    message (obj w) = None /\
    constructed_from a None 0%nat (InitArgs.pages a) (obj w).
Proof.
  intros _ Hpages Hflagged.
  pose proof (init_spec a objects) as Hinit.
  rewrite scan_page_groups_spec in Hinit. unfold leading_defaults in Hinit.
  rewrite Hpages, leading_groups_app, all_groups_app in Hinit.
  simpl in Hinit. rewrite app_nil_r in Hinit.
  rewrite decide_False in Hinit by lia.
  destruct Hinit as (w & Hw & Hfrom). rewrite <- Hpages in Hfrom.
  exists w. split; [exact Hw|].
  pose proof Hfrom as (Hp & Hg & _ & Hc & Hn & Hm & _).
  split; [done|]. split; [done|]. split; [done|]. split; [|done].
  rewrite Hn, Hpages. unfold count_pages.
  rewrite length_app, length_fmap. simpl. lia.
Qed.

Lemma init_flat_list_witness :
  exists w,
    __init__ (InitArgs.defaults [Sample.group "a" ["x"] true; Single Unsupported;
                                 Sample.group "b" ["y"] true]) [] = Ok w /\
    pages (obj w) = [Sample.group "a" ["x"] true; Single Unsupported;
                     Sample.group "b" ["y"] true] /\
    page_count (obj w) = 2.
Proof.
  destruct (init_flat_list
              (InitArgs.defaults [Sample.group "a" ["x"] true;
                                  Single Unsupported;
                                  Sample.group "b" ["y"] true]) []
              [PageGroup.mk [AStr "x"] "a" None None true] Unsupported
              [Sample.group "b" ["y"] true])
    as (w & Hw & Hpages & _ & _ & Hcount & _).
  - reflexivity.
  - reflexivity.
  - simpl. lia.
  - exists w. split; [exact Hw|]. split; [exact Hpages|exact Hcount].
Defined.

(** X6: with the menu shown and exactly one page group flagged default in a
    list of page groups, the constructor returns a paginator over the
    normalised pages of the flagged group, remembers the index of that
    group and keeps the whole list as its page groups; the paginator is on
    page 0 and its page count is that of the group. *)
Theorem init_default_group (a : InitArgs.t) (objects : list PaginatorButton.t)
    (before : list PageGroup.t) (pg : PageGroup.t) (after : list PageGroup.t)
    (content : list Page.t) :
  InitArgs.pages a = (Group <$> before) ++ Group pg :: (Group <$> after) ->
  Forall (fun pg' => PageGroup.default pg' = false) before ->
  Forall (fun pg' => PageGroup.default pg' = false) after ->
  PageGroup.default pg = true ->
  InitArgs.show_menu a = true ->
  Forall2 (fun page normal => get_page_content (Single page) = Ok normal)
    (PageGroup.pages pg) content ->
  exists w,
    __init__ a objects = Ok w /\
    pages (obj w) = as_pages content /\
    default_page_group (obj w) = length before /\
    page_groups (obj w) = Some (InitArgs.pages a) /\
    current_page (obj w) = 0 /\
    page_count (obj w) = Z.max (Z.of_nat (length (PageGroup.pages pg)) - 1) 0.
Proof.
  intros Hpages Hbefore Hafter Hpg Hmenu Hcontent.
  pose proof (init_spec a objects) as Hinit.
  rewrite scan_page_groups_spec in Hinit. unfold leading_defaults in Hinit.
  rewrite Hmenu, Hpages in Hinit.
  replace ((Group <$> before) ++ Group pg :: (Group <$> after))
    with ((Group <$> (before ++ pg :: after)) ++ []) in Hinit
    by (by rewrite app_nil_r, fmap_app).
  rewrite leading_groups_app, all_groups_app in Hinit.
  simpl in Hinit. rewrite !app_nil_r, List.filter_app in Hinit.
  simpl in Hinit.
  rewrite Hpg, !filter_none_flagged in Hinit by done.
  match type of Hinit with
  | context [decide ?P] =>
      destruct (decide P) as [Htwo|_]; [simpl in Htwo; lia|]
  end.
  cbn [app head] in Hinit.
  rewrite fmap_app in Hinit. cbn [fmap list_fmap] in Hinit.
  unfold py_index in Hinit.
  rewrite list_find_index_app in Hinit; cycle 1.
  { apply Forall_fmap. eapply Forall_impl; [exact Hbefore|].
    intros pg' Hpg'. simpl. apply bool_decide_eq_false. intros [= ->].
    congruence. }
  { simpl. by apply bool_decide_eq_true. }
  rewrite length_fmap in Hinit.
  rewrite (py_getitem_nat _ _ (Group pg)) in Hinit; cycle 1.
  { rewrite lookup_app_r, length_fmap, Nat.sub_diag by (by rewrite length_fmap).
    done. }
  apply map_result_Ok in Hcontent.
  unfold get_page_group_content in Hinit. rewrite Hcontent in Hinit.
  destruct Hinit as (w & Hw & Hp & Hg & Hd & Hc & Hn & _).
  exists w. split; [exact Hw|]. split; [exact Hp|]. split; [exact Hd|].
  split; [by rewrite Hg, Hpages|]. split; [exact Hc|].
  rewrite Hn. unfold count_pages, as_pages. rewrite length_map.
  apply map_result_Ok in Hcontent.
  by rewrite (Forall2_length _ _ _ Hcontent).
Qed.

Lemma init_default_group_witness :
  exists w,
    __init__ (InitArgs.mk [Sample.group "a" ["x"] false;
                           Sample.group "b" ["y"; "z"] true]
                true true true "Select Page Group" false true true 0 false
                None (Some 180%float) None None None) [] = Ok w /\
    pages (obj w) = as_pages [Page.new (Some "y") [] []; Page.new (Some "z") [] []] /\
    default_page_group (obj w) = 1%nat.
Proof.
  destruct (init_default_group
              (InitArgs.mk [Sample.group "a" ["x"] false;
                            Sample.group "b" ["y"; "z"] true]
                 true true true "Select Page Group" false true true 0 false
                 None (Some 180%float) None None None) []
              [PageGroup.mk [AStr "x"] "a" None None false]
              (PageGroup.mk [AStr "y"; AStr "z"] "b" None None true) []
              [Page.new (Some "y") [] []; Page.new (Some "z") [] []])
    as (w & Hw & Hpages & Hdefault & _).
  - reflexivity.
  - by repeat constructor.
  - constructor.
  - reflexivity.
  - reflexivity.
  - by repeat constructor.
  - exists w. split; [exact Hw|]. split; [exact Hpages|exact Hdefault].
Defined.

(** ** The button registry *)

Lemma alter_at (f g : PaginatorButton.t -> PaginatorButton.t) (r : nat)
    (l : list PaginatorButton.t) :
  f (l !!! r) = g (l !!! r) -> alter f r l = alter g r l.
Proof.
  intros Hfg. apply list_alter_ext; [|done].
  intros b Hb. by rewrite <- (list_lookup_total_correct _ _ _ Hb).
Qed.

Lemma alter_twice (f g : PaginatorButton.t -> PaginatorButton.t) (r : nat)
    (l : list PaginatorButton.t) :
  alter g r (alter f r l) = alter (g ∘ f) r l.
Proof. apply list_alter_alter_eq. Qed.

Lemma alter_same (f : PaginatorButton.t -> PaginatorButton.t) (r : nat)
    (l : list PaginatorButton.t) :
  f (l !!! r) = l !!! r -> alter f r l = l.
Proof.
  intros Hf. rewrite (alter_at f id) by done. by apply list_alter_id.
Qed.

(** [add_button], run: the object is prepared as [registered] says and
    stored under its own type, replacing what was there. *)
Lemma add_button_run (r : nat) (w : World) :
  add_button r w
  = (mkWorld (alter (registered (obj w)) r (store w))
       (set_buttons
          (dict_set (PaginatorButton.button_type (store w !!! r)) r
             (buttons (obj w))) (obj w))
       (log w), Ok tt).
Proof.
  assert (Hstore : forall b, b = store w !!! r ->
    (if decide (PaginatorButton.button_type b
                = PaginatorButtonType.page_indicator)
     then match PaginatorButton.label b, PaginatorButton.emoji b with
          | None, None =>
              alter (PaginatorButton.set_label
                       (Some (indicator_label (current_page (obj w))
                                (page_count (obj w))))) r
                (alter (PaginatorButton.set_hidden (show_indicator (obj w)))
                   r (store w))
          | _, _ =>
              alter (PaginatorButton.set_hidden (show_indicator (obj w)))
                r (store w)
          end
     else store w) = alter (registered (obj w)) r (store w)).
  { intros b Hb. unfold registered.
    destruct (decide (PaginatorButton.button_type b = _)) as [Ht|Ht].
    - destruct (PaginatorButton.label b) eqn:Hl,
        (PaginatorButton.emoji b) eqn:He;
        rewrite ?alter_twice; apply alter_at; rewrite <- Hb;
        rewrite decide_True by done; simpl; by rewrite ?Hl, ?He.
    - symmetry. apply alter_same. rewrite <- Hb. by rewrite decide_False. }
  unfold add_button, bind, get_button, get_self, set_button, assign, ret.
  cbn [store obj log]. unfold ref.
  generalize (Hstore _ eq_refl). clear Hstore.
  generalize (store w !!! r). intros b <-.
  destruct (decide (PaginatorButton.button_type b = _));
    [destruct (PaginatorButton.label b), (PaginatorButton.emoji b)|]; done.
Qed.

Lemma registered_type self b :
  PaginatorButton.button_type (registered self b)
  = PaginatorButton.button_type b.
Proof. unfold registered. by repeat case_match. Qed.

(** X7: a button that is added can be looked up and removed again:
    after [add_button], the registry holds the button under its own type
    and nothing else has moved; [remove_button] for that type then hands
    the same button back and leaves the type without an entry.  A button
    registered earlier under the same type is replaced. *)
Theorem add_button_round_trip (r : nat) (w : World) :
  let key := PaginatorButton.button_type (store w !!! r) in
  let w1 := (add_button r w).1 in
  dict_get key (buttons (obj w1)) = Some r /\
  (forall other, other <> key ->
     dict_get other (buttons (obj w1)) = dict_get other (buttons (obj w))) /\
  the_button key w1 = (w1, Ok r) /\
  (remove_button key w1).2 = Ok r /\
  dict_get key (buttons (obj (remove_button key w1).1)) = None /\
  (forall other, other <> key ->
     dict_get other (buttons (obj (remove_button key w1).1))
     = dict_get other (buttons (obj w))).
Proof.
  intros key w1. subst w1. rewrite add_button_run. cbn [fst].
  unfold remove_button, bind, get_self. cbn [obj buttons set_buttons].
  fold key. unfold ref.
  assert (Hkey : dict_get key (dict_set key r (buttons (obj w))) = Some r)
    by apply dict_get_set_eq.
  unfold ref in Hkey.
  split; [done|]. split; [intros; by apply dict_get_set_ne|].
  split; [by apply the_button_run|].
  rewrite Hkey. cbn.
  split; [done|]. split; [apply dict_get_del_eq|].
  intros other Hother. rewrite dict_get_del_ne by done.
  by apply dict_get_set_ne.
Qed.

Lemma bind_new_button {B} b (k : ref -> M B) w :
  bind (new_button b) k w
    = k (length (store w)) (mkWorld (store w ++ [b]) (obj w) (log w)).
Proof. reflexivity. Qed.

(** [add_button] on one of the objects at the end of the store. *)
Lemma add_button_appended (l bs : list PaginatorButton.t) (i r : nat)
    (self : t) (trace : list HostCall) :
  (i < length bs)%nat -> r = (length l + i)%nat ->
  add_button r (mkWorld (l ++ bs) self trace)
  = (mkWorld (l ++ alter (registered self) i bs)
       (set_buttons
          (dict_set (PaginatorButton.button_type (bs !!! i)) r (buttons self))
          self)
       trace, Ok tt).
Proof.
  intros Hi ->. rewrite add_button_run. cbn [store obj log].
  rewrite alter_app_r, lookup_total_app_r by lia.
  by replace (length l + i - length l)%nat with i by lia.
Qed.

(** [add_default_buttons], run: five objects are appended to the store, the
    indicator prepared as [add_button] does, and the five types are set, in
    this order, to the new objects. *)
Lemma add_default_buttons_run (w : World) :
  let n := length (store w) in
  add_default_buttons w
  = (mkWorld (store w ++ default_buttons (obj w))
       (set_buttons
          (dict_set PaginatorButtonType.last (n + 4)%nat
             (dict_set PaginatorButtonType.next (n + 3)%nat
                (dict_set PaginatorButtonType.page_indicator (n + 2)%nat
                   (dict_set PaginatorButtonType.prev (n + 1)%nat
                      (dict_set PaginatorButtonType.first n
                         (buttons (obj w)))))))
          (obj w))
       (log w), Ok tt).
Proof.
  intros n. subst n.
  unfold add_default_buttons. rewrite bind_get_self, !bind_new_button.
  cbn [store obj log]. rewrite !length_app. cbn [length].
  rewrite <- !app_assoc. cbn [app]. cbn [for_each].
  destruct w as [l self trace]. cbn [store obj log] in *.
  erewrite bind_ok; [|apply (add_button_appended _ _ 0%nat); simpl; lia].
  erewrite bind_ok; [|apply (add_button_appended _ _ 1%nat); simpl; lia].
  erewrite bind_ok; [|apply (add_button_appended _ _ 2%nat); simpl; lia].
  erewrite bind_ok; [|apply (add_button_appended _ _ 3%nat); simpl; lia].
  erewrite bind_ok; [|apply (add_button_appended _ _ 4%nat); simpl; lia].
  cbn -[dict_set dict_get indicator_label Nat.add settings].
  unfold ret. rewrite <- !Nat.add_assoc. reflexivity.
Qed.

(** X8: [add_default_buttons] makes five new button objects, after those
    that exist and without touching them: "<<" (first), "<" (prev, loop
    label "↪"), the page indicator (disabled, labelled with the page
    numbers, [hidden] as [show_indicator] says), ">" (next, loop label "↩")
    and ">>" (last), all in the default button row and none of the others
    hidden.  The five types then lead to the new objects, whatever they led
    to before, and an entry of type custom stays. *)
Theorem add_default_buttons_spec (w : World) :
  let n := length (store w) in
  let row := default_button_row (obj w) in
  let w' := (add_default_buttons w).1 in
  (add_default_buttons w).2 = Ok tt /\
  store w'
  = store w ++
    [PaginatorButton.mk PaginatorButtonType.first (Some "<<") (Some "<<")
       None None ButtonStyle.blurple false false row;
     PaginatorButton.mk PaginatorButtonType.prev (Some "<") (Some "<")
       (Some "↪") None ButtonStyle.red false false row;
     PaginatorButton.mk PaginatorButtonType.page_indicator
       (Some (indicator_label (current_page (obj w)) (page_count (obj w))))
       None None None ButtonStyle.gray true (show_indicator (obj w)) row;
     PaginatorButton.mk PaginatorButtonType.next (Some ">") (Some ">")
       (Some "↩") None ButtonStyle.green false false row;
     PaginatorButton.mk PaginatorButtonType.last (Some ">>") (Some ">>")
       None None ButtonStyle.blurple false false row] /\
  dict_get PaginatorButtonType.first (buttons (obj w')) = Some n /\
  dict_get PaginatorButtonType.prev (buttons (obj w')) = Some (n + 1)%nat /\
  dict_get PaginatorButtonType.page_indicator (buttons (obj w'))
    = Some (n + 2)%nat /\
  dict_get PaginatorButtonType.next (buttons (obj w')) = Some (n + 3)%nat /\
  dict_get PaginatorButtonType.last (buttons (obj w')) = Some (n + 4)%nat /\
  dict_get PaginatorButtonType.custom (buttons (obj w'))
    = dict_get PaginatorButtonType.custom (buttons (obj w)) /\
  (buttons (obj w) = [] ->
   buttons (obj w')
   = [(PaginatorButtonType.first, n); (PaginatorButtonType.prev, (n + 1)%nat);
      (PaginatorButtonType.page_indicator, (n + 2)%nat);
      (PaginatorButtonType.next, (n + 3)%nat);
      (PaginatorButtonType.last, (n + 4)%nat)]) /\
  settings (obj w') = settings (obj w) /\
  log w' = log w.
Proof.
  intros n row w'. subst w'. rewrite add_default_buttons_run.
  cbn [fst snd store obj log buttons set_buttons]. subst n row.
  split; [reflexivity|].
  split; [reflexivity|].
  split; [by rewrite !dict_get_set_ne, dict_get_set_eq by done|].
  split; [by rewrite !dict_get_set_ne, dict_get_set_eq by done|].
  split; [by rewrite !dict_get_set_ne, dict_get_set_eq by done|].
  split; [by rewrite !dict_get_set_ne, dict_get_set_eq by done|].
  split; [by rewrite dict_get_set_eq|].
  split; [by rewrite !dict_get_set_ne by done|].
  split; [|split; reflexivity].
  by intros ->.
Qed.

(** ** Rendering without a navigation button *)

Lemma the_button_missing key w :
  dict_get key (buttons (obj w)) = None ->
  the_button key w = (w, Raise (KeyError key)).
Proof. intros Hkey. unfold the_button, bind, get_self. by rewrite Hkey. Qed.

(** [update_buttons] with a navigation button missing: the lookup of the
    first one that is missing, in the order first, last, next, prev, raises;
    until then only button objects have been written to. *)
Lemma update_buttons_missing (w : World) (missing : PaginatorButtonType.t) :
  first_missing (obj w) = Some missing ->
  exists objects,
    update_buttons w
    = (mkWorld objects (obj w) (log w), Raise (KeyError missing)).
Proof.
  unfold first_missing, navigation_buttons. cbn [List.find]. intros Hmissing.
  unfold update_buttons. rewrite bind_get_self.
  destruct (dict_get PaginatorButtonType.first (buttons (obj w)))
    as [rf|] eqn:Hfirst.
  2: { injection Hmissing as <-. exists (store w).
       erewrite bind_raise; [|by apply the_button_missing]. by destruct w. }
  erewrite bind_ok; [|by apply the_button_run]. rewrite bind_set_button.
  destruct (dict_get PaginatorButtonType.last (buttons (obj w)))
    as [rl|] eqn:Hlast.
  2: { injection Hmissing as <-. eexists.
       erewrite bind_raise; [|by apply the_button_missing]. done. }
  erewrite bind_ok; [|by apply the_button_run]. rewrite bind_set_button.
  destruct (dict_get PaginatorButtonType.next (buttons (obj w)))
    as [rn|] eqn:Hnext.
  2: { injection Hmissing as <-. eexists.
       erewrite bind_raise; [|by apply the_button_missing]. done. }
  erewrite bind_ok; [|by apply the_button_run].
  destruct (dict_get PaginatorButtonType.prev (buttons (obj w)))
    as [rp|] eqn:Hprev; [done|].
  injection Hmissing as <-.
  destruct (current_page (obj w) =? page_count (obj w)),
    (loop_pages (obj w)), (current_page (obj w) <? page_count (obj w));
    simpl;
    rewrite ?bind_hide_reset, ?bind_use_loop_label, ?bind_return;
    eexists;
    (erewrite bind_raise; [|by apply the_button_missing]); done.
Qed.

(** A registry that lacks a navigation button has a first one it lacks. *)
Lemma first_missing_exists (self : t) (key : PaginatorButtonType.t) :
  key ∈ navigation_buttons ->
  dict_get key (buttons self) = None ->
  exists missing, first_missing self = Some missing.
Proof.
  intros Hkey Hnone. unfold first_missing.
  destruct (List.find _ navigation_buttons) as [missing|] eqn:Hfind; [eauto|].
  apply list_elem_of_In in Hkey.
  apply (find_none _ _ Hfind) in Hkey.
  by rewrite bool_decide_true in Hkey.
Qed.

(** X9: a paginator whose registry lacks one of the buttons first, last,
    next and prev cannot be shown: [send] raises the [KeyError] of the first
    of them, in that order, that is missing; nothing is sent, and the
    paginator — its items, its message and its settings — is as before. *)
Theorem send_without_navigation_button (w : World)
    (key : PaginatorButtonType.t) (destination : nat) (sent : Message) :
  key ∈ navigation_buttons ->
  dict_get key (buttons (obj w)) = None ->
  exists missing,
    first_missing (obj w) = Some missing /\
    (send destination sent w).2 = Raise (KeyError missing) /\
    obj (send destination sent w).1 = obj w /\
    log (send destination sent w).1 = log w.
Proof.
  intros Hkey Hnone.
  destruct (first_missing_exists (obj w) key Hkey Hnone) as (missing & Hfirst).
  destruct (update_buttons_missing w missing Hfirst) as (objects & Hrun).
  exists missing. split; [done|].
  unfold send, _prepare.
  erewrite bind_raise; [|apply bind_raise; exact Hrun]. done.
Qed.

Lemma send_without_navigation_button_witness :
  exists missing,
    first_missing (obj Example.two_buttons) = Some missing /\
    (send Sample.channel Sample.first_message Example.two_buttons).2
    = Raise (KeyError missing) /\
    obj (send Sample.channel Sample.first_message Example.two_buttons).1
    = obj Example.two_buttons /\
    log (send Sample.channel Sample.first_message Example.two_buttons).1
    = log Example.two_buttons.
Proof.
  apply (send_without_navigation_button Example.two_buttons
           PaginatorButtonType.prev).
  - unfold navigation_buttons. repeat constructor.
  - reflexivity.
Defined.

(** ** The buttons a new paginator has *)

(** The last steps of the constructor, on the paginator as set up so far. *)
Lemma init_run (a : InitArgs.t) (objects : list PaginatorButton.t) (w : World) :
  __init__ a objects = Ok w ->
  exists self,
    buttons self = [] /\
    ((match InitArgs.custom_buttons a with
      | Some custom =>
          if negb (InitArgs.use_default_buttons a)
          then for_each custom add_button
          else if negb (nonempty (Some custom)) then add_default_buttons
               else ret tt
      | None =>
          if InitArgs.use_default_buttons a then add_default_buttons
          else ret tt
      end;; when (InitArgs.show_menu a) add_menu)
       (mkWorld objects self [])) = (w, Ok tt).
Proof.
  unfold __init__. intros Hinit.
  destruct (scan_page_groups _ _) as [[all_groups default_group]|e]; [|done].
  cbn [result_bind] in Hinit.
  match type of Hinit with
  | result_bind ?r _ = _ =>
      destruct r as [[[the_groups the_default] the_pages]|e]; [|done]
  end.
  cbn [result_bind] in Hinit. cbn beta iota zeta in Hinit.
  match type of Hinit with
  | match ?m (mkWorld _ ?self _) with _ => _ end = _ =>
      exists self; split; [reflexivity|];
      destruct (m (mkWorld objects self [])) as [w1 [[]|e]]; [|done]
  end.
  by injection Hinit as ->.
Qed.

Lemma dict_set_nonempty {K V} `{EqDecision K} (k : K) (v : V) (d : dict K V) :
  dict_set k v d <> [].
Proof. destruct d as [|[k' v'] d]; simpl; [done|]. by case_decide. Qed.

(** Adding a list of buttons never fails, and leaves the registry empty only
    if it was empty and there was no button to add. *)
Lemma for_each_add_button_run (l : list nat) (w : World) :
  (for_each l add_button w).2 = Ok tt /\
  (buttons (obj (for_each l add_button w).1) = [] <->
   l = [] /\ buttons (obj w) = []).
Proof.
  revert w. induction l as [|r l IH]; intros w; simpl.
  - split; [done|]. split; [done|by intros [_ ?]].
  - erewrite bind_ok; [|apply add_button_run].
    destruct (IH (mkWorld (alter (registered (obj w)) r (store w))
                    (set_buttons
                       (dict_set (PaginatorButton.button_type (store w !!! r))
                          r (buttons (obj w))) (obj w))
                    (log w))) as [Hok Hempty].
    split; [exact Hok|]. rewrite Hempty. cbn [obj buttons set_buttons].
    split; [|by intros [[=] _]].
    intros [_ Hset]. by apply dict_set_nonempty in Hset.
Qed.

(** X10: which paginators are born without buttons.  A new paginator has an
    empty registry exactly when default buttons are asked for together with
    a list of custom buttons that is not empty, or are not asked for and no
    custom button is given; every other construction registers at least one
    button.  Sending a paginator with an empty registry raises the
    [KeyError] of the button first and leaves everything as it was. *)
Theorem init_registry_empty (a : InitArgs.t)
    (objects : list PaginatorButton.t) (w : World) :
  __init__ a objects = Ok w ->
  (buttons (obj w) = [] <->
   (InitArgs.use_default_buttons a = true /\
    exists r l, InitArgs.custom_buttons a = Some (r :: l)) \/
   (InitArgs.use_default_buttons a = false /\
    (InitArgs.custom_buttons a = None \/ InitArgs.custom_buttons a = Some []))) /\
  (buttons (obj w) = [] ->
   forall destination sent,
     send destination sent w = (w, Raise (KeyError PaginatorButtonType.first))).
Proof.
  intros (self & Hself & Hrun)%init_run. split.
  - assert (Hmenu : forall w0 : World,
              buttons (obj (when (InitArgs.show_menu a) add_menu w0).1)
              = buttons (obj w0))
      by (apply (keeps_when buttons), (keeps_add_menu buttons); done).
    apply bind_cases in Hrun as [(w1 & [] & Hinstall & Hrest)|(e & _ & [=])].
    specialize (Hmenu w1). rewrite Hrest in Hmenu. cbn [fst] in Hmenu.
    rewrite Hmenu. clear Hmenu Hrest.
    destruct (InitArgs.custom_buttons a) as [custom|],
      (InitArgs.use_default_buttons a); simpl in Hinstall.
    + destruct custom as [|r l]; simpl in Hinstall.
      * rewrite add_default_buttons_run in Hinstall.
        injection Hinstall as <-. cbn [obj buttons set_buttons].
        split; [by intros ?%dict_set_nonempty|].
        intros [(_ & ? & ? & [=])|[[=] _]].
      * injection Hinstall as <-. simpl. split; [|done].
        intros _. left. eauto.
    + destruct (for_each_add_button_run custom (mkWorld objects self []))
        as [_ Hempty].
      unfold ref in *. rewrite Hinstall in Hempty. cbn [fst obj] in Hempty.
      rewrite Hempty, Hself. split.
      * intros [-> _]. right. eauto.
      * intros [[[=] _]|[_ [[=]|[= ->]]]]. done.
    + rewrite add_default_buttons_run in Hinstall.
      injection Hinstall as <-. cbn [obj buttons set_buttons].
      split; [by intros ?%dict_set_nonempty|].
      intros [(_ & ? & ? & [=])|[[=] _]].
    + injection Hinstall as <-. simpl. split; [|done].
      intros _. right. eauto.
  - intros Hempty destination sent. unfold send, _prepare, update_buttons.
    do 2 (erewrite bind_raise; [reflexivity|]).
    rewrite bind_get_self.
    apply bind_raise, the_button_missing. by rewrite Hempty.
Qed.

Lemma init_registry_empty_witness :
  (buttons (obj Example.unusable) = [] <->
   (InitArgs.use_default_buttons Example.unusable_args = true /\
    exists r l, InitArgs.custom_buttons Example.unusable_args = Some (r :: l)) \/
   (InitArgs.use_default_buttons Example.unusable_args = false /\
    (InitArgs.custom_buttons Example.unusable_args = None \/
     InitArgs.custom_buttons Example.unusable_args = Some []))) /\
  (buttons (obj Example.unusable) = [] ->
   forall destination sent,
     send destination sent Example.unusable
     = (Example.unusable, Raise (KeyError PaginatorButtonType.first))).
Proof.
  apply (init_registry_empty Example.unusable_args Example.custom_objects).
  vm_compute. reflexivity.
Defined.

(** ** The items of the view *)

Lemma set_children_id (self : t) : set_children (children self) self = self.
Proof. by destruct self. Qed.

Lemma set_children_twice (v v' : list Item) (self : t) :
  set_children v (set_children v' self) = set_children v self.
Proof. reflexivity. Qed.

Lemma world_eta (w : World) : mkWorld (store w) (obj w) (log w) = w.
Proof. by destruct w. Qed.

(** One turn of the loop of [update_buttons]. *)
Lemma render_button_run (key : PaginatorButtonType.t) (r : nat) (w : World) :
  render_button (key, r) w
  = (mkWorld
       (if decide (key = PaginatorButtonType.page_indicator) then store w
        else alter disable_hidden r (store w))
       (set_children
          (children (obj w)
           ++ (if shown (obj w) (store w) (key, r) then [ButtonItem r] else []))
          (obj w))
       (log w), Ok tt).
Proof.
  unfold render_button, shown. rewrite bind_get_self. cbn [fst snd].
  destruct (decide (key = PaginatorButtonType.page_indicator)) as [->|Hkey].
  - rewrite decide_False by (intros H; by apply H).
    unfold when, add_item, assign, ret.
    destruct (show_indicator (obj w)); [done|].
    by rewrite app_nil_r, set_children_id, world_eta.
  - rewrite decide_True by done.
    unfold bind at 1. unfold get_button. unfold ref.
    destruct (PaginatorButton.hidden (store w !!! r)) eqn:Hhidden;
      rewrite bind_set_button; cbn [negb orb].
    + unfold when, add_item, assign, ret. cbn [store obj log].
      rewrite (alter_at (PaginatorButton.set_disabled true) disable_hidden)
        by (unfold disable_hidden; by rewrite Hhidden).
      destruct (show_disabled (obj w)); [done|].
      by rewrite app_nil_r, set_children_id.
    + unfold add_item, assign. cbn [store obj log].
      rewrite (alter_at (PaginatorButton.set_disabled false) disable_hidden)
        by (unfold disable_hidden; by rewrite Hhidden).
      done.
Qed.

Lemma hidden_disable_hidden (b : PaginatorButton.t) :
  PaginatorButton.hidden (disable_hidden b) = PaginatorButton.hidden b.
Proof. reflexivity. Qed.

(** The loop writes the [disabled] flag of the objects it touches, and
    nothing else. *)
Lemma render_store_lookup (entries : dict PaginatorButtonType.t ref)
    (objects : list PaginatorButton.t) (r : nat) :
  render_store entries objects !! r
  = (fun b => if touched entries r then disable_hidden b else b)
      <$> objects !! r.
Proof.
  revert objects. induction entries as [|[key r'] entries IH]; intros objects.
  - simpl. by destruct (objects !! r).
  - unfold render_store in *. cbn [fold_left fst snd]. rewrite IH. clear IH.
    cbn [touched existsb fst snd].
    destruct (decide (key = PaginatorButtonType.page_indicator)) as [->|Hkey].
    + rewrite bool_decide_false by (intros H; by apply H). done.
    + rewrite bool_decide_true by done. cbn [andb]. unfold ref.
      destruct (decide (r' = r)) as [->|Hne].
      * rewrite bool_decide_true by done. rewrite list_lookup_alter_eq.
        destruct (objects !! r) as [b|]; [|done]. cbn.
        by case_match.
      * rewrite bool_decide_false by done.
        by rewrite list_lookup_alter_ne.
Qed.

Lemma render_store_length entries objects :
  length (render_store entries objects) = length objects.
Proof.
  revert objects. induction entries as [|[key r] entries IH]; intros objects;
    [done|].
  unfold render_store in *. cbn [fold_left fst snd]. rewrite IH.
  case_decide; [done|]. apply length_alter.
Qed.

Lemma render_store_hidden entries objects (r : nat) :
  PaginatorButton.hidden (render_store entries objects !!! r)
  = PaginatorButton.hidden (objects !!! r).
Proof.
  rewrite !list_lookup_total_alt, render_store_lookup.
  destruct (objects !! r) as [b|]; [|done]. cbn.
  by destruct (touched entries r).
Qed.

Lemma touched_elem_of entries key (r : nat) :
  (key, r) ∈ entries -> key <> PaginatorButtonType.page_indicator ->
  touched entries r = true.
Proof.
  intros Hin Hkey. unfold touched. apply existsb_exists.
  exists (key, r). split; [by apply list_elem_of_In|].
  cbn. by rewrite !bool_decide_true.
Qed.

Lemma shown_ext self objects objects' entry :
  (forall r : nat, PaginatorButton.hidden (objects' !!! r)
                   = PaginatorButton.hidden (objects !!! r)) ->
  shown self objects' entry = shown self objects entry.
Proof. intros Hhidden. unfold shown. by rewrite Hhidden. Qed.

(** The loop of [update_buttons] over a registry. *)
Lemma render_loop (entries : dict PaginatorButtonType.t ref) (w : World) :
  for_each entries render_button w
  = (mkWorld (render_store entries (store w))
       (set_children
          (children (obj w)
           ++ ((fun entry => ButtonItem entry.2)
                 <$> List.filter (shown (obj w) (store w)) entries))
          (obj w))
       (log w), Ok tt).
Proof.
  revert w. induction entries as [|[key r] entries IH]; intros w.
  - cbn. by rewrite app_nil_r, set_children_id, world_eta.
  - cbn [for_each]. erewrite bind_ok; [|apply render_button_run].
    rewrite IH. clear IH. cbn [store obj log children set_children].
    f_equal. f_equal. rewrite set_children_twice. unfold ref in *.
    rewrite (List.filter_ext _ (shown (obj w) (store w))).
    2: { intros entry.
      transitivity (shown (obj w)
                      (if decide (key = PaginatorButtonType.page_indicator)
                       then store w else alter disable_hidden r (store w))
                      entry); [done|].
      apply shown_ext. intros r0. case_decide; [done|].
      destruct (decide (r = r0)) as [->|Hne].
      - rewrite !list_lookup_total_alt, list_lookup_alter_eq.
        by destruct (store w !! r0).
      - by rewrite list_lookup_total_alter_ne. }
    cbn [List.filter]. f_equal.
    destruct (shown (obj w) (store w) (key, r));
      cbn [fmap list_fmap snd]; by rewrite <- ?app_assoc, ?app_nil_r.
Qed.

(** The steps of [update_buttons] before the view is cleared write to
    button objects only. *)
Lemma store_only_ret {A} (a : A) : store_only (ret a).
Proof. by intros w. Qed.

Lemma store_only_bind {A B} (m : M A) (f : A -> M B) :
  store_only m -> (forall a, store_only (f a)) -> store_only (bind m f).
Proof.
  intros Hm Hf w. unfold bind. specialize (Hm w).
  destruct (m w) as [w1 [a|e]]; [|done].
  specialize (Hf a w1). cbn in Hm. destruct Hm as [<- <-]. exact Hf.
Qed.

Lemma store_only_set_button r f : store_only (set_button r f).
Proof. by intros w. Qed.

Lemma store_only_get_button r : store_only (get_button r).
Proof. by intros w. Qed.

Lemma store_only_reset_label r : store_only (reset_label r).
Proof.
  apply store_only_bind; auto using store_only_get_button, store_only_set_button.
Qed.

Lemma store_only_use_loop_label r : store_only (use_loop_label r).
Proof.
  apply store_only_bind; auto using store_only_get_button, store_only_set_button.
Qed.

Lemma store_only_run (m : M unit) w w' res :
  store_only m -> m w = (w', res) ->
  w' = mkWorld (store w') (obj w) (log w).
Proof.
  intros Hm Hrun. specialize (Hm w). rewrite Hrun in Hm.
  destruct w'. cbn in *. by destruct Hm as [-> ->].
Qed.

Lemma the_button_ok key w w' r :
  the_button key w = (w', Ok r) ->
  w' = w /\ dict_get key (buttons (obj w)) = Some r.
Proof.
  intros [-> [[=]|(r' & [= <-] & Hkey)]]%the_button_cases. done.
Qed.

Lemma store_only_the_button key : store_only (the_button key).
Proof.
  intros w. unfold the_button, bind, get_self.
  by destruct (dict_get key (buttons (obj w))).
Qed.

Ltac store_only_steps :=
  repeat first
    [ apply store_only_ret
    | apply store_only_the_button
    | apply store_only_set_button
    | apply store_only_reset_label
    | apply store_only_use_loop_label
    | apply store_only_bind; [|intros ?]
    | match goal with
      | |- store_only (if ?c then _ else _) => destruct c
      end ].

(** A run of [update_buttons] that returns has looked up the four
    navigation buttons, cleared the view and then walked the registry. *)
Lemma update_buttons_loop (w w' : World) :
  update_buttons w = (w', Ok tt) ->
  exists objects,
    (for_each (buttons (obj w)) render_button;;
     when (show_menu (obj w)) add_menu;;
     match the_view (custom_view (obj w)) with
     | Some view => update_custom_view view
     | None => ret tt
     end) (mkWorld objects (set_children [] (obj w)) (log w)) = (w', Ok tt).
Proof.
  unfold update_buttons. rewrite bind_get_self. intros Hrun.
  apply bind_cases in Hrun as [(w1 & rf & [-> _]%the_button_ok & Hrun)
                              |(e & _ & [=])].
  rewrite bind_set_button in Hrun.
  apply bind_cases in Hrun as [(w1 & rl & [-> _]%the_button_ok & Hrun)
                              |(e & _ & [=])].
  rewrite bind_set_button in Hrun. cbn [store obj log] in Hrun.
  apply bind_cases in Hrun as [(w1 & rn & [-> _]%the_button_ok & Hrun)
                              |(e & _ & [=])].
  apply bind_cases in Hrun as [(w1 & [] & Hnext & Hrun)|(e & _ & [=])].
  apply store_only_run in Hnext; [|store_only_steps].
  cbn [obj log] in Hnext.
  apply bind_cases in Hrun as [(w2 & rp & [-> _]%the_button_ok & Hrun)
                              |(e & _ & [=])].
  apply bind_cases in Hrun as [(w2 & [] & Hprev & Hrun)|(e & _ & [=])].
  apply store_only_run in Hprev; [|store_only_steps].
  unfold clear_items in Hrun. rewrite bind_assign in Hrun.
  apply bind_cases in Hrun as [(w3 & [] & Hindicator & Hrun)|(e & _ & [=])].
  apply store_only_run in Hindicator; [|store_only_steps].
  cbn [obj log] in Hindicator.
  exists (store w3). rewrite Hindicator in Hrun.
  rewrite Hprev, Hnext in Hrun. exact Hrun.
Qed.

Lemma add_menu_run (w : World) :
  add_menu w
  = (mkWorld (store w)
       (set_children
          (children (obj w)
           ++ [MenuItem (PaginatorMenu.mk (page_groups (obj w))
                           (menu_placeholder (obj w)))])
          (set_menu
             (Some (PaginatorMenu.mk (page_groups (obj w))
                      (menu_placeholder (obj w))))
             (obj w)))
       (log w), Ok tt).
Proof. reflexivity. Qed.

Lemma remove_first_absent {A} `{EqDecision A} (x : A) (l : list A) :
  x ∉ l -> remove_first x l = l.
Proof.
  induction l as [|y l IH]; [done|]. intros Hx. simpl.
  rewrite decide_False by (intros ->; apply Hx; left).
  f_equal. apply IH. intros Hin. apply Hx. by right.
Qed.

(** Taking out the items of a custom view from a view that holds none of
    them. *)
Lemma remove_custom_absent (items : list nat) (w : World) :
  (forall i, CustomItem i ∉ children (obj w)) ->
  for_each items (fun item => remove_item (CustomItem item)) w = (w, Ok tt).
Proof.
  intros Habsent. induction items as [|i items IH]; [done|].
  cbn [for_each]. unfold remove_item at 1. rewrite bind_assign.
  rewrite remove_first_absent by apply Habsent.
  by rewrite set_children_id, world_eta.
Qed.

Lemma add_custom_run (items : list nat) (w : World) :
  for_each items (fun item => add_item (CustomItem item)) w
  = (mkWorld (store w)
       (set_children (children (obj w) ++ (CustomItem <$> items)) (obj w))
       (log w), Ok tt).
Proof.
  revert w. induction items as [|i items IH]; intros w.
  - cbn. by rewrite app_nil_r, set_children_id, world_eta.
  - cbn [for_each]. unfold add_item at 1. rewrite bind_assign, IH.
    cbn [store obj log children set_children fmap list_fmap].
    by rewrite set_children_twice, <- app_assoc.
Qed.

(** X11: the view after [update_buttons].  When it returns, the items of
    the view are the buttons of the registry that are shown — the page
    indicator if [show_indicator] is on, another button unless it is hidden
    and [show_disabled] is off — in the order of the registry, followed by
    the menu if [show_menu] is on and by the items of the custom view; the
    menu is a new one made of the page groups and the placeholder; every
    registered button other than the page indicator is disabled exactly if
    it is hidden; the registry, the other settings and the trace of host
    calls are as before. *)
Theorem update_buttons_items (w w' : World) :
  update_buttons w = (w', Ok tt) ->
  children (obj w') = rendered_items (obj w) (store w') /\
  menu (obj w')
  = (if show_menu (obj w)
     then Some (PaginatorMenu.mk (page_groups (obj w))
                  (menu_placeholder (obj w)))
     else menu (obj w)) /\
  (forall key (r : nat) b,
     (key, r) ∈ buttons (obj w) ->
     key <> PaginatorButtonType.page_indicator ->
     store w' !! r = Some b ->
     PaginatorButton.disabled b = PaginatorButton.hidden b) /\
  buttons (obj w') = buttons (obj w) /\
  settings (obj w') = settings (obj w) /\
  log w' = log w.
Proof.
  intros (objects & Hrun)%update_buttons_loop.
  erewrite bind_ok in Hrun; [|apply render_loop].
  cbn [store obj log children set_children app] in Hrun.
  assert (Hitems : forall i,
            CustomItem i
            ∉ (fun entry : PaginatorButtonType.t * ref => ButtonItem entry.2)
                <$> List.filter (shown (set_children [] (obj w)) objects)
                      (buttons (obj w))).
  { intros i ([key r] & [=] & _)%list_elem_of_fmap. }
  assert (Hshown : forall objects' entry,
            objects' = render_store (buttons (obj w)) objects ->
            shown (set_children [] (obj w)) objects entry
            = shown (obj w) objects' entry).
  { intros objects' entry ->. symmetry.
    apply (shown_ext (obj w)), render_store_hidden. }
  assert (Hsettled : forall key (r : nat) b,
            (key, r) ∈ buttons (obj w) ->
            key <> PaginatorButtonType.page_indicator ->
            render_store (buttons (obj w)) objects !! r = Some b ->
            PaginatorButton.disabled b = PaginatorButton.hidden b).
  { intros key r b Hin Hkey. rewrite render_store_lookup.
    rewrite (touched_elem_of _ key) by done.
    destruct (objects !! r) as [b0|]; [|done]. by intros [= <-]. }
  unfold rendered_items.
  destruct (show_menu (obj w)); cbn [when] in Hrun.
  - erewrite bind_ok in Hrun; [|apply add_menu_run].
    cbn [store obj log children set_children set_menu] in Hrun.
    destruct (custom_view (obj w)) as [|[view|]] eqn:Hview; cbn [the_view] in *.
    + injection Hrun as <-. cbn [store obj log children menu buttons].
      rewrite app_nil_r.
      rewrite (List.filter_ext _ _ (fun entry => Hshown _ entry eq_refl)).
      done.
    + unfold update_custom_view in Hrun. rewrite bind_get_self in Hrun.
      cbn [obj custom_view set_children set_menu] in Hrun.
      rewrite Hview in Hrun.
      erewrite bind_ok in Hrun.
      2: { apply remove_custom_absent. intros i.
           cbn [obj children set_children].
           rewrite elem_of_app, list_elem_of_singleton.
           intros [Hin|[=]]. by apply (Hitems i). }
      rewrite add_custom_run in Hrun. injection Hrun as <-.
      cbn [store obj log children menu buttons set_children].
      rewrite (List.filter_ext _ _ (fun entry => Hshown _ entry eq_refl)).
      rewrite <- app_assoc. done.
    + injection Hrun as <-. cbn [store obj log children menu buttons].
      rewrite app_nil_r.
      rewrite (List.filter_ext _ _ (fun entry => Hshown _ entry eq_refl)).
      done.
  - rewrite bind_return in Hrun.
    destruct (custom_view (obj w)) as [|[view|]] eqn:Hview; cbn [the_view] in *.
    + injection Hrun as <-. cbn [store obj log children menu buttons app].
      rewrite app_nil_r.
      rewrite (List.filter_ext _ _ (fun entry => Hshown _ entry eq_refl)).
      done.
    + unfold update_custom_view in Hrun. rewrite bind_get_self in Hrun.
      cbn [obj custom_view set_children set_menu] in Hrun.
      rewrite Hview in Hrun.
      erewrite bind_ok in Hrun.
      2: { apply remove_custom_absent. intros i.
           cbn [obj children set_children]. apply Hitems. }
      rewrite add_custom_run in Hrun. injection Hrun as <-.
      cbn [store obj log children menu buttons set_children app].
      rewrite (List.filter_ext _ _ (fun entry => Hshown _ entry eq_refl)).
      done.
    + injection Hrun as <-. cbn [store obj log children menu buttons app].
      rewrite app_nil_r.
      rewrite (List.filter_ext _ _ (fun entry => Hshown _ entry eq_refl)).
      done.
Qed.

Lemma update_buttons_items_witness :
  children (obj Example.rendered)
  = rendered_items (obj Sample.with_view) (store Example.rendered) /\
  menu (obj Example.rendered)
  = (if show_menu (obj Sample.with_view)
     then Some (PaginatorMenu.mk (page_groups (obj Sample.with_view))
                  (menu_placeholder (obj Sample.with_view)))
     else menu (obj Sample.with_view)) /\
  (forall key (r : nat) b,
     (key, r) ∈ buttons (obj Sample.with_view) ->
     key <> PaginatorButtonType.page_indicator ->
     store Example.rendered !! r = Some b ->
     PaginatorButton.disabled b = PaginatorButton.hidden b) /\
  buttons (obj Example.rendered) = buttons (obj Sample.with_view) /\
  settings (obj Example.rendered) = settings (obj Sample.with_view) /\
  log Example.rendered = log Sample.with_view.
Proof.
  apply (update_buttons_items Sample.with_view Example.rendered).
  vm_compute. reflexivity.
Defined.

(** ** The buttons first and last *)

(** X12: the table of [first] and [last].  When the registry holds each
    button object once and has the four navigation buttons, [update_buttons]
    — whether it returns or raises at the page indicator — leaves [first]
    hidden exactly if [current_page <= 1] and [last] hidden exactly if
    [current_page >= page_count - 1], both with the labels they had. *)
Theorem update_buttons_first_last (w w' : World) (res : result unit)
    (rf rl : nat) (b_first b_last : PaginatorButton.t) :
  NoDup (buttons (obj w)).*2 ->
  dict_get PaginatorButtonType.first (buttons (obj w)) = Some rf ->
  dict_get PaginatorButtonType.last (buttons (obj w)) = Some rl ->
  is_Some (dict_get PaginatorButtonType.next (buttons (obj w))) ->
  is_Some (dict_get PaginatorButtonType.prev (buttons (obj w))) ->
  store w !! rf = Some b_first ->
  store w !! rl = Some b_last ->
  update_buttons w = (w', res) ->
  appearance rf w'
  = (current_page (obj w) <=? 1, PaginatorButton.label b_first) /\
  appearance rl w'
  = (page_count (obj w) - 1 <=? current_page (obj w),
     PaginatorButton.label b_last).
Proof.
  intros Hnodup Hfirst Hlast [rn Hnext] [rp Hprev] Hbf Hbl Hrun.
  assert (rf <> rl /\ rn <> rf /\ rp <> rf /\ rn <> rl /\ rp <> rl)
    as (Hfl & Hnf & Hpf & Hnl & Hpl)
    by (repeat split; eapply registry_distinct; eauto; discriminate).
  assert (forall ri,
            dict_get PaginatorButtonType.page_indicator (buttons (obj w))
              = Some ri -> ri <> rf /\ ri <> rl) as Hindicator
    by (intros ri Hri; split; eapply registry_distinct; eauto; discriminate).
  pose proof (lookup_lt_Some _ _ _ Hbf) as Hrf.
  pose proof (lookup_lt_Some _ _ _ Hbl) as Hrl.
  pose proof (list_lookup_total_correct _ _ _ Hbf) as Hbf'.
  pose proof (list_lookup_total_correct _ _ _ Hbl) as Hbl'.
  unfold update_buttons in Hrun. rewrite bind_get_self in Hrun.
  erewrite bind_ok in Hrun; [|by apply the_button_run].
  rewrite bind_set_button in Hrun.
  erewrite bind_ok in Hrun; [|by apply the_button_run].
  rewrite bind_set_button in Hrun.
  erewrite bind_ok in Hrun; [|by apply the_button_run].
  assert (Hrest : forall (r : nat) w0 (rest : M unit),
            (forall ri,
               dict_get PaginatorButtonType.page_indicator (buttons (obj w0))
                 = Some ri -> ri <> r) ->
            keeps_appearance r rest ->
            forall f,
            (clear_items;;
             (if show_indicator (obj w)
              then let* indicator := the_button PaginatorButtonType.page_indicator
                   in set_button indicator f
              else ret tt);; rest) w0 = (w', res) ->
            appearance r w' = appearance r w0).
  { intros r w0 rest Hri Hkeeps f Hrest. unfold clear_items in Hrest.
    rewrite bind_assign in Hrest.
    apply bind_cases in Hrest as [(w1 & [] & Hind & Hrest)|(e & Hind & _)].
    - specialize (Hkeeps w1). rewrite Hrest in Hkeeps. simpl in Hkeeps.
      rewrite Hkeeps.
      destruct (show_indicator (obj w)).
      + apply (the_button_set_appearance _ _ r) in Hind; [done|exact Hri].
      + by injection Hind as <-.
    - destruct (show_indicator (obj w)); [|done].
      apply (the_button_set_appearance _ _ r) in Hind; [done|exact Hri]. }
  destruct (current_page (obj w) =? page_count (obj w)),
    (loop_pages (obj w)), (current_page (obj w) <? page_count (obj w)),
    (current_page (obj w) <=? 0) eqn:Hfirst_page,
    (0 <=? current_page (obj w)) eqn:Hlater_page;
    simpl in Hrun;
    rewrite ?bind_hide_reset, ?bind_use_loop_label, ?bind_return in Hrun;
    (erewrite bind_ok in Hrun; [|by apply the_button_run]);
    rewrite ?bind_hide_reset, ?bind_use_loop_label, ?bind_return in Hrun;
    (split;
     (erewrite Hrest; [|..|exact Hrun];
      [|intros ri Hri; by destruct (Hindicator ri Hri)
       |appearance_steps;
          auto using shows_render_button, shows_add_menu,
            shows_update_custom_view])).
  all: unfold appearance; simpl.
  all: repeat first
         [ rewrite list_lookup_total_alter_ne by done
         | rewrite list_lookup_total_alter_eq
             by (rewrite ?length_alter; done) ].
  all: rewrite ?Hbf', ?Hbl'; try done.
Qed.

Lemma update_buttons_first_last_witness :
  appearance 0%nat Example.five_rendered = (false, Some "<<"%string) /\
  appearance 4%nat Example.five_rendered = (true, Some ">>"%string).
Proof.
  change (appearance 0%nat Example.five_rendered
          = (current_page (obj Sample.five_last) <=? 1,
             PaginatorButton.label (store Sample.five_last !!! 0%nat)) /\
          appearance 4%nat Example.five_rendered
          = (page_count (obj Sample.five_last) - 1
             <=? current_page (obj Sample.five_last),
             PaginatorButton.label (store Sample.five_last !!! 4%nat))).
  apply (update_buttons_first_last Sample.five_last Example.five_rendered
           (Ok tt) 0%nat 4%nat).
  - apply (bool_decide_unpack _). vm_compute. exact I.
  - reflexivity.
  - reflexivity.
  - by eexists.
  - by eexists.
  - reflexivity.
  - reflexivity.
  - vm_compute. reflexivity.
Defined.

(** ** A paginator that has not been sent *)

Section Silent.
Lemma silent_ret {A} (a : A) : silent (ret a).
Proof. by intros w. Qed.

Lemma silent_raise {A} e : silent (@raise A e).
Proof. by intros w. Qed.

Lemma silent_lift {A} (r : result A) : silent (lift r).
Proof. by intros w. Qed.

Lemma silent_bind {A B} (m : M A) (f : A -> M B) :
  silent m -> (forall a, silent (f a)) -> silent (bind m f).
Proof.
  intros Hm Hf w. unfold bind. specialize (Hm w).
  destruct (m w) as [w1 [a|e]]; [|done].
  specialize (Hf a w1). cbn in Hm. by rewrite <- Hm.
Qed.

Lemma silent_get_self : silent get_self.
Proof. by intros w. Qed.

Lemma silent_get_button r : silent (get_button r).
Proof. by intros w. Qed.

Lemma silent_set_button r f : silent (set_button r f).
Proof. by intros w. Qed.

Lemma silent_assign f : silent (assign f).
Proof. by intros w. Qed.

Lemma silent_for_each {A} (l : list A) (body : A -> M unit) :
  (forall x, silent (body x)) -> silent (for_each l body).
Proof.
  intros Hbody. induction l as [|x l IH]; simpl.
  - apply silent_ret.
  - apply silent_bind; auto.
Qed.

Lemma silent_when c (body : M unit) : silent body -> silent (when c body).
Proof. intros Hbody. destruct c; [done|apply silent_ret]. Qed.
End Silent.

Ltac silent_step :=
  lazymatch goal with
  | |- silent (bind _ _) => apply silent_bind; [|intros]
  | |- silent (ret _) => apply silent_ret
  | |- silent (raise _) => apply silent_raise
  | |- silent (lift _) => apply silent_lift
  | |- silent get_self => apply silent_get_self
  | |- silent (get_button _) => apply silent_get_button
  | |- silent (set_button _ _) => apply silent_set_button
  | |- silent (assign _) => apply silent_assign
  | |- silent (for_each _ _) => apply silent_for_each; intros
  | |- silent (when _ _) => apply silent_when
  | |- silent (match ?x with _ => _ end) => destruct x
  end.

Ltac silent_steps := repeat silent_step.

Lemma silent_add_item item : silent (add_item item).
Proof. unfold add_item. silent_steps. Qed.

Lemma silent_remove_item item : silent (remove_item item).
Proof. unfold remove_item. silent_steps. Qed.

Lemma silent_add_menu : silent add_menu.
Proof. unfold add_menu. silent_steps. apply silent_add_item. Qed.

Lemma silent_update_custom_view view : silent (update_custom_view view).
Proof.
  unfold update_custom_view.
  silent_steps; auto using silent_add_item, silent_remove_item.
Qed.

Lemma silent_render_button entry : silent (render_button entry).
Proof.
  unfold render_button. destruct entry as [key r].
  silent_steps; auto using silent_add_item.
Qed.

Lemma silent_update_buttons : silent update_buttons.
Proof.
  unfold update_buttons, the_button, reset_label, use_loop_label, clear_items.
  silent_steps;
    auto using silent_render_button, silent_add_menu,
      silent_update_custom_view.
Qed.

Lemma silent__prepare update_files : silent (_prepare update_files).
Proof.
  unfold _prepare.
  silent_steps; auto using silent_update_buttons, silent_update_custom_view.
Qed.

Lemma fails_bind_l {A B} (m : M A) (f : A -> M B) :
  fails_unsent m -> fails_unsent (bind m f).
Proof.
  intros Hm w Hw. destruct (Hm w Hw) as [e He]. exists e.
  unfold bind. destruct (m w) as [w1 [a|e1]]; simpl in *; [done|].
  by injection He as ->.
Qed.

Lemma fails_bind_r {A B} (m : M A) (f : A -> M B) :
  keeps message m -> (forall a, fails_unsent (f a)) -> fails_unsent (bind m f).
Proof.
  intros Hm Hf w Hw. unfold bind. specialize (Hm w).
  destruct (m w) as [w1 [a|e]]; [|by exists e].
  apply Hf. cbn in Hm. by rewrite Hm.
Qed.

(** Reading [self.message] to edit it. *)
Lemma fails_edit interaction :
  fails_unsent
    (match interaction with
     | Some i =>
         host_call (ResponseDefer i) ;;
         let* self := get_self in
         match message self with
         | None => raise NotReadyError
         | Some msg =>
             let* kwargs := unpack_self in
             host_call (FollowupEditMessage i msg kwargs)
         end
     | None =>
         let* self := get_self in
         match message self with
         | None => raise NotReadyError
         | Some msg =>
             let* kwargs := unpack_self in
             host_call (MessageEdit msg kwargs)
         end
     end).
Proof.
  intros w Hw. exists NotReadyError.
  destruct interaction as [i|]; unfold bind, host_call, get_self; cbn;
    by rewrite Hw.
Qed.

Lemma fails_goto_page page_number interaction :
  fails_unsent (goto_page page_number interaction).
Proof.
  unfold goto_page.
  apply fails_bind_r; [by apply keeps_assign|intros _].
  apply fails_bind_r; [by apply keeps__prepare|intros _].
  apply fails_bind_l, fails_edit.
Qed.

Lemma fails_update a : fails_unsent (update a).
Proof.
  unfold update.
  repeat lazymatch goal with
         | |- fails_unsent (bind _ _) =>
             apply fails_bind_r;
               [update_steps;
                  auto using keeps_assign_given, keeps_assign_supplied,
                    keeps_add_button, keeps_add_default_buttons
               |intros ?]
         end.
  apply fails_goto_page.
Qed.

(** X13: before it is sent.  On a paginator that has no message yet,
    [update] and [goto_page] always raise.  [goto_page n] has by then set
    [current_page] to [n]; the host has received no edit: at most, when an
    interaction is given and the page could be prepared, the deferral of the
    response. *)
Theorem unsent_paginator (w : World) :
  message (obj w) = None ->
  (forall a, exists e, (update a w).2 = Raise e) /\
  (forall n interaction,
     (exists e, (goto_page n interaction w).2 = Raise e) /\
     current_page (obj (goto_page n interaction w).1) = n /\
     message (obj (goto_page n interaction w).1) = None /\
     (log (goto_page n interaction w).1 = log w \/
      exists i, interaction = Some i /\
                log (goto_page n interaction w).1
                = log w ++ [ResponseDefer i])).
Proof.
  intros Hw. split; [intros a; by apply fails_update|].
  intros n interaction.
  split; [by apply fails_goto_page|].
  split; [by rewrite (goto_page_frame current_page)|].
  split; [by rewrite (goto_page_frame message)|].
  unfold goto_page. rewrite bind_assign.
  set (w0 := mkWorld (store w) (set_current_page n (obj w)) (log w)).
  pose proof (silent__prepare true w0) as Hlog.
  pose proof (keeps__prepare message (fun _ _ => eq_refl) (fun _ _ => eq_refl)
                true w0) as Hmessage.
  destruct (_prepare true w0) as [w1 [page|e]] eqn:Hprepare;
    cbn [fst] in Hlog, Hmessage.
  2: { left. erewrite bind_raise; [|exact Hprepare]. exact Hlog. }
  erewrite bind_ok; [|exact Hprepare].
  change (message (obj w1) = message (obj w)) in Hmessage.
  rewrite Hw in Hmessage. change (log w1 = log w) in Hlog.
  destruct interaction as [i|].
  - right. exists i. split; [done|].
    unfold bind, host_call, get_self. cbn. by rewrite Hmessage, Hlog.
  - left. unfold bind, get_self. cbn. by rewrite Hmessage.
Qed.

Lemma unsent_paginator_witness :
  (forall a, exists e, (update a Sample.fresh).2 = Raise e) /\
  (forall n interaction,
     (exists e, (goto_page n interaction Sample.fresh).2 = Raise e) /\
     current_page (obj (goto_page n interaction Sample.fresh).1) = n /\
     message (obj (goto_page n interaction Sample.fresh).1) = None /\
     (log (goto_page n interaction Sample.fresh).1 = log Sample.fresh \/
      exists i, interaction = Some i /\
                log (goto_page n interaction Sample.fresh).1
                = log Sample.fresh ++ [ResponseDefer i])).
Proof. apply (unsent_paginator Sample.fresh). reflexivity. Defined.

(** ** When a page can be prepared *)

Lemma reset_label_total r : raises (fun _ => False) (reset_label r).
Proof. unfold reset_label. method_steps. Qed.

Lemma use_loop_label_total r : raises (fun _ => False) (use_loop_label r).
Proof. unfold use_loop_label. method_steps. Qed.

Lemma remove_item_total item : raises (fun _ => False) (remove_item item).
Proof. unfold remove_item. method_steps. Qed.

Lemma update_custom_view_total view :
  raises (fun _ => False) (update_custom_view view).
Proof.
  unfold update_custom_view.
  method_steps; auto using add_item_total, remove_item_total.
Qed.

Lemma render_button_total entry : raises (fun _ => False) (render_button entry).
Proof.
  unfold render_button. destruct entry as [key r].
  method_steps; auto using add_item_total.
Qed.

Lemma total_run {A} (m : M A) w w' e :
  raises (fun _ => False) m -> m w = (w', Raise e) -> False.
Proof. intros Hm Hrun. apply (Hm w e). by rewrite Hrun. Qed.

(** How [update_buttons] ends: it returns if it finds the buttons it looks
    up, and otherwise raises the [KeyError] of one that is missing. *)
Lemma update_buttons_cases (w w' : World) (res : result unit) :
  update_buttons w = (w', res) ->
  (res = Ok tt /\ has_buttons (obj w)) \/
  (exists key,
     res = Raise (KeyError key) /\
     dict_get key (buttons (obj w)) = None /\
     (key ∈ navigation_buttons \/
      key = PaginatorButtonType.page_indicator /\
      show_indicator (obj w) = true)).
Proof.
  unfold update_buttons. rewrite bind_get_self. intros Hrun.
  assert (Hnav : forall key, key ∈ navigation_buttons ->
            forall w0, the_button key w0 = (w', Raise (KeyError key)) ->
            obj w0 = obj w -> res = Raise (KeyError key) ->
            exists key,
              res = Raise (KeyError key) /\
              dict_get key (buttons (obj w)) = None /\
              (key ∈ navigation_buttons \/
               key = PaginatorButtonType.page_indicator /\
               show_indicator (obj w) = true)).
  { intros key Hkey w0 Hmissing Hobj ->. exists key. split; [done|].
    split; [|by left].
    unfold the_button, bind, get_self in Hmissing. rewrite Hobj in Hmissing.
    by destruct (dict_get key (buttons (obj w))). }
  apply bind_cases in Hrun as [(w1 & rf & Hfirst & Hrun)|(e & Hfirst & ->)].
  2: { right. pose proof Hfirst as [_ [[= ->]|(? & [=] & _)]]%the_button_cases.
       eapply Hnav; [|exact Hfirst|done..].
       unfold navigation_buttons. repeat constructor. }
  apply the_button_ok in Hfirst as [-> Hfirst].
  rewrite bind_set_button in Hrun.
  apply bind_cases in Hrun as [(w1 & rl & Hlast & Hrun)|(e & Hlast & ->)].
  2: { right. pose proof Hlast as [_ [[= ->]|(? & [=] & _)]]%the_button_cases.
       eapply Hnav; [|exact Hlast|done..].
       unfold navigation_buttons. repeat constructor. }
  apply the_button_ok in Hlast as [-> Hlast]. cbn [obj] in Hlast.
  rewrite bind_set_button in Hrun. cbn [store obj log] in Hrun.
  apply bind_cases in Hrun as [(w1 & rn & Hnext & Hrun)|(e & Hnext & ->)].
  2: { right. pose proof Hnext as [_ [[= ->]|(? & [=] & _)]]%the_button_cases.
       eapply Hnav; [|exact Hnext|done..].
       unfold navigation_buttons. repeat constructor. }
  apply the_button_ok in Hnext as [-> Hnext]. cbn [obj] in Hnext.
  apply bind_cases in Hrun as [(w1 & [] & Hblock & Hrun)|(e & Hblock & _)].
  2: { exfalso. eapply total_run; [|exact Hblock].
       method_steps; auto using reset_label_total, use_loop_label_total. }
  apply store_only_run in Hblock; [|store_only_steps].
  cbn [obj log] in Hblock.
  apply bind_cases in Hrun as [(w2 & rp & Hprev & Hrun)|(e & Hprev & ->)].
  2: { right. pose proof Hprev as [_ [[= ->]|(? & [=] & _)]]%the_button_cases.
       eapply Hnav; [|exact Hprev|by rewrite Hblock|done].
       unfold navigation_buttons. repeat constructor. }
  apply the_button_ok in Hprev as [-> Hprev].
  rewrite Hblock in Hprev. cbn [obj] in Hprev.
  assert (Hfour : forall key, key ∈ navigation_buttons ->
                              is_Some (dict_get key (buttons (obj w)))).
  { intros key Hkey. unfold navigation_buttons in Hkey.
    repeat (apply elem_of_cons in Hkey as [->|Hkey]; [by eexists|]).
    by apply elem_of_nil in Hkey. }
  apply bind_cases in Hrun as [(w2 & [] & Hblock2 & Hrun)|(e & Hblock2 & _)].
  2: { exfalso. eapply total_run; [|exact Hblock2].
       method_steps; auto using reset_label_total, use_loop_label_total. }
  apply store_only_run in Hblock2; [|store_only_steps].
  rewrite Hblock in Hblock2. cbn [obj log] in Hblock2.
  unfold clear_items in Hrun. rewrite bind_assign in Hrun.
  rewrite Hblock2 in Hrun. cbn [store obj log] in Hrun.
  apply bind_cases in Hrun as [(w3 & [] & Hindicator & Hrun)
                              |(e & Hindicator & ->)].
  - left.
    assert (Hshown : show_indicator (obj w) = true ->
              is_Some (dict_get PaginatorButtonType.page_indicator
                         (buttons (obj w)))).
    { intros Hon. rewrite Hon in Hindicator.
      apply bind_cases in Hindicator
        as [(w4 & ri & [-> Hri]%the_button_ok & _)|(e & _ & [=])].
      by eexists. }
    split; [|by split].
    destruct res as [[]|e]; [done|]. exfalso.
    eapply total_run; [|exact Hrun].
    method_steps;
      auto using render_button_total, add_menu_total, update_custom_view_total.
  - right. destruct (show_indicator (obj w)) eqn:Hon; [|done].
    apply bind_cases in Hindicator
      as [(w4 & ri & _ & [=])|(e' & Hmissing & [= <-])].
    pose proof Hmissing as [_ [[= ->]|(? & [=] & _)]]%the_button_cases.
    exists PaginatorButtonType.page_indicator. split; [done|].
    split; [|by right].
    unfold the_button, bind, get_self in Hmissing. cbn [obj] in Hmissing.
    by destruct (dict_get _ (buttons (set_children [] (obj w)))) eqn:Hget.
Qed.

(** [_prepare], case by case: what [update_buttons] raises; then what the
    lookup of the current page or its normalisation raises; otherwise the
    content of the page, with the items of the view as they are in the
    end. *)
Lemma _prepare_cases (update_files : bool) (w : World) :
  match update_buttons w with
  | (w1, Raise e) => _prepare update_files w = (w1, Raise e)
  | (w1, Ok _) =>
      match current_content (obj w) with
      | Raise e => _prepare update_files w = (w1, Raise e)
      | Ok content =>
          exists w2,
            _prepare update_files w
            = (w2, Ok (mkPayload (Page.content content) (Page.embeds content)
                         (if update_files then Page.update_files content
                          else Page.files content)
                         (children (obj w2))))
      end
  end.
Proof.
  pose proof (keeps_update_buttons (fun self => (pages self, current_page self))
                (fun _ _ => eq_refl) (fun _ _ => eq_refl) w) as Hkept.
  unfold _prepare.
  destruct (update_buttons w) as [w1 [[]|e]] eqn:Hrun; cbn [fst] in Hkept.
  2: { by erewrite bind_raise. }
  erewrite bind_ok; [|exact Hrun]. rewrite bind_get_self.
  injection Hkept as Hpages Hcurrent. rewrite Hpages, Hcurrent.
  unfold current_content. rewrite bind_lift.
  destruct (py_getitem (pages (obj w)) (current_page (obj w))) as [page|e];
    [|done].
  cbn [result_bind]. rewrite bind_lift.
  destruct (get_page_content page) as [content|e]; [|done].
  match goal with
  | |- context [bind ?m _ w1] =>
      assert (Htotal : raises (fun _ => False) m)
        by (method_steps; auto using update_custom_view_total);
      destruct (raises_nothing_run m w1 Htotal) as (w2 & [] & Hview)
  end.
  exists w2. erewrite bind_ok; [|exact Hview]. reflexivity.
Qed.

(** What [_prepare] needs, and what it leaves alone. *)
Lemma prepare_cases_frame (update_files : bool) (w : World) :
  ((exists payload, (_prepare update_files w).2 = Ok payload) <->
   has_buttons (obj w) /\ exists content, current_content (obj w) = Ok content) /\
  message (obj (_prepare update_files w).1) = message (obj w) /\
  log (_prepare update_files w).1 = log w.
Proof.
  split; [|split; [by apply keeps__prepare|apply silent__prepare]].
  pose proof (_prepare_cases update_files w) as Hcases.
  destruct (update_buttons w) as [w1 res] eqn:Hrun.
  apply update_buttons_cases in Hrun
    as [[-> Hbuttons]|(key & -> & Hmissing & Hkey)].
  - destruct (current_content (obj w)) as [content|e] eqn:Hcontent.
    + destruct Hcases as [w2 ->]. split; eauto.
    + rewrite Hcases. cbn [snd]. split; [by intros [? ?]|by intros [_ [? ?]]].
  - rewrite Hcases. cbn [snd]. split; [by intros [? ?]|].
    intros [[Hfour Hindicator] _]. destruct Hkey as [Hkey|[-> Hon]].
    + destruct (Hfour key Hkey) as [r Hr]. congruence.
    + destruct (Hindicator Hon) as [r Hr]. congruence.
Qed.


(** X14: when a page can be prepared.  [_prepare] returns exactly if the
    registry has the four navigation buttons, and the page indicator if
    [show_indicator] is on, and the current page exists and has a supported
    content; it then returns the content, the embeds and the files of that
    page and the items of the view.  A missing button is reported before a
    missing or unsupported page: when [_prepare] raises, it is the
    [KeyError] of a button that is not registered, or else all buttons are
    there and it is the exception of the page lookup.  No call reaches the
    host. *)
Theorem prepare_succeeds (update_files : bool) (w : World) :
  ((exists payload, (_prepare update_files w).2 = Ok payload) <->
   has_buttons (obj w) /\ exists content, current_content (obj w) = Ok content) /\
  (forall payload,
     (_prepare update_files w).2 = Ok payload ->
     exists content,
       current_content (obj w) = Ok content /\
       payload
       = mkPayload (Page.content content) (Page.embeds content)
           (if update_files then Page.update_files content
            else Page.files content)
           (children (obj (_prepare update_files w).1))) /\
  (forall e,
     (_prepare update_files w).2 = Raise e ->
     (exists key, e = KeyError key /\
                  dict_get key (buttons (obj w)) = None) \/
     (has_buttons (obj w) /\ current_content (obj w) = Raise e)) /\
  log (_prepare update_files w).1 = log w.
Proof.
  pose proof (_prepare_cases update_files w) as Hcases.
  pose proof (silent__prepare update_files w) as Hlog.
  destruct (update_buttons w) as [w1 res] eqn:Hrun.
  apply update_buttons_cases in Hrun
    as [[-> Hbuttons]|(key & -> & Hmissing & Hkey)].
  - destruct (current_content (obj w)) as [content|e] eqn:Hcontent.
    + destruct Hcases as [w2 Hcases]. rewrite Hcases in *. cbn [fst snd].
      split; [split; eauto|]. split; [intros payload [= <-]; eauto|].
      split; [done|exact Hlog].
    + rewrite Hcases in *. cbn [fst snd].
      split; [split; [by intros [? ?]|by intros [_ [? ?]]]|].
      split; [done|]. split; [|exact Hlog].
      intros e' [= <-]. by right.
  - rewrite Hcases in *. cbn [fst snd].
    split; [split; [by intros [? ?]|]|].
    { intros [[Hfour Hindicator] _]. destruct Hkey as [Hkey|[-> Hon]].
      - destruct (Hfour key Hkey) as [r Hr]. congruence.
      - destruct (Hindicator Hon) as [r Hr]. congruence. }
    split; [done|]. split; [|exact Hlog].
    intros e [= <-]. left. eauto.
Qed.

Lemma prepare_succeeds_witness :
  exists payload, (_prepare false Sample.fresh).2 = Ok payload.
Proof.
  apply (proj2 (proj1 (prepare_succeeds false Sample.fresh))).
  split; [split|].
  - intros key Hkey. unfold navigation_buttons in Hkey.
    repeat (apply elem_of_cons in Hkey as [->|Hkey];
            [apply (bool_decide_unpack _); vm_compute; exact I|]).
    by apply elem_of_nil in Hkey.
  - intros _. apply (bool_decide_unpack _). vm_compute. exact I.
  - exists (Page.new (Some "one"%string) [] []). vm_compute. reflexivity.
Defined.

(** ** Sending *)

(** X15: [send] returns exactly if the page can be prepared.  It then
    returns the message the host answers with and stores it, and the host
    has received one call, the send of the prepared page to the destination.
    When [send] raises, nothing has been sent and the stored message is the
    one from before. *)
Theorem send_spec (destination : nat) (sent : Message) (w : World) :
  ((send destination sent w).2 = Ok sent <->
   has_buttons (obj w) /\ exists content, current_content (obj w) = Ok content) /\
  (forall answer,
     (send destination sent w).2 = Ok answer ->
     answer = sent /\
     message (obj (send destination sent w).1) = Some sent /\
     exists payload,
       (_prepare false w).2 = Ok payload /\
       log (send destination sent w).1
       = log w ++ [DestinationSend destination payload]) /\
  (forall e,
     (send destination sent w).2 = Raise e ->
     (_prepare false w).2 = Raise e /\
     message (obj (send destination sent w).1) = message (obj w) /\
     log (send destination sent w).1 = log w).
Proof.
  destruct (prepare_cases_frame false w) as (Hiff & Hmessage & Hlog).
  unfold send.
  destruct (_prepare false w) as [w1 [payload|e]] eqn:Hprepare;
    cbn [fst snd] in *.
  - erewrite bind_ok; [|exact Hprepare].
    unfold bind, host_call, assign, ret. cbn.
    split; [split; [intros _; apply Hiff; eauto|done]|].
    split; [|done]. intros answer [= <-].
    split; [done|]. split; [done|]. exists payload. by rewrite Hlog.
  - erewrite bind_raise; [|exact Hprepare]. cbn [fst snd].
    split; [split; [done|]|].
    { intros [payload [=]]%Hiff. }
    split; [done|]. by intros e' [= <-].
Qed.

Lemma send_spec_witness :
  (send Sample.channel Sample.first_message Sample.fresh).2
  = Ok Sample.first_message.
Proof.
  apply (proj2 (proj1 (send_spec Sample.channel Sample.first_message
                         Sample.fresh))).
  split; [split|].
  - intros key Hkey. unfold navigation_buttons in Hkey.
    repeat (apply elem_of_cons in Hkey as [->|Hkey];
            [apply (bool_decide_unpack _); vm_compute; exact I|]).
    by apply elem_of_nil in Hkey.
  - intros _. apply (bool_decide_unpack _). vm_compute. exact I.
  - exists (Page.new (Some "one"%string) [] []). vm_compute. reflexivity.
Defined.

(** X16: [respond] returns exactly if the ephemeral check passes and the
    page can be prepared.  It then returns and stores the message of the
    host's answer, and the host has received the response with the prepared
    page and the [ephemeral] flag as given, followed, when it hands back an
    interaction instead of a message, by the request for the original
    response of that interaction, and nothing else.  When [respond] raises,
    nothing has been sent and the stored message is the one from before. *)
Theorem respond_spec (interaction : Interaction.t) (ephemeral : bool)
    (answer : RespondResult) (w : World) :
  ((exists msg, (respond interaction ephemeral answer w).2 = Ok msg) <->
   ephemeral && too_long_for_ephemeral (timeout (obj w)) = false /\
   has_buttons (obj w) /\
   exists content, current_content (obj w) = Ok content) /\
  (forall msg,
     (respond interaction ephemeral answer w).2 = Ok msg ->
     msg = Some (answered answer) /\
     message (obj (respond interaction ephemeral answer w).1)
     = Some (answered answer) /\
     exists payload,
       (_prepare false w).2 = Ok payload /\
       log (respond interaction ephemeral answer w).1
       = log w
         ++ InteractionRespond interaction payload ephemeral
            :: match answer with
               | RespondedMessage _ => []
               | RespondedInteraction _ => [OriginalResponse]
               end) /\
  (forall e,
     (respond interaction ephemeral answer w).2 = Raise e ->
     message (obj (respond interaction ephemeral answer w).1)
     = message (obj w) /\
     log (respond interaction ephemeral answer w).1 = log w).
Proof.
  destruct (prepare_cases_frame false w) as (Hiff & Hmessage & Hlog).
  unfold respond. rewrite bind_get_self.
  destruct (ephemeral && too_long_for_ephemeral (timeout (obj w))).
  { split; [split; [by intros [? ?]|by intros [? _]]|]. by split. }
  unfold respond_unchecked.
  destruct (_prepare false w) as [w1 [payload|e]] eqn:Hprepare;
    cbn [fst snd] in *.
  - erewrite bind_ok; [|exact Hprepare]. rewrite bind_host_call.
    destruct answer as [msg|msg];
      rewrite ?bind_assoc, ?bind_host_call, bind_assign, bind_get_self;
      cbn [ret fst snd obj log message set_message answered].
    + split; [split; [intros _; split; [done|]; apply Hiff; eauto|eauto]|].
      split; [|done]. intros ? [= <-].
      split; [done|]. split; [done|]. exists payload. by rewrite Hlog.
    + split; [split; [intros _; split; [done|]; apply Hiff; eauto|eauto]|].
      split; [|done]. intros ? [= <-].
      split; [done|]. split; [done|]. exists payload.
      by rewrite Hlog, <- app_assoc.
  - erewrite bind_raise; [|exact Hprepare]. cbn [fst snd].
    split; [split; [by intros [? ?]|]|].
    { intros [_ [payload [=]]%Hiff]. }
    split; [done|]. by intros e' [= <-].
Qed.

Lemma respond_spec_witness :
  exists msg,
    (respond Sample.alice true (RespondedMessage Sample.first_message)
       Sample.timeout_600).2 = Ok msg.
Proof.
  apply (proj2 (proj1 (respond_spec Sample.alice true
                         (RespondedMessage Sample.first_message)
                         Sample.timeout_600))).
  split; [vm_compute; reflexivity|]. split; [split|].
  - intros key Hkey. unfold navigation_buttons in Hkey.
    repeat (apply elem_of_cons in Hkey as [->|Hkey];
            [apply (bool_decide_unpack _); vm_compute; exact I|]).
    by apply elem_of_nil in Hkey.
  - intros _. apply (bool_decide_unpack _). vm_compute. exact I.
  - exists (Page.new (Some "one"%string) [] []). vm_compute. reflexivity.
Defined.

(** ** Showing another page *)

(** A page that can be prepared, prepared: the result, and what is left
    alone — every attribute but the items of the view and the menu. *)
Lemma prepare_run (update_files : bool) (w : World) (content : Page.t) :
  has_buttons (obj w) -> current_content (obj w) = Ok content ->
  exists w',
    _prepare update_files w
    = (w', Ok (mkPayload (Page.content content) (Page.embeds content)
                 (if update_files then Page.update_files content
                  else Page.files content)
                 (children (obj w')))) /\
    log w' = log w /\
    (forall X (g : t -> X),
       (forall v self, g (set_children v self) = g self) ->
       (forall v self, g (set_menu v self) = g self) ->
       g (obj w') = g (obj w)).
Proof.
  intros Hbuttons Hcontent.
  pose proof (_prepare_cases update_files w) as Hcases.
  pose proof (silent__prepare update_files w) as Hlog.
  destruct (update_buttons w) as [w1 res] eqn:Hrun.
  apply update_buttons_cases in Hrun
    as [[-> _]|(key & -> & Hmissing & Hkey)].
  - rewrite Hcontent in Hcases. destruct Hcases as [w2 Hcases].
    exists w2. split; [exact Hcases|]. rewrite Hcases in Hlog.
    split; [exact Hlog|]. intros X g g_children g_menu.
    pose proof (keeps__prepare g g_children g_menu update_files w) as Hkeeps.
    by rewrite Hcases in Hkeeps.
  - exfalso. destruct Hbuttons as [Hfour Hindicator].
    destruct Hkey as [Hkey|[-> Hon]].
    + destruct (Hfour key Hkey) as [r Hr]. congruence.
    + destruct (Hindicator Hon) as [r Hr]. congruence.
Qed.

(** What decides whether a page can be prepared. *)
Lemma has_buttons_ext self self' :
  buttons self' = buttons self -> show_indicator self' = show_indicator self ->
  has_buttons self -> has_buttons self'.
Proof. unfold has_buttons. by intros -> ->. Qed.

Lemma current_content_ext self self' :
  pages self' = pages self -> current_page self' = current_page self ->
  current_content self' = current_content self.
Proof. unfold current_content. by intros -> ->. Qed.

Ltac kept H g := apply (H _ g); intros; reflexivity.

(** [**self]: five runs of [_prepare], each on what the one before left. *)
Lemma unpack_self_run (w : World) (content : Page.t) :
  has_buttons (obj w) -> current_content (obj w) = Ok content ->
  exists w',
    unpack_self w
    = (w', Ok (mkPayload (Page.content content) (Page.embeds content)
                 (Page.files content) (children (obj w')))) /\
    log w' = log w /\
    (forall X (g : t -> X),
       (forall v self, g (set_children v self) = g self) ->
       (forall v self, g (set_menu v self) = g self) ->
       g (obj w') = g (obj w)).
Proof.
  intros Hbuttons Hcontent.
  assert (Hstep : forall w0,
            has_buttons (obj w0) -> current_content (obj w0) = Ok content ->
            exists w1,
              _prepare false w0
              = (w1, Ok (mkPayload (Page.content content) (Page.embeds content)
                           (Page.files content) (children (obj w1)))) /\
              log w1 = log w0 /\
              (forall X (g : t -> X),
                 (forall v self, g (set_children v self) = g self) ->
                 (forall v self, g (set_menu v self) = g self) ->
                 g (obj w1) = g (obj w0)) /\
              has_buttons (obj w1) /\ current_content (obj w1) = Ok content).
  { intros w0 Hb Hc.
    destruct (prepare_run false w0 content Hb Hc) as (w1 & Hrun & Hlog & Hkept).
    exists w1. split; [exact Hrun|]. split; [exact Hlog|].
    split; [exact Hkept|]. split.
    - eapply has_buttons_ext; [| |exact Hb].
      + kept Hkept buttons.
      + kept Hkept show_indicator.
    - rewrite <- Hc. apply current_content_ext.
      + kept Hkept pages.
      + kept Hkept current_page. }
  unfold unpack_self, __iter__, __getitem__.
  destruct (Hstep w Hbuttons Hcontent) as (w1 & Hrun1 & Hlog1 & Hkept1 & Hb1 & Hc1).
  destruct (Hstep w1 Hb1 Hc1) as (w2 & Hrun2 & Hlog2 & Hkept2 & Hb2 & Hc2).
  destruct (Hstep w2 Hb2 Hc2) as (w3 & Hrun3 & Hlog3 & Hkept3 & Hb3 & Hc3).
  destruct (Hstep w3 Hb3 Hc3) as (w4 & Hrun4 & Hlog4 & Hkept4 & Hb4 & Hc4).
  destruct (Hstep w4 Hb4 Hc4) as (w5 & Hrun5 & Hlog5 & Hkept5 & Hb5 & Hc5).
  exists w5.
  split.
  - erewrite bind_ok; [|erewrite bind_ok; [|exact Hrun1]; reflexivity].
    erewrite bind_ok; [|erewrite bind_ok; [|exact Hrun2]; reflexivity].
    erewrite bind_ok; [|erewrite bind_ok; [|exact Hrun3]; reflexivity].
    erewrite bind_ok; [|erewrite bind_ok; [|exact Hrun4]; reflexivity].
    erewrite bind_ok; [|erewrite bind_ok; [|exact Hrun5]; reflexivity].
    reflexivity.
  - split; [congruence|]. intros X g g_children g_menu.
    rewrite (Hkept5 X g), (Hkept4 X g), (Hkept3 X g), (Hkept2 X g) by done.
    by apply Hkept1.
Qed.

(** The callback of the current page, if it has one. *)
Lemma page_action_run (interaction : option Interaction.t) (w : World)
    (content : Page.t) :
  current_content (obj w) = Ok content ->
  page_action interaction w
  = (mkWorld (store w) (obj w)
       (log w ++ match Page.callback content with
                 | Some callback => [PageCallback callback interaction]
                 | None => []
                 end), Ok tt).
Proof.
  unfold current_content, page_action. intros Hcontent.
  rewrite bind_get_self, bind_lift.
  destruct (py_getitem (pages (obj w)) (current_page (obj w))) as [page|e];
    [|done].
  cbn [result_bind] in Hcontent. rewrite bind_lift, Hcontent.
  destruct (Page.callback content); [done|].
  by rewrite app_nil_r, world_eta.
Qed.

(** [goto_page] for a page that can be prepared, on a paginator that has a
    message. *)
Lemma goto_page_run (n : Z) (interaction : option Interaction.t) (w : World)
    (msg : Message) (content : Page.t) :
  message (obj w) = Some msg ->
  has_buttons (obj w) ->
  current_content (set_current_page n (obj w)) = Ok content ->
  exists w',
    goto_page n interaction w = (w', Ok tt) /\
    log w'
    = log w
      ++ match interaction with
         | Some i =>
             [ResponseDefer i;
              FollowupEditMessage i msg
                (mkPayload (Page.content content) (Page.embeds content)
                   (Page.files content) (children (obj w')))]
         | None =>
             [MessageEdit msg
                (mkPayload (Page.content content) (Page.embeds content)
                   (Page.files content) (children (obj w')))]
         end
      ++ (if truthy (trigger_on_display (obj w))
          then match Page.callback content with
               | Some callback => [PageCallback callback interaction]
               | None => []
               end
          else []).
Proof.
  intros Hmessage Hbuttons Hcontent.
  unfold goto_page. rewrite bind_assign.
  set (w0 := mkWorld (store w) (set_current_page n (obj w)) (log w)).
  destruct (prepare_run true w0 content Hbuttons Hcontent)
    as (w1 & Hrun1 & Hlog1 & Hkept1).
  erewrite bind_ok; [|exact Hrun1].
  assert (Hb1 : has_buttons (obj w1)).
  { eapply has_buttons_ext; [| |exact Hbuttons].
    - kept Hkept1 buttons.
    - kept Hkept1 show_indicator. }
  assert (Hc1 : current_content (obj w1) = Ok content).
  { rewrite <- Hcontent. apply current_content_ext.
    - kept Hkept1 pages.
    - kept Hkept1 current_page. }
  assert (Hm1 : message (obj w1) = Some msg).
  { rewrite <- Hmessage. kept Hkept1 message. }
  assert (Ht1 : trigger_on_display (obj w1) = trigger_on_display (obj w))
    by kept Hkept1 trigger_on_display.
  assert (Hfinish : forall w2 : World,
            current_content (obj w2) = Ok content ->
            trigger_on_display (obj w2) = trigger_on_display (obj w) ->
            (let* self := get_self in
             when (truthy (trigger_on_display self)) (page_action interaction))
              w2
            = (mkWorld (store w2) (obj w2)
                 (log w2
                  ++ (if truthy (trigger_on_display (obj w))
                      then match Page.callback content with
                           | Some callback => [PageCallback callback interaction]
                           | None => []
                           end
                      else [])), Ok tt)).
  { intros w2 Hc2 Ht2. rewrite bind_get_self, Ht2.
    destruct (truthy (trigger_on_display (obj w))); cbn [when].
    - by apply page_action_run.
    - by rewrite app_nil_r, world_eta. }
  destruct interaction as [i|].
  - rewrite bind_assoc, bind_host_call, bind_assoc, bind_get_self.
    cbn [obj]. rewrite Hm1. rewrite bind_assoc.
    destruct (unpack_self_run
                (mkWorld (store w1) (obj w1) (log w1 ++ [ResponseDefer i]))
                content Hb1 Hc1) as (w2 & Hrun2 & Hlog2 & Hkept2).
    erewrite bind_ok; [|exact Hrun2]. rewrite bind_host_call.
    rewrite Hfinish.
    + eexists. split; [reflexivity|]. cbn [log obj].
      rewrite Hlog2. cbn [log]. rewrite Hlog1. cbn [log].
      by rewrite <- !app_assoc.
    + cbn [obj]. rewrite <- Hc1. apply current_content_ext.
      * kept Hkept2 pages.
      * kept Hkept2 current_page.
    + cbn [obj]. rewrite <- Ht1. kept Hkept2 trigger_on_display.
  - rewrite bind_assoc, bind_get_self. rewrite Hm1. rewrite bind_assoc.
    destruct (unpack_self_run w1 content Hb1 Hc1)
      as (w2 & Hrun2 & Hlog2 & Hkept2).
    erewrite bind_ok; [|exact Hrun2]. rewrite bind_host_call.
    rewrite Hfinish.
    + eexists. split; [reflexivity|]. cbn [log obj].
      rewrite Hlog2, Hlog1. cbn [log].
      by rewrite <- !app_assoc.
    + cbn [obj]. rewrite <- Hc1. apply current_content_ext.
      * kept Hkept2 pages.
      * kept Hkept2 current_page.
    + cbn [obj]. rewrite <- Ht1. kept Hkept2 trigger_on_display.
Qed.

(** X17: [goto_page] on a paginator that has a message.  It returns exactly
    if the page asked for can be prepared: the buttons that [update_buttons]
    looks up are registered, and the page exists and has a supported
    content.  The host then receives one edit of the stored message with
    the content, the embeds and the files of that page and the items of the
    view — through the interaction and after a deferral if one is given —
    followed by the callback of the page if [trigger_on_display] is on and
    the page has one.  When [goto_page] raises, the host has received
    nothing.  Either way [current_page] is the number asked for. *)
Theorem goto_page_sent (n : Z) (interaction : option Interaction.t)
    (w : World) (msg : Message) :
  message (obj w) = Some msg ->
  ((goto_page n interaction w).2 = Ok tt <->
   has_buttons (obj w) /\
   exists content, current_content (set_current_page n (obj w)) = Ok content) /\
  (forall content,
     has_buttons (obj w) ->
     current_content (set_current_page n (obj w)) = Ok content ->
     let kwargs :=
       mkPayload (Page.content content) (Page.embeds content)
         (Page.files content)
         (children (obj (goto_page n interaction w).1)) in
     log (goto_page n interaction w).1
     = log w
       ++ match interaction with
          | Some i => [ResponseDefer i; FollowupEditMessage i msg kwargs]
          | None => [MessageEdit msg kwargs]
          end
       ++ (if truthy (trigger_on_display (obj w))
           then match Page.callback content with
                | Some callback => [PageCallback callback interaction]
                | None => []
                end
           else [])) /\
  (forall e, (goto_page n interaction w).2 = Raise e ->
             log (goto_page n interaction w).1 = log w) /\
  current_page (obj (goto_page n interaction w).1) = n.
Proof.
  intros Hmessage.
  set (w0 := mkWorld (store w) (set_current_page n (obj w)) (log w)).
  destruct (prepare_cases_frame true w0) as (Hiff & _ & Hlog0).
  change (obj w0) with (set_current_page n (obj w)) in Hiff.
  change (has_buttons (set_current_page n (obj w)))
    with (has_buttons (obj w)) in Hiff.
  split; [|split; [|split; [|by rewrite (goto_page_frame current_page)]]].
  - split.
    + intros Hok. apply Hiff.
      unfold goto_page in Hok. rewrite bind_assign in Hok. fold w0 in Hok.
      destruct (_prepare true w0) as [w1 [payload|e]] eqn:Hprepare; [eauto|].
      erewrite bind_raise in Hok; [|exact Hprepare]. done.
    + intros [Hbuttons [content Hcontent]].
      destruct (goto_page_run n interaction w msg content)
        as (w' & -> & _); done.
  - intros content Hbuttons Hcontent.
    destruct (goto_page_run n interaction w msg content)
      as (w' & -> & Hlog); done.
  - intros e Hraise.
    destruct (_prepare true w0) as [w1 [payload|e1]] eqn:Hprepare.
    + exfalso. destruct Hiff as [Hiff _].
      destruct Hiff as [Hbuttons [content Hcontent]]; [eauto|].
      destruct (goto_page_run n interaction w msg content)
        as (w' & Hrun & _); [done..|].
      rewrite Hrun in Hraise. done.
    + unfold goto_page. rewrite bind_assign. fold w0.
      erewrite bind_raise; [|exact Hprepare]. exact Hlog0.
Qed.

Lemma goto_page_sent_witness :
  ((goto_page 1 None Sample.sent).2 = Ok tt <->
   has_buttons (obj Sample.sent) /\
   exists content,
     current_content (set_current_page 1 (obj Sample.sent)) = Ok content) /\
  (forall content,
     has_buttons (obj Sample.sent) ->
     current_content (set_current_page 1 (obj Sample.sent)) = Ok content ->
     let kwargs :=
       mkPayload (Page.content content) (Page.embeds content)
         (Page.files content)
         (children (obj (goto_page 1 None Sample.sent).1)) in
     log (goto_page 1 None Sample.sent).1
     = log Sample.sent
       ++ [MessageEdit Sample.first_message kwargs]
       ++ (if truthy (trigger_on_display (obj Sample.sent))
           then match Page.callback content with
                | Some callback => [PageCallback callback None]
                | None => []
                end
           else [])) /\
  (forall e, (goto_page 1 None Sample.sent).2 = Raise e ->
             log (goto_page 1 None Sample.sent).1 = log Sample.sent) /\
  current_page (obj (goto_page 1 None Sample.sent).1) = 1.
Proof.
  apply (goto_page_sent 1 None Sample.sent Sample.first_message).
  reflexivity.
Defined.

(** ** The page list given to [update] *)

Lemma raises_weaken {A} (E E' : exn -> Prop) (m : M A) :
  (forall e, E e -> E' e) -> raises E m -> raises E' m.
Proof. intros HE Hm w e He. apply HE. by apply (Hm w). Qed.

Lemma not_ValueError_other e : not_ValueError e -> e <> ConfigurationError.
Proof. by intros He ->. Qed.

(** X18: the page list of [update].  [update] raises "Only one PageGroup
    can be set as the default." exactly when a page list is passed that
    starts with page groups of which two or more are flagged default.  When
    the list passed holds page groups only (the empty list does) and at most
    one is flagged, [update] raises the [ValueError] of the lookup of the
    default group if [show_menu] is not passed as true in the same call,
    whatever the paginator's own [show_menu] says, and also if none is
    flagged and the list searched holds no [None]: the list passed when it is
    not empty, the paginator's old pages when it is.  When the empty list is
    passed with [show_menu] true and the old pages hold a [None], the lookup
    finds it and [update] raises an [AttributeError] instead. *)
Theorem update_page_list (a : UpdateArgs.t) (w : World) :
  ((update a w).2 = Raise ConfigurationError <->
   exists l, UpdateArgs.pages a = Some l /\ (2 <= leading_defaults l)%nat) /\
  (forall l,
     UpdateArgs.pages a = Some l ->
     forallb is_PageGroup l = true ->
     (leading_defaults l < 2)%nat ->
     truthy (UpdateArgs.show_menu a) = false \/
     (leading_defaults l = 0%nat /\
      (l <> [] \/ Single ANone ∉ pages (obj w))) ->
     (update a w).2 = Raise NotInList) /\
  (UpdateArgs.pages a = Some [] ->
   truthy (UpdateArgs.show_menu a) = true ->
   Single ANone ∈ pages (obj w) ->
   exists msg, (update a w).2 = Raise (AttributeError msg)).
Proof.
  unfold update. rewrite !bind_assign.
  match goal with
  | |- context [bind _ _ ?w0] => set (w1 := w0)
  end.
  assert (Hold : pages (obj w1) =
                 if nonempty (UpdateArgs.pages a)
                 then default [] (UpdateArgs.pages a) else pages (obj w))
    by done.
  destruct (UpdateArgs.pages a) as [l|] eqn:Hpages.
  - rewrite bind_assoc, bind_lift, scan_page_groups_spec.
    rewrite Nat.add_0_r.
    destruct (decide (2 <= leading_defaults l)%nat) as [Htwo|Htwo].
    + split; [split; eauto|]. split.
      * intros l' [= <-] _ Hless. lia.
      * intros [= ->]. unfold leading_defaults in Htwo. simpl in Htwo. lia.
    + match goal with
      | |- context [bind ?m ?k w1] =>
          assert (Hrest : raises (fun e => e <> ConfigurationError) (bind m k))
      end.
      { method_steps;
          try (apply raises_lift; intros e He;
               first [apply py_index_raises in He
                     |apply py_getitem_raises in He
                     |apply get_page_group_content_raises in He];
               first [by subst|by apply not_ValueError_other]);
          auto using assign_given_raises, assign_supplied_raises;
          (eapply raises_weaken; [apply not_ValueError_other|]);
          auto using add_button_raises, add_default_buttons_raises,
            goto_page_raises. }
      split; [|split].
      * split; [|by intros (l' & [= <-] & ?)].
        intros Hraise. by apply (Hrest w1) in Hraise.
      * intros l' [= <-] Hall _ Hnone. rewrite Hall.
        rewrite bind_assoc, bind_get_self, bind_assoc, bind_assign.
        rewrite bind_assoc, bind_lift.
        assert (Hindex :
          py_index
            (is_default_group
               (head (List.filter PageGroup.default (leading_groups l))))
            (if truthy (UpdateArgs.show_menu a) then pages (obj w1) else [])
          = Raise NotInList).
        { destruct Hnone as [->|[Hnone Hsearched]]; [done|].
          unfold leading_defaults in Hnone.
          apply length_zero_iff_nil in Hnone. rewrite Hnone.
          apply py_index_no_default.
          destruct (truthy (UpdateArgs.show_menu a)); [|apply not_elem_of_nil].
          rewrite Hold. destruct l as [|x l]; simpl.
          - by destruct Hsearched.
          - by apply groups_hold_no_None. }
        by rewrite Hindex.
      * intros [= ->] Hmenu Hin.
        change (pages (obj w1) = pages (obj w)) in Hold.
        cbn [leading_groups List.filter head forallb].
        rewrite bind_assoc, bind_get_self, bind_assoc, bind_assign.
        rewrite bind_assoc, bind_lift, Hmenu, Hold.
        destruct (list_find_index_Some (is_default_group None)
                    (pages (obj w)) (Single ANone))
          as (i & y & Hi & Hlookup & Hy);
          [done|by apply bool_decide_eq_true|].
        apply bool_decide_eq_true in Hy. subst y.
        unfold py_index. rewrite Hi. cbn [result_bind].
        rewrite bind_assoc, bind_assign, bind_assoc, bind_lift.
        rewrite (py_getitem_nat _ _ _ Hlookup). cbn [result_bind].
        rewrite bind_assoc, bind_lift. simpl. eauto.
  - split; [|split; [done|done]]. split; [|by intros (l & [=] & _)].
    rewrite bind_return. intros Hraise. exfalso.
    match type of Hraise with
    | (?m ?w0).2 = _ =>
        assert (Hrest : raises (fun e => e <> ConfigurationError) m)
    end.
    { method_steps;
        auto using assign_given_raises, assign_supplied_raises;
        (eapply raises_weaken; [apply not_ValueError_other|]);
        auto using add_button_raises, add_default_buttons_raises,
          goto_page_raises. }
    by apply (Hrest w1) in Hraise.
Qed.

Lemma update_page_list_witness :
  (update (Sample.new_pages []) Sample.sent).2 = Raise NotInList /\
  exists msg,
    (update Example.empty_menu Example.with_None).2 =
    Raise (AttributeError msg).
Proof.
  split.
  - apply (proj1 (proj2 (update_page_list (Sample.new_pages []) Sample.sent))
             []).
    + reflexivity.
    + reflexivity.
    + unfold leading_defaults. simpl. lia.
    + by left.
  - apply (proj2 (proj2 (update_page_list Example.empty_menu
                           Example.with_None))).
    + reflexivity.
    + reflexivity.
    + apply list_elem_of_In. simpl. by right; left.
Defined.

(** ** The buttons after [update] *)

Lemma obj_only_ret {A} (a : A) : obj_only (ret a).
Proof. by intros w. Qed.

Lemma obj_only_lift {A} (r : result A) : obj_only (lift r).
Proof. by intros w. Qed.

Lemma obj_only_get_self : obj_only get_self.
Proof. by intros w. Qed.

Lemma obj_only_assign f : obj_only (assign f).
Proof. by intros w. Qed.

Lemma obj_only_bind {A B} (m : M A) (f : A -> M B) :
  obj_only m -> (forall a, obj_only (f a)) -> obj_only (bind m f).
Proof.
  intros Hm Hf w. unfold bind. specialize (Hm w).
  destruct (m w) as [w1 [a|e]]; [|done].
  specialize (Hf a w1). cbn in Hm. destruct Hm as [<- <-]. exact Hf.
Qed.

Lemma obj_only_assign_given {A} (v : option A) set :
  obj_only (assign_given v set).
Proof. destruct v; [apply obj_only_assign|apply obj_only_ret]. Qed.

Lemma obj_only_assign_supplied {A} (v : supplied A) set :
  obj_only (assign_supplied v set).
Proof. destruct v; [apply obj_only_ret|apply obj_only_assign]. Qed.

Ltac obj_only_steps :=
  repeat lazymatch goal with
    | |- obj_only (bind _ _) => apply obj_only_bind; [|intros]
    | |- obj_only (ret _) => apply obj_only_ret
    | |- obj_only (lift _) => apply obj_only_lift
    | |- obj_only get_self => apply obj_only_get_self
    | |- obj_only (assign _) => apply obj_only_assign
    | |- obj_only (assign_given _ _) => apply obj_only_assign_given
    | |- obj_only (assign_supplied _ _) => apply obj_only_assign_supplied
    | |- obj_only (match ?x with _ => _ end) => destruct x
    end.

Lemma obj_only_run {A} (m : M A) w w' res :
  obj_only m -> m w = (w', res) -> store w' = store w /\ log w' = log w.
Proof. intros Hm Hrun. specialize (Hm w). by rewrite Hrun in Hm. Qed.

Lemma registry_of_ext (objects objects' : list PaginatorButton.t)
    (l : list nat) (registry : dict PaginatorButtonType.t nat) :
  (forall r : nat, PaginatorButton.button_type (objects' !!! r)
                   = PaginatorButton.button_type (objects !!! r)) ->
  registry_of objects' l registry = registry_of objects l registry.
Proof.
  intros Htype. revert registry. unfold registry_of, ref.
  induction l as [|r l IH]; intros registry; [done|].
  cbn [fold_left]. by rewrite IH, Htype.
Qed.

(** The registry after a list of buttons is added. *)
Lemma for_each_add_button_registry (l : list nat) (w : World) :
  buttons (obj (for_each l add_button w).1)
  = registry_of (store w) l (buttons (obj w)).
Proof.
  revert w. induction l as [|r l IH]; intros w; [done|].
  cbn [for_each]. erewrite bind_ok; [|apply add_button_run].
  rewrite IH. cbn [store obj buttons set_buttons].
  rewrite (registry_of_ext (store w)); [done|].
  intros r0. destruct (decide (r = r0)) as [->|Hne].
  - rewrite !list_lookup_total_alt, list_lookup_alter_eq.
    destruct (store w !! r0) as [b|]; [|done]. cbn. apply registered_type.
  - by rewrite list_lookup_total_alter_ne.
Qed.

(** One statement of [update] before the buttons are looked at: the button
    objects and the registry stay as they are. *)
Ltac update_prefix_step Hrun Hstore Hbuttons :=
  lazymatch type of Hrun with
  | bind get_self _ _ = _ => fail
  | bind ?m _ _ = _ =>
      let w1 := fresh "w" in
      let x := fresh "x" in
      let Hstep := fresh "Hstep" in
      let Hkeeps := fresh "Hkeeps" in
      apply bind_cases in Hrun as [(w1 & x & Hstep & Hrun)|(? & _ & [=])];
      assert (Hkeeps : keeps buttons m)
        by (method_steps;
            auto using keeps_assign_given, keeps_assign_supplied);
      apply (keeps_run _ _ _ _ _ Hkeeps) in Hstep as Hkeeps';
      apply obj_only_run in Hstep as [Hstep _]; [|obj_only_steps];
      rewrite Hstore in Hstep; rewrite Hbuttons in Hkeeps';
      clear Hstore Hbuttons Hkeeps;
      rename Hstep into Hstore; rename Hkeeps' into Hbuttons
  end.

(** X19: the buttons after [update].  When [update] returns, the registry
    depends on the settings as they are after the call.  With
    [use_default_buttons] on, it holds the five default types and nothing
    else, each leading to a button object made by this call, whatever was
    registered before.  Otherwise, with a list of custom buttons, it holds
    exactly the buttons of that list, each under its own type, a later one
    replacing an earlier one of the same type; without such a list it is as
    before the call. *)
Theorem update_registry (a : UpdateArgs.t) (w w' : World) :
  update a w = (w', Ok tt) ->
  if use_default_buttons (obj w') then
    buttons (obj w')
    = [(PaginatorButtonType.first, length (store w));
       (PaginatorButtonType.prev, (length (store w) + 1)%nat);
       (PaginatorButtonType.page_indicator, (length (store w) + 2)%nat);
       (PaginatorButtonType.next, (length (store w) + 3)%nat);
       (PaginatorButtonType.last, (length (store w) + 4)%nat)]
  else
    match custom_buttons (obj w') with
    | Some custom => buttons (obj w') = registry_of (store w) custom []
    | None => buttons (obj w') = buttons (obj w)
    end.
Proof.
  unfold update. intros Hrun.
  assert (Hstore : store w = store w) by done.
  assert (Hbuttons : buttons (obj w) = buttons (obj w)) by done.
  revert Hrun Hstore Hbuttons.
  generalize w at 1 2 4. intros w0 Hrun Hstore Hbuttons.
  repeat update_prefix_step Hrun Hstore Hbuttons.
  rewrite bind_get_self in Hrun.
  apply bind_cases in Hrun as [(w19 & [] & Hinstall & Hrun)|(? & _ & [=])].
  apply (keeps_run (fun self => (buttons self, use_default_buttons self,
                                 custom_buttons self))) in Hrun;
    [|by apply keeps_goto_current].
  injection Hrun as -> -> ->.
  destruct (use_default_buttons (obj w18)) eqn:Hdefault.
  - rewrite bind_assign, add_default_buttons_run in Hinstall.
    injection Hinstall as <-.
    cbn [store obj buttons set_buttons use_default_buttons].
    rewrite Hdefault, Hstore. cbn [dict_set]. done.
  - destruct (custom_buttons (obj w18)) as [custom|] eqn:Hcustom.
    + rewrite bind_assign in Hinstall.
      pose proof (for_each_add_button_registry custom
                    (mkWorld (store w18) (set_buttons [] (obj w18)) (log w18)))
        as Hregistry.
      pose proof (keeps_for_each
                    (fun self => (use_default_buttons self, custom_buttons self))
                    custom add_button
                    (fun r =>
                       keeps_add_button
                         (fun self => (use_default_buttons self,
                                       custom_buttons self))
                         (fun _ _ => eq_refl) r)
                    (mkWorld (store w18) (set_buttons [] (obj w18)) (log w18)))
        as Hkept.
      unfold ref in *. rewrite Hinstall in Hregistry, Hkept.
      cbn [fst store obj buttons set_buttons use_default_buttons
             custom_buttons] in Hregistry, Hkept.
      injection Hkept as -> ->. rewrite Hdefault, Hcustom.
      by rewrite Hregistry, Hstore.
    + injection Hinstall as <-. by rewrite Hdefault, Hcustom.
Qed.

Lemma update_registry_witness :
  if use_default_buttons (obj Example.updated) then
    buttons (obj Example.updated)
    = [(PaginatorButtonType.first, length (store Sample.sent));
       (PaginatorButtonType.prev, (length (store Sample.sent) + 1)%nat);
       (PaginatorButtonType.page_indicator,
        (length (store Sample.sent) + 2)%nat);
       (PaginatorButtonType.next, (length (store Sample.sent) + 3)%nat);
       (PaginatorButtonType.last, (length (store Sample.sent) + 4)%nat)]
  else
    match custom_buttons (obj Example.updated) with
    | Some custom =>
        buttons (obj Example.updated)
        = registry_of (store Sample.sent) custom []
    | None => buttons (obj Example.updated) = buttons (obj Sample.sent)
    end.
Proof.
  apply (update_registry (Sample.show_page 1) Sample.sent Example.updated).
  vm_compute. reflexivity.
Defined.

(** ** Closing the paginator *)

Import Closing.

Lemma remove_first_app {A} `{EqDecision A} (x : A) (pre l : list A) :
  x ∉ pre -> remove_first x (pre ++ x :: l) = pre ++ l.
Proof.
  induction pre as [|y pre IH]; intros Hx; simpl.
  - by rewrite decide_True.
  - rewrite decide_False by (intros ->; apply Hx; left).
    f_equal. apply IH. intros Hin. apply Hx. by right.
Qed.

(** The loop of [cancel], with the items [pre] already passed over. *)
Lemma cancel_loop (include_custom : bool) (items pre : list Item) (w : World) :
  children (obj w) = pre ++ items ->
  Forall (fun item => targeted include_custom (obj w) item = false) pre ->
  for_each items (fun item =>
    let* self := get_self in
    when (targeted include_custom self item) (remove_item item)) w
  = (mkWorld (store w)
       (set_children
          (pre ++ List.filter
                    (fun item => negb (targeted include_custom (obj w) item))
                    items)
          (obj w))
       (log w), Ok tt).
Proof.
  revert pre w. induction items as [|x items IH]; intros pre w Hchildren Hpre.
  - cbn. by rewrite <- Hchildren, set_children_id, world_eta.
  - cbn [for_each List.filter]. rewrite bind_assoc, bind_get_self.
    destruct (targeted include_custom (obj w) x) eqn:Hx; cbn [when negb].
    + unfold remove_item. rewrite bind_assign, Hchildren.
      rewrite remove_first_app.
      2: { intros Hin. rewrite Forall_forall in Hpre.
           specialize (Hpre x Hin). congruence. }
      rewrite (IH pre); [|done|done].
      cbn [store obj log]. by rewrite set_children_twice.
    + rewrite bind_return.
      rewrite (IH (pre ++ [x])).
      * by rewrite <- app_assoc.
      * by rewrite <- app_assoc.
      * apply Forall_app. split; [done|]. by constructor.
Qed.

(** X20: [cancel] and [disable] without a page.  Both normalise their
    argument [page] before anything else, and the value it has when omitted,
    [None], is of no supported type: called without a page, or with one that
    cannot be normalised, they raise the [TypeError] of the normalisation and
    leave the paginator as it is — no item is removed or disabled and the
    message is not edited. *)
Theorem closing_without_page (page_truth : Page.t -> bool)
    (include_custom : bool) (s : Session) :
  cancel page_truth include_custom None s = (s, Raise UnsupportedContentError) /\
  disable page_truth include_custom None s
  = (s, Raise UnsupportedContentError) /\
  (forall page e,
     get_page_content (page_argument page) = Raise e ->
     (e = ContentTypeError \/ e = UnsupportedContentError) /\
     cancel page_truth include_custom page s = (s, Raise e) /\
     disable page_truth include_custom page s = (s, Raise e)).
Proof.
  split; [done|]. split; [done|]. intros page e Hpage.
  split; [by apply get_page_content_raises in Hpage|].
  unfold cancel, disable. by rewrite Hpage.
Qed.

Lemma closing_without_page_witness :
  (ContentTypeError = ContentTypeError \/
   ContentTypeError = UnsupportedContentError) /\
  cancel (fun _ => true) true (Some (Single (AList [OtherItem]))) sample
  = (sample, Raise ContentTypeError) /\
  disable (fun _ => true) true (Some (Single (AList [OtherItem]))) sample
  = (sample, Raise ContentTypeError).
Proof.
  apply (proj2 (proj2 (closing_without_page (fun _ => true) true sample))
           (Some (Single (AList [OtherItem]))) ContentTypeError).
  reflexivity.
Defined.

(** X21: [cancel] with a page that can be normalised.  The items of the
    view that are left are those of the custom view, in their order, and
    none at all if [include_custom] is on or there is no custom view.  On a
    paginator that has a message, [cancel] then makes one edit of that
    message, showing the view with what is left of it; on one that has none
    it raises after the items were removed.  Nothing else is written to. *)
Theorem cancel_spec (page_truth : Page.t -> bool) (include_custom : bool)
    (page : option PagesItem) (content : Page.t) (s : Session) :
  get_page_content (page_argument page) = Ok content ->
  let self := obj (world s) in
  let left := spared include_custom self in
  let w' := mkWorld (store (world s)) (set_children left self) (log (world s)) in
  cancel page_truth include_custom page s
  = match message self with
    | Some msg =>
        (mkSession w' (disabled_items s)
           (edits s ++ [closing_edit page_truth content msg left]) (stopped s),
         Ok tt)
    | None =>
        (mkSession w' (disabled_items s) (edits s) (stopped s),
         Raise NotReadyError)
    end /\
  (forall item,
     item ∈ left <->
     item ∈ children self /\
     include_custom = false /\
     exists view i,
       the_view (custom_view self) = Some view /\
       item = CustomItem i /\ i ∈ View.children view).
Proof.
  intros Hpage self left w'. split.
  - subst self left w'. unfold cancel, spared. rewrite Hpage.
    rewrite (cancel_loop include_custom (children (obj (world s))) []);
      [|done|done].
    unfold edit_message, set_world.
    cbn [fst world obj message set_children app disabled_items edits stopped
           children].
    by destruct (message (obj (world s))).
  - intros item. unfold left, spared.
    rewrite list_elem_of_In, filter_In, <- list_elem_of_In.
    unfold targeted.
    destruct include_custom; cbn [orb negb].
    { split; [by intros [_ [=]]|by intros (_ & [=] & _)]. }
    destruct (the_view (custom_view self)) as [view|]; cbn [negb].
    2: { split; [by intros [_ [=]]|by intros (_ & _ & ? & ? & [=] & _)]. }
    rewrite negb_involutive, bool_decide_eq_true, list_elem_of_fmap.
    split.
    + intros (Hin & i & -> & Hi). eauto 10.
    + intros (Hin & _ & view' & i & [= <-] & -> & Hi). eauto.
Qed.

Lemma cancel_spec_witness :
  let self := obj (world sample) in
  let left := spared false self in
  let w' :=
    mkWorld (store (world sample)) (set_children left self)
      (log (world sample)) in
  cancel (fun _ => true) false goodbye sample
  = match message self with
    | Some msg =>
        (mkSession w' (disabled_items sample)
           (edits sample
            ++ [closing_edit (fun _ => true) (Page.new (Some "Goodbye") [] [])
                  msg left])
           (stopped sample),
         Ok tt)
    | None =>
        (mkSession w' (disabled_items sample) (edits sample) (stopped sample),
         Raise NotReadyError)
    end /\
  (forall item,
     item ∈ left <->
     item ∈ children self /\
     false = false /\
     exists view i,
       the_view (custom_view self) = Some view /\
       item = CustomItem i /\ i ∈ View.children view).
Proof.
  apply (cancel_spec (fun _ => true) false goodbye
           (Page.new (Some "Goodbye") [] []) sample).
  reflexivity.
Defined.

(** A loop that sets [disabled] on the items that satisfy a test of the
    paginator's attributes. *)
Lemma disable_fold (p : t -> Item -> bool) (l : list Item) (s : Session) :
  let s1 :=
    fold_left
      (fun s item => if p (obj (world s)) item then disable_item item s else s)
      l s in
  obj (world s1) = obj (world s) /\
  log (world s1) = log (world s) /\
  edits s1 = edits s /\
  stopped s1 = stopped s /\
  (forall r : nat,
     store (world s1) !! r
     = (fun b => if disables (p (obj (world s))) l r
                 then PaginatorButton.set_disabled true b else b)
         <$> store (world s) !! r) /\
  disabled_items s1
  = rev (List.filter
           (fun item => p (obj (world s)) item && negb (is_button item)) l)
    ++ disabled_items s.
Proof.
  revert s. induction l as [|x l IH]; intros s; cbn [fold_left].
  - cbn. repeat split; try done. intros r. by destruct (store (world s) !! r).
  - set (s' := if p (obj (world s)) x then disable_item x s else s).
    assert (Hobj : obj (world s') = obj (world s)).
    { subst s'. destruct (p (obj (world s)) x); [|done]. by destruct x. }
    destruct (IH s') as (IHobj & IHlog & IHedits & IHstopped & IHstore & IHitems).
    rewrite Hobj in *.
    split; [by rewrite IHobj|].
    split; [rewrite IHlog; subst s'; by destruct (p _ x), x|].
    split; [rewrite IHedits; subst s'; by destruct (p _ x), x|].
    split; [rewrite IHstopped; subst s'; by destruct (p _ x), x|].
    split.
    + intros r. rewrite IHstore. unfold disables. cbn [existsb].
      fold (disables (p (obj (world s))) l r).
      subst s'. destruct (p (obj (world s)) x); cbn [andb orb]; [|done].
      destruct x as [r0|m|i]; cbn [disable_item world set_world store];
        try (rewrite bool_decide_false by done; done).
      destruct (decide (r0 = r)) as [->|Hne].
      * rewrite bool_decide_true by done. cbn [orb].
        rewrite list_lookup_alter_eq.
        destruct (store (world s) !! r) as [b|]; [|done]. cbn.
        by destruct (disables _ l r).
      * rewrite bool_decide_false by congruence. cbn [orb].
        by rewrite list_lookup_alter_ne.
    + rewrite IHitems. cbn [List.filter]. subst s'.
      destruct (p (obj (world s)) x); cbn [andb]; [|done].
      destruct x as [r0|m|i]; cbn [is_button negb rev disable_item
                                     disabled_items set_world];
        [done|by rewrite <- app_assoc..].
Qed.

Lemma disables_buttons (p : Item -> bool) (l : list Item) (r : nat) :
  (forall r', p (ButtonItem r') = true) ->
  disables p l r = bool_decide (ButtonItem r ∈ l).
Proof.
  intros Hp. induction l as [|x l IH]; [done|].
  unfold disables in *. cbn [existsb]. rewrite IH.
  destruct (decide (x = ButtonItem r)) as [->|Hne].
  - rewrite Hp. rewrite (bool_decide_true (ButtonItem r = _)) by done.
    cbn [andb orb]. symmetry. apply bool_decide_eq_true. by left.
  - rewrite (bool_decide_false (x = _)) by done. rewrite andb_false_r.
    cbn [orb]. apply bool_decide_ext. rewrite elem_of_cons.
    split; [by right|]. intros [Heq|Hin]; [by destruct Hne|done].
Qed.

Lemma targeted_button include_custom self r :
  targeted include_custom self (ButtonItem r) = true.
Proof.
  unfold targeted. destruct include_custom; [done|].
  destruct (the_view (custom_view self)) as [view|]; [|done].
  cbn. rewrite bool_decide_false; [done|].
  by intros (i & [=] & _)%list_elem_of_fmap.
Qed.

Lemma elem_of_rev_filter (f : Item -> bool) (l d : list Item) (item : Item) :
  item ∈ rev (List.filter f l) ++ d <->
  item ∈ d \/ (item ∈ l /\ f item = true).
Proof.
  rewrite elem_of_app, !list_elem_of_In, <- in_rev, filter_In. tauto.
Qed.

Lemma elem_of_spared include_custom self (item : Item) :
  item ∈ spared include_custom self <->
  item ∈ children self /\ targeted include_custom self item = false.
Proof.
  unfold spared. rewrite list_elem_of_In, filter_In, <- list_elem_of_In.
  by rewrite negb_true_iff.
Qed.

(** X22: [disable] with a page that can be normalised.  Every button of
    the view is disabled, and so are the menu and the custom items, except
    that the items of the custom view are passed over unless
    [include_custom] is on.  The items stay in the view and nothing else
    is written to.  On a paginator that has a message, [disable] then makes
    one edit of that message; on one that has none it raises after the
    items were disabled. *)
Theorem disable_spec (page_truth : Page.t -> bool) (include_custom : bool)
    (page : option PagesItem) (content : Page.t) (s : Session) :
  get_page_content (page_argument page) = Ok content ->
  let self := obj (world s) in
  let s' := (disable page_truth include_custom page s).1 in
  (disable page_truth include_custom page s).2
  = match message self with
    | Some _ => Ok tt
    | None => Raise NotReadyError
    end /\
  edits s'
  = edits s ++ match message self with
               | Some msg =>
                   [closing_edit page_truth content msg (children self)]
               | None => []
               end /\
  obj (world s') = self /\
  log (world s') = log (world s) /\
  stopped s' = stopped s /\
  (forall r : nat,
     store (world s') !! r
     = (fun b => if bool_decide (ButtonItem r ∈ children self)
                 then PaginatorButton.set_disabled true b else b)
         <$> store (world s) !! r) /\
  (forall item,
     is_button item = false ->
     (item ∈ disabled_items s' <->
      item ∈ disabled_items s \/
      (item ∈ children self /\ item ∉ spared include_custom self))).
Proof.
  intros Hpage self s'. subst s'. unfold disable. rewrite Hpage.
  destruct (disable_fold (targeted include_custom) (children self) s)
    as (Hobj & Hlog & Hedits & Hstopped & Hstore & Hitems).
  fold self in Hobj, Hlog, Hedits, Hstopped, Hstore, Hitems |- *.
  set (s1 := fold_left _ (children self) s) in *.
  unfold edit_message. rewrite Hobj.
  assert (Hgoal :
    (forall r : nat,
       store (world s1) !! r
       = (fun b => if bool_decide (ButtonItem r ∈ children self)
                   then PaginatorButton.set_disabled true b else b)
           <$> store (world s) !! r) /\
    (forall item,
       is_button item = false ->
       (item ∈ disabled_items s1 <->
        item ∈ disabled_items s \/
        (item ∈ children self /\ item ∉ spared include_custom self)))).
  { split.
    - intros r. rewrite Hstore, disables_buttons; [done|].
      intros r'. apply targeted_button.
    - intros item Hitem. rewrite Hitems, elem_of_rev_filter.
      rewrite elem_of_spared, Hitem. cbn [negb]. rewrite andb_true_r.
      destruct (targeted include_custom self item); split.
      + intros [?|[? _]]; [by left|]. right. split; [done|]. by intros [_ [=]].
      + intros [?|[? _]]; [by left|]. by right.
      + intros [?|[_ [=]]]. by left.
      + intros [?|[Hin Hnot]]; [by left|]. by destruct Hnot. }
  destruct Hgoal as [Hstore' Hitems'].
  destruct (message self) as [msg|]; cbn [fst snd world edits stopped
                                            disabled_items].
  - rewrite Hobj, Hedits. do 5 (split; [done|]). by split.
  - rewrite app_nil_r. do 5 (split; [done|]). by split.
Qed.

Lemma disable_spec_witness :
  let self := obj (world sample) in
  let s' := (disable (fun _ => true) false goodbye sample).1 in
  (disable (fun _ => true) false goodbye sample).2
  = match message self with
    | Some _ => Ok tt
    | None => Raise NotReadyError
    end /\
  edits s'
  = edits sample
    ++ match message self with
       | Some msg =>
           [closing_edit (fun _ => true) (Page.new (Some "Goodbye") [] [])
              msg (children self)]
       | None => []
       end /\
  obj (world s') = self /\
  log (world s') = log (world sample) /\
  stopped s' = stopped sample /\
  (forall r : nat,
     store (world s') !! r
     = (fun b => if bool_decide (ButtonItem r ∈ children self)
                 then PaginatorButton.set_disabled true b else b)
         <$> store (world sample) !! r) /\
  (forall item,
     is_button item = false ->
     (item ∈ disabled_items s' <->
      item ∈ disabled_items sample \/
      (item ∈ children self /\ item ∉ spared false self))).
Proof.
  apply (disable_spec (fun _ => true) false goodbye
           (Page.new (Some "Goodbye") [] []) sample).
  reflexivity.
Defined.

(** X23: [on_timeout].  With [disable_on_timeout] off it stops the view and
    does nothing else.  With it on, it first disables every item of the
    view; it then returns, having asked for one edit of the message with the
    files of the current page, exactly if the paginator has a message, the
    current page exists and has a supported content, and the host edits the
    message or answers that it is not found or forbidden.  The view is
    stopped exactly when [on_timeout] returns: when it raises — no message,
    no such page, another failure of the host — the items are disabled and
    the view is left running. *)
Theorem on_timeout_spec (outcome : Outcome) (s : Session) :
  let self := obj (world s) in
  let s' := (on_timeout outcome s).1 in
  ((on_timeout outcome s).2 = Ok tt <->
   disable_on_timeout self = false \/
   (is_Some (message self) /\
    (exists content, current_content self = Ok content) /\
    forall e, outcome <> Failed e)) /\
  (stopped s' = true <->
   stopped s = true \/ (on_timeout outcome s).2 = Ok tt) /\
  (disable_on_timeout self = false -> s' = stop s) /\
  (disable_on_timeout self = true ->
   obj (world s') = self /\
   log (world s') = log (world s) /\
   (forall r : nat,
      store (world s') !! r
      = (fun b => if bool_decide (ButtonItem r ∈ children self)
                  then PaginatorButton.set_disabled true b else b)
          <$> store (world s) !! r) /\
   (forall item,
      is_button item = false ->
      (item ∈ disabled_items s' <->
       item ∈ disabled_items s \/ item ∈ children self)) /\
   edits s'
   = edits s ++ match message self, current_content self with
                | Some msg, Ok content =>
                    [EditFiles msg (children self) (Page.update_files content)]
                | _, _ => []
                end).
Proof.
  intros self s'. subst s'. unfold on_timeout. fold self.
  destruct (disable_on_timeout self) eqn:Hflag.
  2: { cbn [fst snd stop stopped].
       split; [split; [by left|done]|]. split; [split; [by right|done]|].
       by split. }
  destruct (disable_fold (fun _ _ => true) (children self) s)
    as (Hobj & Hlog & Hedits & Hstopped & Hstore & Hitems).
  cbn beta iota in Hobj, Hlog, Hedits, Hstopped, Hstore, Hitems.
  fold self in Hobj, Hlog, Hedits, Hstopped, Hstore, Hitems.
  set (s1 := fold_left _ (children self) s) in *.
  assert (Hstore' : forall r : nat,
            store (world s1) !! r
            = (fun b => if bool_decide (ButtonItem r ∈ children self)
                        then PaginatorButton.set_disabled true b else b)
                <$> store (world s) !! r).
  { intros r. by rewrite Hstore, disables_buttons. }
  assert (Hitems' : forall item,
            is_button item = false ->
            (item ∈ disabled_items s1 <->
             item ∈ disabled_items s \/ item ∈ children self)).
  { intros item Hitem. rewrite Hitems, elem_of_rev_filter, Hitem.
    cbn [negb andb]. tauto. }
  rewrite Hobj. unfold current_content, edit_message. rewrite Hobj.
  destruct (py_getitem (pages self) (current_page self)) as [page|e1];
    cbn [result_bind].
  2: { cbn [fst snd]. rewrite Hstopped, Hedits.
       split; [split; [done|intros [[=]|(_ & [? [=]] & _)]]|].
       split; [split; [by left|by intros [?|[=]]]|].
       split; [done|]. intros _. do 4 (split; [done|]).
       destruct (message self); by rewrite app_nil_r. }
  destruct (get_page_content page) as [content|e1].
  2: { cbn [fst snd]. rewrite Hstopped, Hedits.
       split; [split; [done|intros [[=]|(_ & [? [=]] & _)]]|].
       split; [split; [by left|by intros [?|[=]]]|].
       split; [done|]. intros _. do 4 (split; [done|]).
       destruct (message self); by rewrite app_nil_r. }
  assert (Hfiles : match Page.update_files content with
                   | [] => []
                   | _ :: _ => Page.update_files content
                   end = Page.update_files content)
    by (by destruct (Page.update_files content)).
  rewrite Hfiles.
  destruct (message self) as [msg|].
  2: { cbn [fst snd]. rewrite Hstopped, Hedits.
       split; [split; [done|intros [[=]|([? [=]] & _)]]|].
       split; [split; [by left|by intros [?|[=]]]|].
       split; [done|]. intros _. do 4 (split; [done|]).
       by rewrite app_nil_r. }
  destruct outcome as [| | |e1];
    cbn [fst snd stop stopped world edits disabled_items];
    rewrite ?Hstopped, ?Hedits.
  4: { split; [split; [done|intros [[=]|(_ & _ & Hfailed)]]|].
       { by destruct (Hfailed e1). }
       split; [split; [by left|by intros [?|[=]]]|].
       split; [done|]. intros _. by do 4 (split; [done|]). }
  all: split; [split; [intros _; right; split; [by eexists|];
                        split; [by eexists|done]|done]|].
  all: split; [split; [by right|done]|].
  all: split; [done|]; intros _; by do 4 (split; [done|]).
Qed.

Lemma on_timeout_spec_witness : (on_timeout NotFound sample).2 = Ok tt.
Proof.
  apply (proj2 (proj1 (on_timeout_spec NotFound sample))).
  right. split; [apply (bool_decide_unpack _); vm_compute; exact I|].
  split; [|done].
  exists (Page.new (Some "one"%string) [] []). vm_compute. reflexivity.
Defined.
